(** * SpaceX launch dashboard: a model of [spacex-dash-app.py]

    The program loads one table, resolves three column names, computes the
    payload bounds, builds a layout and answers two callbacks.  The table
    lives in a store of frame objects; every pandas operation that returns a
    new frame allocates one, and column assignment writes to the frame it is
    applied to.  Figures are the declarative chart descriptions handed to the
    plotting library.  Numbers are kept by their exact value, and the
    conversions to float64 that the program makes are written out. *)

From Stdlib Require Import List String Ascii Bool Arith ZArith QArith Lia Lqa.
From Stdlib Require Import DecimalString.
From Stdlib Require Import Sorted Permutation Qround Qpower Qabs.
Import ListNotations.

Open Scope string_scope.
Open Scope list_scope.

(** ** Python values and errors *)

(** A cell of a frame: text, a number, or a missing value (NaN).  A number
    is the value of an int64 or of a float64 cell, as an exact rational: a
    float64 cell holds a value that [round64] below leaves as it is, and a
    number that it changes is an integer of an int64 column.  The
    infinities are not modelled. *)
Inductive cell : Type :=
| CStr (s : string)
| CNum (q : Q)
| CNaN.

(** A numeric scalar by its value: a Python float, or the int64 or float64
    scalar that a reduction of a column returns.  [None] is NaN. *)
Definition pyfloat : Type := option Q.

Inductive error : Type :=
| KeyError (name : string)
| TypeError
| ValueError (msg : string) (detail : list string).

Inductive result (A : Type) : Type :=
| Ok (a : A)
| Err (e : error).

Arguments Ok {A} a.
Arguments Err {A} e.

Definition rbind {A B : Type} (r : result A) (k : A -> result B) : result B :=
  match r with
  | Ok a => k a
  | Err e => Err e
  end.

(** ** float64 *)

(** The float64 values are the rationals m * 2^k with |m| <= 2^53 and
    k >= -1074.  [round64] converts a number to float64: to the nearest
    value, and to the one with the even m on a tie.  The exponent is not
    bounded above: a magnitude of 2^1024 or more, which the conversion
    turns into an infinity, is outside the model. *)
Definition pow2 (k : Z) : Q := 2 ^ k.

(** The exponent of a positive number: the e with 2^e <= q < 2^(e+1). *)
Definition ilog2 (q : Q) : Z :=
  let c := (Z.log2 (Qnum q) - Z.log2 (Zpos (Qden q)))%Z in
  if Qle_bool (pow2 c) q then c else (c - 1)%Z.

(** The nearest integer, the even one at a half. *)
Definition rne (x : Q) : Z :=
  let f := Qfloor x in
  match Qcompare (x - inject_Z f) (1 # 2) with
  | Lt => f
  | Gt => (f + 1)%Z
  | Eq => if Z.even f then f else (f + 1)%Z
  end.

(** The spacing of the float64 values at a positive number, as an exponent:
    52 binary places below the leading one, and 2^-1074 for the subnormal
    numbers. *)
Definition quantum (q : Q) : Z := Z.max (ilog2 q - 52) (-1074).

Definition round_pos (q : Q) : Q :=
  inject_Z (rne (q / pow2 (quantum q))) * pow2 (quantum q).

Definition round64 (q : Q) : Q :=
  match Qnum q with
  | Z0 => 0
  | Zpos _ => round_pos q
  | Zneg _ => - round_pos (- q)
  end.

(** A float64 value: one that the conversion leaves as it is. *)
Definition is_float64 (q : Q) : bool := Qeq_bool (round64 q) q.

(** [float(x)] of an int64 or float64 scalar; NaN stays NaN. *)
Definition py_float (x : pyfloat) : pyfloat :=
  match x with
  | Some q => Some (round64 q)
  | None => None
  end.

(** ** Frames *)

Record DataFrame : Type := mkFrame {
  columns : list string;
  rows : list (list cell)
}.

Fixpoint index_of (name : string) (cols : list string) : option nat :=
  match cols with
  | [] => None
  | c :: cs =>
      if String.eqb c name then Some O
      else match index_of name cs with
           | Some i => Some (S i)
           | None => None
           end
  end.

(** [name in df.columns] *)
Definition has_column (name : string) (cols : list string) : bool :=
  match index_of name cols with Some _ => true | None => false end.

(** A short row reads as missing past its end, as [read_csv] pads it. *)
Definition cell_at (i : nat) (r : list cell) : cell := nth i r CNaN.

(** [df[name]]: the column as a series, [KeyError] when absent. *)
Definition getitem (df : DataFrame) (name : string) : result (list cell) :=
  match index_of name (columns df) with
  | Some i => Ok (map (cell_at i) (rows df))
  | None => Err (KeyError name)
  end.

(** [series == text] *)
Definition eq_str (s : string) (c : cell) : bool :=
  match c with
  | CStr t => String.eqb t s
  | _ => false
  end.

(** [series == number] *)
Definition eq_num (n : Q) (c : cell) : bool :=
  match c with
  | CNum q => Qeq_bool q n
  | _ => false
  end.

(** [cell >= low], where [low] is a float: the comparison is made in
    float64, to which the number of an int64 column is converted first; a
    float is its own conversion.  NaN on either side compares false, text
    against a number raises. *)
Definition ge_scalar (low : pyfloat) (c : cell) : result bool :=
  match c with
  | CStr _ => Err TypeError
  | CNaN => Ok false
  | CNum q => match low with
              | Some l => Ok (Qle_bool (round64 l) (round64 q))
              | None => Ok false
              end
  end.

(** [cell <= high] *)
Definition le_scalar (high : pyfloat) (c : cell) : result bool :=
  match c with
  | CStr _ => Err TypeError
  | CNaN => Ok false
  | CNum q => match high with
              | Some h => Ok (Qle_bool (round64 q) (round64 h))
              | None => Ok false
              end
  end.

Fixpoint series_cmp (f : cell -> result bool) (s : list cell)
  : result (list bool) :=
  match s with
  | [] => Ok []
  | c :: t =>
      rbind (f c) (fun b => rbind (series_cmp f t) (fun bs => Ok (b :: bs)))
  end.

(** [m1 & m2] *)
Fixpoint mask_and (m1 m2 : list bool) : list bool :=
  match m1, m2 with
  | a :: t1, b :: t2 => (a && b) :: mask_and t1 t2
  | _, _ => []
  end.

(** [df[mask]]: the rows whose mask entry is true. *)
Fixpoint select (rs : list (list cell)) (mask : list bool)
  : list (list cell) :=
  match rs, mask with
  | r :: rs', b :: mask' =>
      if b then r :: select rs' mask' else select rs' mask'
  | _, _ => []
  end.

Definition boolean_index (df : DataFrame) (mask : list bool) : DataFrame :=
  {| columns := columns df; rows := select (rows df) mask |}.

(** Equality of cells as hash keys ([unique], [value_counts]). *)
Definition cell_eqb (a b : cell) : bool :=
  match a, b with
  | CStr s, CStr t => String.eqb s t
  | CNum p, CNum q => Qeq_bool p q
  | CNaN, CNaN => true
  | _, _ => false
  end.

Definition is_nan (c : cell) : bool :=
  match c with CNaN => true | _ => false end.

(** [series.unique()]: distinct values in order of first appearance. *)
Fixpoint unique (s : list cell) : list cell :=
  match s with
  | [] => []
  | c :: t => c :: filter (fun d => negb (cell_eqb c d)) (unique t)
  end.

Definition count_cell (c : cell) (s : list cell) : nat :=
  List.length (filter (cell_eqb c) s).

(** Descending by count, ties kept in their order. *)
Fixpoint insert_desc (x : cell * nat) (l : list (cell * nat))
  : list (cell * nat) :=
  match l with
  | [] => [x]
  | y :: t =>
      if Nat.leb (snd y) (snd x) then x :: y :: t
      else y :: insert_desc x t
  end.

Definition sort_desc (l : list (cell * nat)) : list (cell * nat) :=
  fold_right insert_desc [] l.

(** [series.value_counts()]: missing values dropped, one entry per distinct
    value with its number of occurrences, largest count first. *)
Definition value_counts (s : list cell) : list (cell * nat) :=
  let present := filter (fun c => negb (is_nan c)) s in
  sort_desc (map (fun v => (v, count_cell v present)) (unique present)).

Definition num_of_nat (n : nat) : cell := CNum (inject_Z (Z.of_nat n)).

(** [.rename_axis(axis).reset_index(name=name)]: the counted series as a
    two-column frame. *)
Definition reset_index (axis name : string) (vc : list (cell * nat))
  : DataFrame :=
  {| columns := [axis; name];
     rows := map (fun p => [fst p; num_of_nat (snd p)]) vc |}.

Fixpoint set_nth (i : nat) (v : cell) (r : list cell) : list cell :=
  match i, r with
  | O, _ :: t => v :: t
  | O, [] => [v]
  | S j, c :: t => c :: set_nth j v t
  | S j, [] => CNaN :: set_nth j v []
  end.

Fixpoint zip_rows (f : list cell -> cell -> list cell)
  (rs : list (list cell)) (vs : list cell) : list (list cell) :=
  match rs, vs with
  | r :: rs', v :: vs' => f r v :: zip_rows f rs' vs'
  | _, _ => []
  end.

(** [df[name] = series]: replaces the column, or appends a new one. *)
Definition setitem (df : DataFrame) (name : string) (vs : list cell)
  : DataFrame :=
  match index_of name (columns df) with
  | Some i =>
      {| columns := columns df;
         rows := zip_rows (fun r v => set_nth i v r) (rows df) vs |}
  | None =>
      {| columns := columns df ++ [name];
         rows := zip_rows (fun r v => r ++ [v]) (rows df) vs |}
  end.

(** [series.map({1: 'Success (1)', 0: 'Failure (0)'})]: a key that the
    dictionary lacks maps to NaN. *)
Definition outcome_label (c : cell) : cell :=
  match c with
  | CNum q =>
      if Qeq_bool q 1 then CStr "Success (1)"
      else if Qeq_bool q 0 then CStr "Failure (0)"
      else CNaN
  | _ => CNaN
  end.

(** ** Reductions, sorting and scalar conversions *)

(** The numbers of a series, missing values skipped.  The reductions are
    modelled for numeric columns.  Of a text column pandas returns the least
    or the greatest string, and start-up then fails when the two are
    converted or added up for the slider; the model reports a text cell at
    the reduction, and the properties that depend on the bounds assume a
    numeric column. *)
Fixpoint numbers (s : list cell) : result (list Q) :=
  match s with
  | [] => Ok []
  | CStr _ :: _ => Err TypeError
  | CNaN :: t => numbers t
  | CNum q :: t => rbind (numbers t) (fun ns => Ok (q :: ns))
  end.

Definition qmin (a b : Q) : Q := if Qle_bool a b then a else b.
Definition qmax (a b : Q) : Q := if Qle_bool a b then b else a.

(** [series.min()] and [series.max()]: NaN for a series without numbers. *)
Definition series_min (s : list cell) : result pyfloat :=
  rbind (numbers s) (fun ns =>
    match ns with
    | [] => Ok None
    | n :: t => Ok (Some (fold_left qmin t n))
    end).

Definition series_max (s : list cell) : result pyfloat :=
  rbind (numbers s) (fun ns =>
    match ns with
    | [] => Ok None
    | n :: t => Ok (Some (fold_left qmax t n))
    end).

(** [a < b] between cells, as [sorted] uses it. *)
Definition cell_lt (a b : cell) : result bool :=
  match a, b with
  | CStr s, CStr t => Ok (String.ltb s t)
  | CStr _, _ => Err TypeError
  | _, CStr _ => Err TypeError
  | CNum p, CNum q => Ok (negb (Qle_bool q p))
  | _, _ => Ok false
  end.

Fixpoint insert_sorted (x : cell) (l : list cell) : result (list cell) :=
  match l with
  | [] => Ok [x]
  | y :: t =>
      rbind (cell_lt y x) (fun b =>
        if b then rbind (insert_sorted x t) (fun r => Ok (y :: r))
        else Ok (x :: y :: t))
  end.

(** [sorted(values)]: stable, raising on text against a number. *)
Fixpoint py_sorted (l : list cell) : result (list cell) :=
  match l with
  | [] => Ok []
  | x :: t => rbind (py_sorted t) (insert_sorted x)
  end.

(** [int(x)]: truncation toward zero; NaN cannot be converted. *)
Definition py_int (x : pyfloat) : result Z :=
  match x with
  | Some q => Ok (Z.quot (Qnum q) (Zpos (Qden q)))
  | None => Err (ValueError "cannot convert float NaN to integer" [])
  end.

(** [str(n)] for an integer. *)
Definition py_str (n : Z) : string := NilZero.string_of_int (Z.to_int n).

(** [a + b] of two scalars of a column, in float64.  Two int64 scalars add
    exactly as long as the sum stays in the int64 range, and the division
    that follows converts the sum: the quotient is the same. *)
Definition fadd (a b : pyfloat) : pyfloat :=
  match a, b with
  | Some x, Some y => Some (round64 (x + y))
  | _, _ => None
  end.

(** [a / d] in float64. *)
Definition fdiv (a : pyfloat) (d : Q) : pyfloat :=
  match a with
  | Some x => Some (round64 (x / d))
  | None => None
  end.

(** A dictionary with integer keys, in insertion order; a repeated key keeps
    its place and takes the new value. *)
Fixpoint dict_set (k : Z) (v : string) (d : list (Z * string))
  : list (Z * string) :=
  match d with
  | [] => [(k, v)]
  | (k', v') :: t =>
      if Z.eqb k' k then (k', v) :: t else (k', v') :: dict_set k v t
  end.

(** ** The store of frame objects *)

Definition ref : Type := nat.
Definition store : Type := list DataFrame.

Definition empty_frame : DataFrame := {| columns := []; rows := [] |}.

Definition M (A : Type) : Type := store -> result A * store.

Definition ret {A : Type} (a : A) : M A := fun h => (Ok a, h).

Definition raise {A : Type} (e : error) : M A := fun h => (Err e, h).

Definition bind {A B : Type} (m : M A) (k : A -> M B) : M B :=
  fun h =>
    match m h with
    | (Ok a, h') => k a h'
    | (Err e, h') => (Err e, h')
    end.

Definition lift {A : Type} (r : result A) : M A := fun h => (r, h).

Notation "x <- m ;; k" := (bind m (fun x => k))
  (at level 61, m at next level, right associativity).
Notation "m ;;; k" := (bind m (fun _ => k))
  (at level 61, right associativity).

(** A new object, at a fresh reference. *)
Definition alloc (d : DataFrame) : M ref :=
  fun h => (Ok (List.length h), h ++ [d]).

Definition deref (r : ref) : M DataFrame :=
  fun h => (Ok (nth r h empty_frame), h).

Fixpoint update (h : store) (r : ref) (d : DataFrame) : store :=
  match h, r with
  | [], _ => []
  | _ :: t, O => d :: t
  | x :: t, S r' => x :: update t r' d
  end.

(** In-place modification of the object at [r]. *)
Definition assign (r : ref) (d : DataFrame) : M unit :=
  fun h => (Ok tt, update h r d).

(** [frame[name]] *)
Definition col (r : ref) (name : string) : M (list cell) :=
  d <- deref r ;; lift (getitem d name).

(** [frame.columns] *)
Definition frame_columns (r : ref) : M (list string) :=
  d <- deref r ;; ret (columns d).

(** [frame[mask]]: a new frame. *)
Definition mask_index (r : ref) (mask : list bool) : M ref :=
  d <- deref r ;; alloc (boolean_index d mask).

(** [frame.copy()] *)
Definition copy (r : ref) : M ref :=
  d <- deref r ;; alloc d.

(** [frame[name] = series]: writes to the frame itself. *)
Definition set_column (r : ref) (name : string) (vs : list cell) : M unit :=
  d <- deref r ;; assign r (setitem d name vs).

(** ** Figures *)

(** What [px.pie] is given: one label per row, the sizes when a values
    column is named, and the title.  Without values every row counts one. *)
Record PieFigure : Type := mkPie {
  pie_names : list cell;
  pie_values : option (list cell);
  pie_title : string
}.

(** What [px.scatter] and the axis updates are given. *)
Record ScatterFigure : Type := mkScatter {
  sc_data : DataFrame;
  sc_x : list cell;
  sc_y : list cell;
  sc_color : list cell;
  sc_hover : list (list cell);
  sc_title : string;
  sc_y_tickvals : list Z;
  sc_y_title : string;
  sc_x_title : string
}.

(** A column named in a plotting call; the plotting library raises
    [ValueError] for a name that is not a column of the frame. *)
Definition px_column (d : DataFrame) (name : string) : result (list cell) :=
  match index_of name (columns d) with
  | Some i => Ok (map (cell_at i) (rows d))
  | None => Err (ValueError name (columns d))
  end.

Definition px_pie (r : ref) (names : string) (values : option string)
  (title : string) : M PieFigure :=
  d <- deref r ;;
  ns <- lift (px_column d names) ;;
  match values with
  | None => ret {| pie_names := ns; pie_values := None; pie_title := title |}
  | Some v =>
      vs <- lift (px_column d v) ;;
      ret {| pie_names := ns; pie_values := Some vs; pie_title := title |}
  end.

Definition px_scatter (r : ref) (x y color hover title : string)
  : M ScatterFigure :=
  d <- deref r ;;
  xs <- lift (px_column d x) ;;
  ys <- lift (px_column d y) ;;
  cs <- lift (px_column d color) ;;
  hs <- lift (px_column d hover) ;;
  ret {| sc_data := d; sc_x := xs; sc_y := ys; sc_color := cs;
         sc_hover := [hs]; sc_title := title;
         sc_y_tickvals := []; sc_y_title := ""; sc_x_title := "" |}.

(** [fig.update_yaxes(tickmode="array", tickvals=..., title=...)] *)
Definition update_yaxes (tickvals : list Z) (title : string)
  (f : ScatterFigure) : ScatterFigure :=
  {| sc_data := sc_data f; sc_x := sc_x f; sc_y := sc_y f;
     sc_color := sc_color f; sc_hover := sc_hover f; sc_title := sc_title f;
     sc_y_tickvals := tickvals; sc_y_title := title;
     sc_x_title := sc_x_title f |}.

(** [fig.update_xaxes(title=...)] *)
Definition update_xaxes (title : string) (f : ScatterFigure)
  : ScatterFigure :=
  {| sc_data := sc_data f; sc_x := sc_x f; sc_y := sc_y f;
     sc_color := sc_color f; sc_hover := sc_hover f; sc_title := sc_title f;
     sc_y_tickvals := sc_y_tickvals f; sc_y_title := sc_y_title f;
     sc_x_title := title |}.

Definition cell_num (c : cell) : Q :=
  match c with CNum q => q | _ => 0%Q end.

Fixpoint sum_values (label : cell) (names values : list cell) : Q :=
  match names, values with
  | n :: ns, v :: vs =>
      ((if cell_eqb label n then cell_num v else 0) + sum_values label ns vs)%Q
  | _, _ => 0%Q
  end.

(** The size of the slice drawn for a label: the rows carrying the label
    are added up. *)
Definition slice_size (f : PieFigure) (label : cell) : Q :=
  match pie_values f with
  | None => inject_Z (Z.of_nat (count_cell label (pie_names f)))
  | Some vs => sum_values label (pie_names f) vs
  end.

(** ** The program *)

(** The module-level names bound at start-up (lines 9-28). *)
Record globals : Type := mkGlobals {
  spacex_df : ref;
  site_col : string;
  payload_col : string;
  booster_col : string;
  max_payload : pyfloat;
  min_payload : pyfloat
}.

Definition resolve_site (cols : list string) : string :=
  if has_column "Launch Site" cols then "Launch Site" else "LaunchSite".

Definition resolve_payload (cols : list string) : option string :=
  if has_column "Payload Mass (kg)" cols then Some "Payload Mass (kg)"
  else if has_column "PayloadMass" cols then Some "PayloadMass"
  else if has_column "PayloadMassKg" cols then Some "PayloadMassKg"
  else None.

Definition resolve_booster (cols : list string) : string :=
  if has_column "Booster Version Category" cols
  then "Booster Version Category" else "BoosterVersionCategory".

Definition no_payload_message : string :=
  "Couldn't find a payload column (e.g., 'Payload Mass (kg)') in the CSV. Available columns: ".

(** Lines 9-28: read the file, resolve the column names, compute the
    payload bounds.  [file] is the table that [read_csv] parses. *)
Definition loader (file : DataFrame) : M globals :=
  df <- alloc file ;;
  cols <- frame_columns df ;;
  let site := resolve_site cols in
  let payload := resolve_payload cols in
  let booster := resolve_booster cols in
  match payload with
  | None => raise (ValueError no_payload_message cols)
  | Some p =>
      c1 <- col df p ;;
      mx <- lift (series_max c1) ;;
      c2 <- col df p ;;
      mn <- lift (series_min c2) ;;
      ret {| spacex_df := df; site_col := site; payload_col := p;
             booster_col := booster; max_payload := mx; min_payload := mn |}
  end.

Record DropdownOption : Type := mkOption {
  opt_label : cell;
  opt_value : cell
}.

Record RangeSlider : Type := mkSlider {
  sl_min : pyfloat;
  sl_max : pyfloat;
  sl_step : Z;
  sl_value : pyfloat * pyfloat;
  sl_marks : list (Z * string);
  sl_allowCross : bool
}.

Record Layout : Type := mkLayout {
  dropdown_options : list DropdownOption;
  dropdown_value : string;
  slider : RangeSlider
}.

(** Lines 59-71: the ends and the opening value are the bounds as floats,
    the marks are keyed and labelled by the bounds and their midpoint as
    integers. *)
Definition payload_slider (g : globals) : result RangeSlider :=
  let mid := fdiv (fadd (min_payload g) (max_payload g)) 2 in
  rbind (py_int (min_payload g)) (fun k1 =>
  rbind (py_int (min_payload g)) (fun v1 =>
  rbind (py_int mid) (fun k2 =>
  rbind (py_int mid) (fun v2 =>
  rbind (py_int (max_payload g)) (fun k3 =>
  rbind (py_int (max_payload g)) (fun v3 =>
  Ok {| sl_min := py_float (min_payload g);
        sl_max := py_float (max_payload g);
        sl_step := 1000;
        sl_value := (py_float (min_payload g), py_float (max_payload g));
        sl_marks :=
          dict_set k3 (py_str v3)
            (dict_set k2 (py_str v2) (dict_set k1 (py_str v1) []));
        sl_allowCross := false |})))))).

(** Lines 34-77: the dropdown options, then the slider. *)
Definition layout (g : globals) : M Layout :=
  sites <- col (spacex_df g) (site_col g) ;;
  sorted <- lift (py_sorted (unique sites)) ;;
  sl <- lift (payload_slider g) ;;
  ret {| dropdown_options :=
           {| opt_label := CStr "All Sites"; opt_value := CStr "ALL" |}
           :: map (fun s => {| opt_label := s; opt_value := s |}) sorted;
         dropdown_value := "ALL";
         slider := sl |}.

(** Everything that runs before the server starts: a failure here ends the
    process with no interface served. *)
Definition startup (file : DataFrame) : M (globals * Layout) :=
  g <- loader file ;;
  l <- layout g ;;
  ret (g, l).

(** Lines 86-110. *)
Definition get_pie_chart (g : globals) (entered_site : string)
  : M PieFigure :=
  if String.eqb entered_site "ALL" then
    cls <- col (spacex_df g) "class" ;;
    df_success <- mask_index (spacex_df g) (map (eq_num 1) cls) ;;
    px_pie df_success (site_col g) None "Total Successful Launches by Site"
  else
    sites <- col (spacex_df g) (site_col g) ;;
    df_site <- mask_index (spacex_df g) (map (eq_str entered_site) sites) ;;
    cls <- col df_site "class" ;;
    outcome_counts <-
      alloc (reset_index "Outcome" "Count" (value_counts cls)) ;;
    oc <- col outcome_counts "Outcome" ;;
    set_column outcome_counts "Outcome" (map outcome_label oc) ;;;
    px_pie outcome_counts "Outcome" (Some "Count")
      (String.append "Launch Outcomes for " entered_site).

Definition scatter_title (title_suffix : string) : string :=
  String.append "Payload vs. Launch Outcome (0/1) â€” " title_suffix.

(** Lines 122-144.  [payload_range] holds the two floats that the slider
    sends. *)
Definition update_scatter (g : globals) (selected_site : string)
  (payload_range : pyfloat * pyfloat) : M ScatterFigure :=
  let (low, high) := payload_range in
  p1 <- col (spacex_df g) (payload_col g) ;;
  m1 <- lift (series_cmp (ge_scalar low) p1) ;;
  p2 <- col (spacex_df g) (payload_col g) ;;
  m2 <- lift (series_cmp (le_scalar high) p2) ;;
  masked <- mask_index (spacex_df g) (mask_and m1 m2) ;;
  dff <- copy masked ;;
  sel <-
    (if negb (String.eqb selected_site "ALL") then
       sites <- col dff (site_col g) ;;
       dff' <- mask_index dff (map (eq_str selected_site) sites) ;;
       ret (dff', selected_site)
     else ret (dff, "All Sites")) ;;
  fig <- px_scatter (fst sel) (payload_col g) "class" (booster_col g)
           (site_col g) (scatter_title (snd sel)) ;;
  ret (update_xaxes "Payload Mass (kg)"
         (update_yaxes [0%Z; 1%Z] "Launch Outcome (class)" fig)).

(** A request of the browser, and the server answering requests one after
    another: each is answered by its callback; an exception is reported to
    the client and serving goes on. *)
Inductive request : Type :=
| PieRequest (site : string)
| ScatterRequest (site : string) (payload_range : pyfloat * pyfloat).

Definition answer (g : globals) (q : request) : M unit :=
  fun h =>
    match q with
    | PieRequest site => (Ok tt, snd (get_pie_chart g site h))
    | ScatterRequest site range => (Ok tt, snd (update_scatter g site range h))
    end.

Fixpoint serve (g : globals) (qs : list request) : M unit :=
  match qs with
  | [] => ret tt
  | q :: qs' => answer g q ;;; serve g qs'
  end.

(** ** The vocabulary of the properties *)

(** The store after a computation keeps every object that existed before,
    as it was. *)
Definition extends (h h' : store) : Prop := exists l, h' = h ++ l.

(** The value of a row in the column called [name]. *)
Definition field (df : DataFrame) (name : string) (r : list cell) : cell :=
  match index_of name (columns df) with
  | Some i => cell_at i r
  | None => CNaN
  end.

(** A test on cells that does not tell equal keys apart. *)
Definition respects (p : cell -> bool) : Prop :=
  forall a b, cell_eqb a b = true -> p a = p b.

(** The counts of the entries whose key passes [p], added up. *)
Fixpoint total (vc : list (cell * nat)) (p : cell -> bool) : nat :=
  match vc with
  | [] => O
  | e :: t => ((if p (fst e) then snd e else O) + total t p)%nat
  end.

(** How many keys of [u] pass [p] and equal [x]. *)
Definition hits (u : list cell) (p : cell -> bool) (x : cell) : nat :=
  List.length (filter (fun v => p v && cell_eqb v x) u).

Definition success_label : cell := CStr "Success (1)".
Definition failure_label : cell := CStr "Failure (0)".

(** An outcome flag: the number 0 or the number 1. *)
Definition is_flag (c : cell) : bool := eq_num 0 c || eq_num 1 c.

(** Every outcome flag of the table is 0 or 1. *)
Definition binary_outcomes (df : DataFrame) : Prop :=
  forallb (fun r => is_flag (field df "class" r)) (rows df) = true.

(** The rows of a frame at a site. *)
Definition rows_of_site (g : globals) (df : DataFrame) (site : string)
  : list (list cell) :=
  filter (fun r => eq_str site (field df (site_col g) r)) (rows df).

Definition is_text (c : cell) : bool :=
  match c with CStr _ => true | _ => false end.

(** A numeric column: numbers and missing values only, as [read_csv]
    produces for a column it parses as numbers. *)
Definition numeric_column (df : DataFrame) (name : string) : Prop :=
  forallb (fun r => negb (is_text (field df name r))) (rows df) = true.

Definition ge_test (low : pyfloat) (c : cell) : bool :=
  match c, low with
  | CNum q, Some l => Qle_bool (round64 l) (round64 q)
  | _, _ => false
  end.

Definition le_test (high : pyfloat) (c : cell) : bool :=
  match c, high with
  | CNum q, Some h => Qle_bool (round64 q) (round64 h)
  | _, _ => false
  end.

(** Membership of a payload cell in the inclusive range, as the filter
    tests it. *)
Definition in_range (low high : pyfloat) (c : cell) : bool :=
  ge_test low c && le_test high c.

Definition site_matches (g : globals) (df : DataFrame) (site : string)
  (r : list cell) : bool :=
  String.eqb site "ALL" || eq_str site (field df (site_col g) r).

(** The rows the scatter chart keeps. *)
Definition kept (g : globals) (df : DataFrame) (site : string)
  (low high : pyfloat) : list (list cell) :=
  filter (fun r => in_range low high (field df (payload_col g) r)
                   && site_matches g df site r) (rows df).

Definition scatter_suffix (site : string) : string :=
  if String.eqb site "ALL" then "All Sites" else site.

(** A site that no row of the table carries. *)
Definition unknown_site (g : globals) (df : DataFrame) (site : string)
  : Prop :=
  forallb (fun r => negb (eq_str site (field df (site_col g) r))) (rows df)
  = true.

(** A payload range that no row of the table falls in. *)
Definition empty_range (g : globals) (df : DataFrame) (low high : pyfloat)
  : Prop :=
  forallb (fun r => negb (in_range low high (field df (payload_col g) r)))
    (rows df) = true.

Definition payload_aliases : list string :=
  ["Payload Mass (kg)"; "PayloadMass"; "PayloadMassKg"].

(** [int] of a number: truncation toward zero. *)
Definition truncate (q : Q) : Z := Z.quot (Qnum q) (Zpos (Qden q)).

Definition is_num (c : cell) : bool :=
  match c with CNum _ => true | _ => false end.

(** No payload value of the table is missing. *)
Definition complete_payload (df : DataFrame) (name : string) : Prop :=
  forallb (fun r => is_num (field df name r)) (rows df) = true.

(** A table of five launches; the fourth has no payload value. *)
Definition sample_file : DataFrame :=
  {| columns := ["Launch Site"; "class"; "Payload Mass (kg)";
                 "Booster Version Category"];
     rows := [ [CStr "CCAFS LC-40"; CNum 0; CNum 0; CStr "v1.0"];
               [CStr "KSC LC-39A"; CNum 1; CNum 2500; CStr "FT"];
               [CStr "CCAFS LC-40"; CNum 1; CNum 9600; CStr "B4"];
               [CStr "VAFB SLC-4E"; CNum 0; CNaN; CStr "FT"];
               [CStr "KSC LC-39A"; CNum 1; CNum (5301 # 2); CStr "FT"] ] |}.

Definition sample_globals : globals :=
  {| spacex_df := O;
     site_col := "Launch Site";
     payload_col := "Payload Mass (kg)";
     booster_col := "Booster Version Category";
     max_payload := Some 9600;
     min_payload := Some 0 |}.

Definition sample_store : store := [sample_file].

(** The same launches without the one that lacks a payload value. *)
Definition complete_file : DataFrame :=
  {| columns := columns sample_file;
     rows := filter (fun r => is_num (field sample_file "Payload Mass (kg)" r))
               (rows sample_file) |}.

(** A table that names its columns differently and has no site column. *)
Definition renamed_file : DataFrame :=
  {| columns := ["Site"; "class"; "PayloadMassKg"; "Booster"];
     rows := [ [CStr "KSC LC-39A"; CNum 1; CNum 2500; CStr "FT"] ] |}.

(** A column of float64 values: any float64 column, and an int64 column
    whose integers float64 represents, as it does all those up to 2^53. *)
Definition float_column (df : DataFrame) (name : string) : Prop :=
  forallb (fun r => match field df name r with
                    | CNum q => is_float64 q
                    | _ => true
                    end) (rows df) = true.

(** A column of numbers below 2^62 in magnitude: the sum of two of them
    stays in the int64 range, and far below the largest float64. *)
Definition bounded_column (df : DataFrame) (name : string) : Prop :=
  forallb (fun r => match field df name r with
                    | CNum q => Qle_bool (inject_Z (- 2 ^ 62)) q &&
                                negb (Qle_bool (inject_Z (2 ^ 62)) q)
                    | _ => true
                    end) (rows df) = true.

(** Two launches without a payload value. *)
Definition unweighed_file : DataFrame :=
  {| columns := ["Launch Site"; "class"; "Payload Mass (kg)";
                 "Booster Version Category"];
     rows := [ [CStr "KSC LC-39A"; CNum 1; CNaN; CStr "FT"];
               [CStr "CCAFS LC-40"; CNum 0; CNaN; CStr "v1.0"] ] |}.

(** A launch whose payload is an integer that float64 does not represent:
    2^53 + 1. *)
Definition heavy_file : DataFrame :=
  {| columns := ["Launch Site"; "class"; "Payload Mass (kg)";
                 "Booster Version Category"];
     rows := [ [CStr "KSC LC-39A"; CNum 1; CNum 9007199254740993;
                CStr "FT"] ] |}.

(** ** Further vocabulary *)

(** A column that holds text in every row. *)
Definition text_column (df : DataFrame) (name : string) : Prop :=
  forallb (fun r => is_text (field df name r)) (rows df) = true.

(** A column without a single number. *)
Definition no_numbers (df : DataFrame) (name : string) : Prop :=
  forallb (fun r => negb (is_num (field df name r))) (rows df) = true.

(** [a < b] holds, as [sorted] tests it. *)
Definition cell_before (a b : cell) : Prop := cell_lt a b = Ok true.

Definition site_option (s : cell) : DropdownOption :=
  {| opt_label := s; opt_value := s |}.

Definition all_sites_option : DropdownOption :=
  {| opt_label := CStr "All Sites"; opt_value := CStr "ALL" |}.

(** The sizes of a series of counts, added up. *)
Fixpoint sum_cells (vs : list cell) : Q :=
  match vs with
  | [] => 0%Q
  | v :: t => (cell_num v + sum_cells t)%Q
  end.

(** The counts of a pie chart built with a values column. *)
Definition pie_counts (f : PieFigure) : list cell :=
  match pie_values f with
  | Some vs => vs
  | None => []
  end.

(** A column with a text cell and a cell that is not text. *)
Definition mixed_column (df : DataFrame) (name : string) : Prop :=
  existsb (fun r => is_text (field df name r)) (rows df) = true /\
  existsb (fun r => negb (is_text (field df name r))) (rows df) = true.

(** A table in which one launch has no site. *)
Definition missing_site_file : DataFrame :=
  {| columns := ["Launch Site"; "class"; "Payload Mass (kg)";
                 "Booster Version Category"];
     rows := [ [CStr "KSC LC-39A"; CNum 1; CNum 2500; CStr "FT"];
               [CNaN; CNum 0; CNum 500; CStr "v1.0"] ] |}.

(** A column with at least one number. *)
Definition some_number (df : DataFrame) (name : string) : Prop :=
  existsb (fun r => is_num (field df name r)) (rows df) = true.

(** A table without the outcome column. *)
Definition no_class_file : DataFrame :=
  {| columns := ["Launch Site"; "Payload Mass (kg)";
                 "Booster Version Category"];
     rows := [ [CStr "KSC LC-39A"; CNum 2500; CStr "FT"] ] |}.

(** * Properties *)

(** ** Conversion to float64 *)

Lemma pow2_pos (k : Z) : 0 < pow2 k.
Proof. unfold pow2. apply Qpower_0_lt. reflexivity. Qed.

Lemma pow2_add (a b : Z) : pow2 (a + b) == pow2 a * pow2 b.
Proof. unfold pow2. apply Qpower_plus. discriminate. Qed.

Lemma pow2_le (a b : Z) : (a <= b)%Z -> pow2 a <= pow2 b.
Proof.
  intros H. unfold pow2. apply Qpower_le_compat_l; [exact H | discriminate].
Qed.

Lemma pow2_lt (a b : Z) : (a < b)%Z -> pow2 a < pow2 b.
Proof.
  intros H. unfold pow2. apply Qpower_lt_compat_l; [exact H | reflexivity].
Qed.

Lemma pow2_Z (k : Z) : (0 <= k)%Z -> pow2 k == inject_Z (2 ^ k).
Proof. intros H. unfold pow2. now rewrite Zpower_Qpower. Qed.

Lemma pow2_sub (a b : Z) : pow2 (a - b) == pow2 a / pow2 b.
Proof.
  assert (Hb := pow2_pos b).
  apply (Qmult_inj_r _ _ (pow2 b)); [lra|].
  rewrite <- pow2_add. replace (a - b + b)%Z with a by ring.
  field. lra.
Qed.

Lemma ilog2_spec (q : Q) :
  0 < q -> pow2 (ilog2 q) <= q /\ q < pow2 (ilog2 q + 1).
Proof.
  intros Hq. unfold ilog2.
  set (a := Z.log2 (Qnum q)). set (b := Z.log2 (Zpos (Qden q))).
  assert (Hn : (0 < Qnum q)%Z).
  { unfold Qlt in Hq. cbn in Hq. lia. }
  destruct (Z.log2_spec (Qnum q) Hn) as [Ha1 Ha2]. fold a in Ha1, Ha2.
  destruct (Z.log2_spec (Zpos (Qden q)) eq_refl) as [Hb1 Hb2].
  fold b in Hb1, Hb2.
  assert (Ha0 : (0 <= a)%Z) by apply Z.log2_nonneg.
  assert (Hb0 : (0 <= b)%Z) by apply Z.log2_nonneg.
  assert (Hpa : (0 < 2 ^ a)%Z) by (apply Z.pow_pos_nonneg; lia).
  assert (Hpb : (0 < 2 ^ b)%Z) by (apply Z.pow_pos_nonneg; lia).
  assert (Hsa : (2 ^ (a + 1) = 2 * 2 ^ a)%Z).
  { rewrite Z.pow_add_r by lia. change (2 ^ 1)%Z with 2%Z. ring. }
  assert (Hsb : (2 ^ (b + 1) = 2 * 2 ^ b)%Z).
  { rewrite Z.pow_add_r by lia. change (2 ^ 1)%Z with 2%Z. ring. }
  rewrite <- Z.add_1_r in Ha2, Hb2.
  assert (Hhi : q < pow2 (a - b + 1)).
  { replace (a - b + 1)%Z with ((a + 1) - b)%Z by ring.
    rewrite pow2_sub, (pow2_Z (a + 1)), (pow2_Z b) by lia.
    apply Qlt_shift_div_l.
    - change 0 with (inject_Z 0). rewrite <- Zlt_Qlt. exact Hpb.
    - destruct q as [n d]. cbn [Qnum Qden] in *.
      unfold Qlt, Qmult, inject_Z. cbn [Qnum Qden].
      nia. }
  assert (Hlo : pow2 (a - b - 1) < q).
  { replace (a - b - 1)%Z with (a - (b + 1))%Z by ring.
    rewrite pow2_sub, (pow2_Z a), (pow2_Z (b + 1)) by lia.
    apply Qlt_shift_div_r.
    - change 0 with (inject_Z 0). rewrite <- Zlt_Qlt.
      apply Z.pow_pos_nonneg; lia.
    - destruct q as [n d]. cbn [Qnum Qden] in *.
      unfold Qlt, Qmult, inject_Z. cbn [Qnum Qden].
      nia. }
  destruct (Qle_bool (pow2 (a - b)) q) eqn:E.
  - apply Qle_bool_iff in E. split; assumption.
  - split.
    + apply Qlt_le_weak. exact Hlo.
    + replace (a - b - 1 + 1)%Z with (a - b)%Z by ring.
      apply Qnot_le_lt. intros H. apply Qle_bool_iff in H. congruence.
Qed.

Lemma ilog2_unique (q : Q) (e : Z) :
  pow2 e <= q -> q < pow2 (e + 1) -> 0 < q -> ilog2 q = e.
Proof.
  intros H1 H2 Hq. destruct (ilog2_spec q Hq) as [S1 S2].
  destruct (Z.lt_trichotomy (ilog2 q) e) as [H|[H|H]]; [|exact H|].
  - exfalso. assert (Hp := pow2_le (ilog2 q + 1) e ltac:(lia)). lra.
  - exfalso. assert (Hp := pow2_le (e + 1) (ilog2 q) ltac:(lia)). lra.
Qed.

Lemma ilog2_le (a b : Q) : 0 < a -> a <= b -> (ilog2 a <= ilog2 b)%Z.
Proof.
  intros Ha Hab. assert (Hb : 0 < b) by lra.
  destruct (ilog2_spec a Ha) as [A1 A2], (ilog2_spec b Hb) as [B1 B2].
  destruct (Z_le_gt_dec (ilog2 a) (ilog2 b)) as [H|H]; [exact H|].
  exfalso. assert (Hp := pow2_le (ilog2 b + 1) (ilog2 a) ltac:(lia)). lra.
Qed.

Lemma rne_cases (x : Q) :
  (rne x = Qfloor x /\ x - inject_Z (Qfloor x) <= 1 # 2) \/
  (rne x = (Qfloor x + 1)%Z /\ 1 # 2 <= x - inject_Z (Qfloor x)).
Proof.
  unfold rne.
  destruct (Qcompare_spec (x - inject_Z (Qfloor x)) (1 # 2)) as [E|E|E].
  - destruct (Z.even (Qfloor x)); [left | right]; split; auto; lra.
  - left. split; [reflexivity | lra].
  - right. split; [reflexivity | lra].
Qed.

Lemma floor_bounds (x : Q) :
  inject_Z (Qfloor x) <= x /\ x < inject_Z (Qfloor x + 1).
Proof. split; [apply Qfloor_le | apply Qlt_floor]. Qed.

Lemma rne_ge (x : Q) (n : Z) : inject_Z n <= x -> (n <= rne x)%Z.
Proof.
  intros H. assert (Hf : (n <= Qfloor x)%Z).
  { rewrite <- (Qfloor_Z n). now apply Qfloor_resp_le. }
  destruct (rne_cases x) as [[-> _]|[-> _]]; lia.
Qed.

Lemma rne_le (x : Q) (n : Z) : x <= inject_Z n -> (rne x <= n)%Z.
Proof.
  intros H. destruct (floor_bounds x) as [F1 F2].
  destruct (Z_le_gt_dec n (Qfloor x)) as [Hn|Hn].
  - assert (Hx : x == inject_Z n).
    { apply Qle_antisym; [exact H|].
      apply Qle_trans with (inject_Z (Qfloor x)); [|exact F1].
      now rewrite <- Zle_Qle. }
    assert (Hfl : Qfloor x = n).
    { rewrite <- (Qfloor_Z n). now apply Qfloor_comp. }
    destruct (rne_cases x) as [[-> _]|[_ Hc]]; [lia|].
    rewrite Hfl in Hc. lra.
  - destruct (rne_cases x) as [[-> _]|[-> _]]; lia.
Qed.

Lemma rne_Z (n : Z) : rne (inject_Z n) = n.
Proof.
  apply Z.le_antisymm; [apply rne_le | apply rne_ge]; apply Qle_refl.
Qed.

Lemma rne_mono (x y : Q) : x <= y -> (rne x <= rne y)%Z.
Proof.
  intros H. assert (Hf := Qfloor_resp_le x y H).
  destruct (floor_bounds x) as [X1 X2], (floor_bounds y) as [Y1 Y2].
  destruct (Z.eq_dec (Qfloor x) (Qfloor y)) as [E|E].
  - unfold rne. rewrite <- E.
    destruct (Qcompare_spec (x - inject_Z (Qfloor x)) (1 # 2)) as [Ex|Ex|Ex];
      destruct (Qcompare_spec (y - inject_Z (Qfloor x)) (1 # 2)) as [Ey|Ey|Ey];
      destruct (Z.even (Qfloor x)); try lia; lra.
  - destruct (rne_cases x) as [[-> _]|[-> _]],
             (rne_cases y) as [[-> _]|[-> _]]; lia.
Qed.

Lemma rne_comp (x y : Q) : x == y -> rne x = rne y.
Proof.
  intros H. apply Z.le_antisymm; apply rne_mono; rewrite H; apply Qle_refl.
Qed.

Lemma round_pos_eq (q : Q) :
  round_pos q = inject_Z (rne (q / pow2 (quantum q))) * pow2 (quantum q).
Proof. reflexivity. Qed.

Lemma scaled_le (q : Q) (k e : Z) :
  pow2 e <= q -> pow2 (e - k) <= q / pow2 k.
Proof.
  intros H. assert (Hk := pow2_pos k). rewrite pow2_sub.
  apply Qle_shift_div_l; [exact Hk|].
  assert (E : pow2 e / pow2 k * pow2 k == pow2 e) by (field; lra).
  rewrite E. exact H.
Qed.

Lemma scaled_lt (q : Q) (k e : Z) :
  q < pow2 e -> q / pow2 k < pow2 (e - k).
Proof.
  intros H. assert (Hk := pow2_pos k). rewrite pow2_sub.
  apply Qlt_shift_div_r; [exact Hk|].
  assert (E : pow2 e / pow2 k * pow2 k == pow2 e) by (field; lra).
  rewrite E. exact H.
Qed.

Lemma round_pos_nonneg (q : Q) : 0 < q -> 0 <= round_pos q.
Proof.
  intros Hq. rewrite round_pos_eq. assert (Hk := pow2_pos (quantum q)).
  apply Qmult_le_0_compat; [|lra].
  change 0 with (inject_Z 0). rewrite <- Zle_Qle. apply rne_ge.
  change (inject_Z 0) with 0. apply Qle_shift_div_l; [exact Hk|]. lra.
Qed.

Lemma round_pos_lower (q : Q) :
  0 < q -> (quantum q <= ilog2 q)%Z -> pow2 (ilog2 q) <= round_pos q.
Proof.
  intros Hq Hk. destruct (ilog2_spec q Hq) as [S1 _].
  rewrite round_pos_eq. set (k := quantum q) in *. set (e := ilog2 q) in *.
  assert (Hpk := pow2_pos k).
  assert (Hm : (2 ^ (e - k) <= rne (q / pow2 k))%Z).
  { apply rne_ge. rewrite <- pow2_Z by lia. now apply scaled_le. }
  rewrite Zle_Qle in Hm. rewrite <- pow2_Z in Hm by lia.
  apply Qle_trans with (pow2 (e - k) * pow2 k).
  - rewrite <- pow2_add. replace (e - k + k)%Z with e by ring. apply Qle_refl.
  - apply Qmult_le_compat_r; [exact Hm | lra].
Qed.

Lemma round_pos_upper (q : Q) (u : Z) :
  0 < q -> (ilog2 q + 1 <= u)%Z -> (quantum q <= u)%Z ->
  round_pos q <= pow2 u.
Proof.
  intros Hq Hu Hk. destruct (ilog2_spec q Hq) as [_ S2].
  rewrite round_pos_eq. set (k := quantum q) in *. set (e := ilog2 q) in *.
  assert (Hpk := pow2_pos k).
  assert (Hm : (rne (q / pow2 k) <= 2 ^ (u - k))%Z).
  { apply rne_le. rewrite <- pow2_Z by lia.
    apply Qlt_le_weak. apply scaled_lt.
    apply Qlt_le_trans with (pow2 (e + 1)); [exact S2|]. now apply pow2_le. }
  rewrite Zle_Qle in Hm. rewrite <- pow2_Z in Hm by lia.
  apply Qle_trans with (pow2 (u - k) * pow2 k).
  - apply Qmult_le_compat_r; [exact Hm | lra].
  - rewrite <- pow2_add. replace (u - k + k)%Z with u by ring. apply Qle_refl.
Qed.

Lemma round_pos_mono (a b : Q) :
  0 < a -> a <= b -> round_pos a <= round_pos b.
Proof.
  intros Ha Hab. assert (Hb : 0 < b) by lra.
  assert (He := ilog2_le a b Ha Hab).
  destruct (Z.eq_dec (quantum a) (quantum b)) as [E|E].
  - rewrite !round_pos_eq, E. assert (Hk := pow2_pos (quantum b)).
    apply Qmult_le_compat_r; [|lra]. rewrite <- Zle_Qle. apply rne_mono.
    apply Qmult_le_compat_r; [exact Hab|].
    apply Qlt_le_weak. now apply Qinv_lt_0_compat.
  - assert (Hq : (quantum a < quantum b)%Z) by (unfold quantum in *; lia).
    apply Qle_trans with (pow2 (ilog2 b)).
    + apply round_pos_upper; [exact Ha | |]; unfold quantum in *; lia.
    + apply round_pos_lower; [exact Hb|]. unfold quantum in *. lia.
Qed.

Lemma round64_opp (q : Q) : round64 (- q) == - round64 q.
Proof.
  destruct q as [[|p|p] d]; unfold round64; cbn [Qnum Qopp Z.opp].
  - reflexivity.
  - reflexivity.
  - now rewrite Qopp_involutive.
Qed.

Lemma round64_pos (q : Q) : 0 < q -> round64 q = round_pos q.
Proof.
  destruct q as [[|p|p] d]; unfold Qlt; cbn; intros H; try lia.
  reflexivity.
Qed.

Lemma round64_neg (q : Q) : q < 0 -> round64 q = - round_pos (- q).
Proof.
  destruct q as [[|p|p] d]; unfold Qlt; cbn; intros H; try lia.
  reflexivity.
Qed.

Lemma round64_zero (q : Q) : q == 0 -> round64 q = 0.
Proof.
  destruct q as [[|p|p] d]; unfold Qeq; cbn; intros H; try lia.
  reflexivity.
Qed.

Lemma Q_sign (q : Q) : q < 0 \/ q == 0 \/ 0 < q.
Proof. destruct (Q_dec q 0) as [[H|H]|H]; auto. Qed.

(** Rounding to float64 keeps the order. *)
Lemma round64_mono (a b : Q) : a <= b -> round64 a <= round64 b.
Proof.
  intros Hab.
  destruct (Q_sign a) as [Ha|[Ha|Ha]], (Q_sign b) as [Hb|[Hb|Hb]];
    try (exfalso; lra).
  - rewrite (round64_neg a Ha), (round64_neg b Hb).
    apply Qopp_le_compat. apply round_pos_mono; lra.
  - rewrite (round64_neg a Ha), (round64_zero b Hb).
    assert (H := round_pos_nonneg (- a) ltac:(lra)). lra.
  - rewrite (round64_neg a Ha), (round64_pos b Hb).
    assert (H1 := round_pos_nonneg (- a) ltac:(lra)).
    assert (H2 := round_pos_nonneg b Hb). lra.
  - rewrite (round64_zero a Ha), (round64_zero b Hb). apply Qle_refl.
  - rewrite (round64_zero a Ha), (round64_pos b Hb).
    now apply round_pos_nonneg.
  - rewrite (round64_pos a Ha), (round64_pos b Hb).
    now apply round_pos_mono.
Qed.

Lemma round64_comp (a b : Q) : a == b -> round64 a == round64 b.
Proof.
  intros H. apply Qle_antisym; apply round64_mono; rewrite H; apply Qle_refl.
Qed.

#[global] Instance round64_Proper : Proper (Qeq ==> Qeq) round64.
Proof. intros a b H. now apply round64_comp. Qed.

Lemma quantum_ge (q : Q) : (-1074 <= quantum q)%Z.
Proof. unfold quantum. lia. Qed.

Lemma round_pos_form (q : Q) :
  0 < q ->
  exists m, round_pos q = inject_Z m * pow2 (quantum q) /\
            (0 <= m <= 2 ^ 53)%Z.
Proof.
  intros Hq. exists (rne (q / pow2 (quantum q))). split; [reflexivity|].
  destruct (ilog2_spec q Hq) as [_ S2].
  assert (Hk := pow2_pos (quantum q)). split.
  - apply rne_ge. change (inject_Z 0) with 0.
    apply Qle_shift_div_l; [exact Hk | lra].
  - apply rne_le. rewrite <- pow2_Z by lia. apply Qlt_le_weak.
    apply Qlt_le_trans with (pow2 (ilog2 q + 1 - quantum q)).
    + now apply scaled_lt.
    + apply pow2_le. unfold quantum. lia.
Qed.

Lemma pow2_Z_mul (m : Z) (k j : Z) :
  (0 <= j)%Z -> inject_Z m * pow2 (k + j) == inject_Z (m * 2 ^ j) * pow2 k.
Proof.
  intros Hj. rewrite pow2_add, (pow2_Z j Hj), inject_Z_mult. ring.
Qed.

Lemma round_pos_fix (q : Q) (m k : Z) :
  0 < q -> q == inject_Z m * pow2 k -> (-1074 <= k)%Z -> (m <= 2 ^ 53)%Z ->
  round_pos q == q.
Proof.
  intros Hq E Hk Hm. destruct (ilog2_spec q Hq) as [S1 _].
  rewrite round_pos_eq. set (kq := quantum q).
  assert (Hpq := pow2_pos kq). assert (Hpk := pow2_pos k).
  assert (Hint : exists n, q == inject_Z n * pow2 kq).
  { destruct (Z_le_gt_dec kq k) as [Hle|Hgt].
    - exists (m * 2 ^ (k - kq))%Z. rewrite <- pow2_Z_mul by lia.
      replace (kq + (k - kq))%Z with k by ring. exact E.
    - assert (Hkq : kq = (ilog2 q - 52)%Z) by (unfold kq, quantum in *; lia).
      assert (Hek : (0 <= ilog2 q - k)%Z) by lia.
      assert (Hlow : (2 ^ (ilog2 q - k) <= m)%Z).
      { rewrite Zle_Qle, <- pow2_Z by lia.
        assert (H := scaled_le q k (ilog2 q) S1).
        assert (E' : q / pow2 k == inject_Z m) by (rewrite E; field; lra).
        now rewrite E' in H. }
      assert (H53 : (2 ^ 53 <= 2 ^ (ilog2 q - k))%Z)
        by (apply Z.pow_le_mono_r; lia).
      assert (Hm' : m = (2 ^ 53)%Z) by lia.
      assert (Hexp : (ilog2 q - k <= 53)%Z).
      { apply (Z.pow_le_mono_r_iff 2); lia. }
      assert (Hk1 : k = (kq - 1)%Z) by lia.
      exists (2 ^ 52)%Z. rewrite E, Hm', Hk1.
      replace kq with ((kq - 1) + 1)%Z at 2 by ring.
      rewrite (pow2_Z_mul (2 ^ 52) (kq - 1) 1) by lia. reflexivity. }
  destruct Hint as [n Hn].
  assert (En : q / pow2 kq == inject_Z n) by (rewrite Hn; field; lra).
  rewrite (rne_comp _ _ En), rne_Z. now rewrite Hn.
Qed.

Lemma is_float64_spec (q : Q) : is_float64 q = true <-> round64 q == q.
Proof. unfold is_float64. apply Qeq_bool_iff. Qed.

Lemma round64_fix (q : Q) (m k : Z) :
  q == inject_Z m * pow2 k -> (-1074 <= k)%Z -> (Z.abs m <= 2 ^ 53)%Z ->
  round64 q == q.
Proof.
  intros E Hk Hm. assert (Hp := pow2_pos k).
  destruct (Q_sign q) as [Hq|[Hq|Hq]].
  - rewrite (round64_neg q Hq).
    assert (H : round_pos (- q) == - q).
    { apply (round_pos_fix (- q) (- m) k); [lra | | exact Hk | lia].
      rewrite E, inject_Z_opp. ring. }
    rewrite H. ring.
  - rewrite (round64_zero q Hq). now symmetry.
  - rewrite (round64_pos q Hq).
    apply (round_pos_fix q m k); [exact Hq | exact E | exact Hk | lia].
Qed.

Lemma round64_form (q : Q) :
  exists m k, round64 q == inject_Z m * pow2 k /\
              (-1074 <= k)%Z /\ (Z.abs m <= 2 ^ 53)%Z.
Proof.
  destruct (Q_sign q) as [Hq|[Hq|Hq]].
  - destruct (round_pos_form (- q) ltac:(lra)) as [m [E Hm]].
    exists (- m)%Z, (quantum (- q)). rewrite (round64_neg q Hq), E.
    split; [rewrite inject_Z_opp; ring|]. split; [apply quantum_ge | lia].
  - exists 0%Z, 0%Z. rewrite (round64_zero q Hq).
    split; [reflexivity | split; lia].
  - destruct (round_pos_form q Hq) as [m [E Hm]].
    exists m, (quantum q). rewrite (round64_pos q Hq), E.
    split; [reflexivity|]. split; [apply quantum_ge | lia].
Qed.

(** Rounding twice is rounding once. *)
Lemma round64_idem (q : Q) : round64 (round64 q) == round64 q.
Proof.
  destruct (round64_form q) as [m [k [E [Hk Hm]]]].
  now apply (round64_fix _ m k).
Qed.

(** Twice a float64 value is a float64 value. *)
Lemma round64_double (q : Q) : round64 q == q -> round64 (2 * q) == 2 * q.
Proof.
  intros H. destruct (round64_form q) as [m [k [E [Hk Hm]]]].
  rewrite H in E. apply (round64_fix _ m (k + 1)); [|lia|exact Hm].
  rewrite E, pow2_add. change (pow2 1) with 2. ring.
Qed.

Lemma round64_between (lo hi x : Q) :
  round64 lo == lo -> round64 hi == hi -> lo <= x -> x <= hi ->
  lo <= round64 x /\ round64 x <= hi.
Proof.
  intros Hlo Hhi H1 H2. split.
  - rewrite <- Hlo. now apply round64_mono.
  - rewrite <- Hhi. now apply round64_mono.
Qed.

(** The float64 midpoint of two float64 values lies between them. *)
Lemma float_midpoint_between (lo hi : Q) :
  round64 lo == lo -> round64 hi == hi -> lo <= hi ->
  lo <= round64 (round64 (lo + hi) / 2) /\
  round64 (round64 (lo + hi) / 2) <= hi.
Proof.
  intros Hlo Hhi Hle.
  destruct (round64_between (2 * lo) (2 * hi) (lo + hi)
              (round64_double lo Hlo) (round64_double hi Hhi)
              ltac:(lra) ltac:(lra)) as [S1 S2].
  apply round64_between; auto.
  - apply Qle_shift_div_l; [reflexivity | lra].
  - apply Qle_shift_div_r; [reflexivity | lra].
Qed.

(** An integer up to 2^53 in magnitude is a float64 value. *)
Lemma round64_small_int (n : Z) :
  (Z.abs n <= 2 ^ 53)%Z -> round64 (inject_Z n) == inject_Z n.
Proof.
  intros H. apply (round64_fix _ n 0); [|lia|exact H].
  change (pow2 0) with 1. ring.
Qed.

Lemma is_float64_iff (q : Q) :
  round64 q == q <->
  exists m k, q == inject_Z m * pow2 k /\
              (-1074 <= k)%Z /\ (Z.abs m <= 2 ^ 53)%Z.
Proof.
  split.
  - intros H. destruct (round64_form q) as [m [k [E Hk]]].
    exists m, k. now rewrite <- H.
  - intros [m [k [E [Hk Hm]]]]. now apply (round64_fix q m k).
Qed.

(** The float64 values around a positive number: the multiples of its
    spacing just below and just above, with no float64 value in between. *)
Lemma float_gap (q f : Q) :
  0 < q -> round64 f == f ->
  let k := quantum q in
  let n := Qfloor (q / pow2 k) in
  f <= inject_Z n * pow2 k \/ inject_Z (n + 1) * pow2 k <= f.
Proof.
  intros Hq Hf k n. assert (Hk := pow2_pos k).
  destruct (ilog2_spec q Hq) as [S1 S2].
  destruct (floor_bounds (q / pow2 k)) as [F1 F2]. fold n in F1, F2.
  assert (Hn0 : (0 <= n)%Z).
  { rewrite <- (Qfloor_Z 0). apply Qfloor_resp_le.
    change (inject_Z 0) with 0.
    apply Qle_shift_div_l; [exact Hk | lra]. }
  destruct (Qlt_le_dec (inject_Z n * pow2 k) f) as [Hlo|Hlo]; [|now left].
  destruct (Qlt_le_dec f (inject_Z (n + 1) * pow2 k)) as [Hhi|Hhi];
    [|now right].
  exfalso.
  assert (Hfpos : 0 < f).
  { apply Qle_lt_trans with (inject_Z n * pow2 k); [|exact Hlo].
    apply Qmult_le_0_compat; [|lra].
    change 0 with (inject_Z 0). now rewrite <- Zle_Qle. }
  rewrite (round64_pos f Hfpos) in Hf.
  destruct (ilog2_spec f Hfpos) as [T1 T2].
  destruct (Z_le_gt_dec k (ilog2 q)) as [Hek|Hek].
  - (* the leading bit of q is at or above the spacing *)
    assert (Hn1 : (2 ^ (ilog2 q - k) <= n)%Z).
    { rewrite <- (Qfloor_Z (2 ^ (ilog2 q - k))). apply Qfloor_resp_le.
      rewrite <- pow2_Z by lia. now apply scaled_le. }
    assert (Hn2 : (n + 1 <= 2 ^ (ilog2 q + 1 - k))%Z).
    { assert (H : (n < 2 ^ (ilog2 q + 1 - k))%Z); [|lia].
      rewrite Zlt_Qlt. apply Qle_lt_trans with (q / pow2 k); [exact F1|].
      rewrite <- pow2_Z by lia. now apply scaled_lt. }
    assert (Hfe : ilog2 f = ilog2 q).
    { apply ilog2_unique; [| |exact Hfpos].
      - apply Qle_trans with (inject_Z n * pow2 k); [|lra].
        apply Qle_trans with (pow2 (ilog2 q - k) * pow2 k).
        + rewrite <- pow2_add.
          replace (ilog2 q - k + k)%Z with (ilog2 q) by ring. apply Qle_refl.
        + apply Qmult_le_compat_r; [|lra].
          rewrite pow2_Z by lia. now rewrite <- Zle_Qle.
      - apply Qlt_le_trans with (inject_Z (n + 1) * pow2 k); [exact Hhi|].
        apply Qle_trans with (pow2 (ilog2 q + 1 - k) * pow2 k).
        + apply Qmult_le_compat_r; [|lra].
          rewrite pow2_Z by lia. now rewrite <- Zle_Qle.
        + rewrite <- pow2_add.
          replace (ilog2 q + 1 - k + k)%Z with (ilog2 q + 1)%Z by ring.
          apply Qle_refl. }
    assert (Hkf : quantum f = k) by (unfold k, quantum; now rewrite Hfe).
    rewrite round_pos_eq, Hkf in Hf.
    set (m := rne (f / pow2 k)) in Hf.
    assert (H1 : (n < m)%Z).
    { rewrite Zlt_Qlt. apply (Qmult_lt_r _ _ (pow2 k) Hk). lra. }
    assert (H2 : (m < n + 1)%Z).
    { rewrite Zlt_Qlt. apply (Qmult_lt_r _ _ (pow2 k) Hk). lra. }
    lia.
  - (* q lies below the least positive float64 value *)
    assert (Hk' : k = (-1074)%Z) by (unfold k, quantum in *; lia).
    assert (Hn : n = 0%Z).
    { assert (H : (n < 1)%Z); [|lia].
      rewrite Zlt_Qlt. apply Qle_lt_trans with (q / pow2 k); [exact F1|].
      apply Qlt_shift_div_r; [exact Hk|]. rewrite Qmult_1_l.
      apply Qlt_le_trans with (pow2 (ilog2 q + 1)); [exact S2|].
      apply pow2_le. lia. }
    rewrite Hn in Hhi, Hlo. cbn [Z.add] in Hhi.
    assert (Hkf : quantum f = k).
    { unfold quantum. rewrite Hk'.
      assert (H : (ilog2 f < k)%Z); [|lia].
      destruct (Z_lt_ge_dec (ilog2 f) k) as [H|H]; [exact H|].
      exfalso. assert (Hp := pow2_le k (ilog2 f) ltac:(lia)).
      change (inject_Z 1) with 1 in Hhi. lra. }
    rewrite round_pos_eq, Hkf in Hf.
    set (m := rne (f / pow2 k)) in Hf.
    assert (H1 : (0 < m)%Z).
    { rewrite Zlt_Qlt. apply (Qmult_lt_r _ _ (pow2 k) Hk). lra. }
    assert (H2 : (m < 1)%Z).
    { rewrite Zlt_Qlt. apply (Qmult_lt_r _ _ (pow2 k) Hk). lra. }
    lia.
Qed.

Lemma round_pos_nearest (q f : Q) :
  0 < q -> round64 f == f -> Qabs (round_pos q - q) <= Qabs (f - q).
Proof.
  intros Hq Hf. assert (Hgap := float_gap q f Hq Hf). cbv zeta in Hgap.
  rewrite round_pos_eq. set (k := quantum q) in *.
  set (n := Qfloor (q / pow2 k)) in *. assert (Hk := pow2_pos k).
  destruct (floor_bounds (q / pow2 k)) as [F1 F2]. fold n in F1, F2.
  assert (Hx : q / pow2 k * pow2 k == q) by (field; lra).
  assert (T1 : inject_Z n * pow2 k <= q).
  { rewrite <- Hx. apply Qmult_le_compat_r; [exact F1 | lra]. }
  assert (Hsucc : inject_Z (n + 1) * pow2 k == inject_Z n * pow2 k + pow2 k).
  { rewrite inject_Z_plus. change (inject_Z 1) with 1. ring. }
  assert (T2 : q < inject_Z n * pow2 k + pow2 k).
  { rewrite <- Hsucc, <- Hx. apply Qmult_lt_compat_r; [exact Hk | exact F2]. }
  rewrite Hsucc in Hgap.
  destruct (rne_cases (q / pow2 k)) as [[-> Hc]|[-> Hc]]; fold n in Hc |- *.
  - assert (T3 : q - inject_Z n * pow2 k <= pow2 k * (1 # 2)).
    { assert (H : (q / pow2 k - inject_Z n) * pow2 k <= (1 # 2) * pow2 k)
        by (apply Qmult_le_compat_r; [exact Hc | lra]).
      rewrite <- Hx at 1. lra. }
    apply Qabs_case; intros H1; apply Qabs_case; intros H2; lra.
  - rewrite Hsucc.
    assert (T3 : pow2 k * (1 # 2) <= q - inject_Z n * pow2 k).
    { assert (H : (1 # 2) * pow2 k <= (q / pow2 k - inject_Z n) * pow2 k)
        by (apply Qmult_le_compat_r; [exact Hc | lra]).
      rewrite <- Hx at 1. lra. }
    apply Qabs_case; intros H1; apply Qabs_case; intros H2; lra.
Qed.

(** The conversion gives a nearest float64 value. *)
Lemma round64_nearest (q f : Q) :
  round64 f == f -> Qabs (round64 q - q) <= Qabs (f - q).
Proof.
  intros Hf. destruct (Q_sign q) as [Hq|[Hq|Hq]].
  - rewrite (round64_neg q Hq).
    assert (Hf' : round64 (- f) == - f) by (rewrite round64_opp; now rewrite Hf).
    assert (H := round_pos_nearest (- q) (- f) ltac:(lra) Hf').
    assert (E1 : - round_pos (- q) - q == - (round_pos (- q) - - q)) by ring.
    assert (E2 : f - q == - (- f - - q)) by ring.
    now rewrite E1, E2, !Qabs_opp.
  - rewrite (round64_zero q Hq).
    assert (E : 0 - q == 0) by (rewrite Hq; ring).
    rewrite E. apply Qabs_nonneg.
  - rewrite (round64_pos q Hq). now apply round_pos_nearest.
Qed.

(** ** The store *)

Lemma nth_of_nth_error (h : store) (r : ref) (d : DataFrame) :
  nth_error h r = Some d -> nth r h empty_frame = d.
Proof.
  revert r; induction h as [|x h IH]; intros [|r] H; simpl in *;
    try discriminate.
  - now inversion H.
  - now apply IH.
Qed.

Lemma nth_error_extend (h l : store) (r : ref) (d : DataFrame) :
  nth_error h r = Some d -> nth_error (h ++ l) r = Some d.
Proof.
  intros H. rewrite nth_error_app1; [exact H|].
  apply nth_error_Some. now rewrite H.
Qed.

Lemma nth_fresh (h l : store) (d : DataFrame) :
  nth (List.length h) (h ++ d :: l) empty_frame = d.
Proof. induction h; simpl; auto. Qed.

Lemma update_fresh (h l : store) (d d' : DataFrame) :
  update (h ++ d :: l) (List.length h) d' = h ++ d' :: l.
Proof. induction h; simpl; [reflexivity | now rewrite IHh]. Qed.

Lemma extends_refl (h : store) : extends h h.
Proof. exists []. now rewrite app_nil_r. Qed.

Lemma extends_trans (h1 h2 h3 : store) :
  extends h1 h2 -> extends h2 h3 -> extends h1 h3.
Proof. intros [l1 ->] [l2 ->]. exists (l1 ++ l2). now rewrite app_assoc. Qed.

Lemma extends_app (h l : store) : extends h (h ++ l).
Proof. now exists l. Qed.

Lemma extends_lookup (h h' : store) (r : ref) (d : DataFrame) :
  extends h h' -> nth_error h r = Some d -> nth_error h' r = Some d.
Proof. intros [l ->]. apply nth_error_extend. Qed.

Create HintDb store.
#[local] Hint Resolve extends_refl extends_app : store.

Ltac run_ops :=
  cbv beta iota delta [bind col frame_columns mask_index copy set_column
    px_pie px_scatter deref assign alloc lift ret raise].

Ltac norm_store :=
  cbn [fst snd]; repeat (rewrite nth_fresh || rewrite update_fresh).

Ltac split_runs :=
  norm_store;
  repeat (match goal with
    | |- context [match getitem ?d ?n with _ => _ end] =>
        destruct (getitem d n) eqn:?
    | |- context [match px_column ?d ?n with _ => _ end] =>
        destruct (px_column d n) eqn:?
    | |- context [match series_cmp ?f ?s with _ => _ end] =>
        destruct (series_cmp f s) eqn:?
    end; cbv beta iota; norm_store).

Ltac close_extends := simpl; rewrite <- ?app_assoc; auto with store.

Lemma get_pie_chart_extends (g : globals) (site : string) (h : store) :
  extends h (snd (get_pie_chart g site h)).
Proof.
  unfold get_pie_chart. destruct (String.eqb site "ALL");
    run_ops; split_runs; close_extends.
Qed.

Lemma update_scatter_extends (g : globals) (site : string)
  (range : pyfloat * pyfloat) (h : store) :
  extends h (snd (update_scatter g site range h)).
Proof.
  unfold update_scatter. destruct range as [low high].
  destruct (negb (String.eqb site "ALL"));
    run_ops; split_runs; close_extends.
Qed.

(** ** Cells, masks and columns *)

Lemma getitem_field (df : DataFrame) (name : string) :
  has_column name (columns df) = true ->
  getitem df name = Ok (map (field df name) (rows df)).
Proof.
  unfold has_column, getitem, field.
  destruct (index_of name (columns df)); [reflexivity | discriminate].
Qed.

Lemma getitem_missing (df : DataFrame) (name : string) :
  has_column name (columns df) = false ->
  getitem df name = Err (KeyError name).
Proof.
  unfold has_column, getitem.
  destruct (index_of name (columns df)); [discriminate | reflexivity].
Qed.

Lemma px_column_field (df : DataFrame) (name : string) :
  has_column name (columns df) = true ->
  px_column df name = Ok (map (field df name) (rows df)).
Proof.
  unfold has_column, px_column, field.
  destruct (index_of name (columns df)); [reflexivity | discriminate].
Qed.

Lemma field_boolean_index (df : DataFrame) (mask : list bool) (name : string) :
  field (boolean_index df mask) name = field df name.
Proof. reflexivity. Qed.

Lemma select_map (p : list cell -> bool) (rs : list (list cell)) :
  select rs (map p rs) = filter p rs.
Proof.
  induction rs as [|r rs IH]; simpl; [reflexivity|].
  rewrite IH. reflexivity.
Qed.

Lemma cell_eqb_refl (c : cell) : cell_eqb c c = true.
Proof.
  destruct c; simpl; auto using String.eqb_refl, Qeq_bool_refl.
Qed.

Lemma cell_eqb_sym (a b : cell) : cell_eqb a b = cell_eqb b a.
Proof.
  destruct a, b; simpl; auto using String.eqb_sym, Qeq_bool_sym.
  apply eq_true_iff_eq. rewrite !Qeq_bool_iff. split; intros H; now symmetry.
Qed.

Lemma cell_eqb_trans (a b c : cell) :
  cell_eqb a b = true -> cell_eqb b c = true -> cell_eqb a c = true.
Proof.
  destruct a, b, c; simpl; try discriminate; auto.
  - rewrite !String.eqb_eq. congruence.
  - apply Qeq_bool_trans.
Qed.

Lemma eq_str_cell_eqb (s : string) (c : cell) :
  eq_str s c = cell_eqb (CStr s) c.
Proof. destruct c; simpl; auto using String.eqb_sym. Qed.

Lemma count_cell_map_filter (s : string) (f : list cell -> cell)
  (p : list cell -> bool) (rs : list (list cell)) :
  count_cell (CStr s) (map f (filter p rs)) =
  List.length (filter (fun r => eq_str s (f r) && p r) rs).
Proof.
  unfold count_cell. induction rs as [|r rs IH]; [reflexivity|].
  cbn [filter map]. rewrite eq_str_cell_eqb.
  destruct (p r); cbn [filter map].
  - destruct (cell_eqb (CStr s) (f r)); cbn [andb List.length];
      now rewrite IH.
  - rewrite andb_false_r. exact IH.
Qed.

(** ** The pie chart over all sites *)

Lemma pie_all_run (g : globals) (h : store) (df : DataFrame) :
  nth_error h (spacex_df g) = Some df ->
  has_column "class" (columns df) = true ->
  has_column (site_col g) (columns df) = true ->
  fst (get_pie_chart g "ALL" h) =
  Ok {| pie_names :=
          map (field df (site_col g))
            (filter (fun r => eq_num 1 (field df "class" r)) (rows df));
        pie_values := None;
        pie_title := "Total Successful Launches by Site" |}.
Proof.
  intros Hdf Hclass Hsite.
  unfold get_pie_chart. rewrite String.eqb_refl. run_ops.
  rewrite (nth_of_nth_error _ _ _ Hdf), (getitem_field _ _ Hclass).
  cbv beta iota. norm_store.
  rewrite (px_column_field (boolean_index df _) _ Hsite).
  cbn [fst rows boolean_index].
  rewrite map_map, select_map. reflexivity.
Qed.

(** C1.  With "ALL" selected the pie chart is built from the rows whose
    outcome flag equals 1: one label per such row, taken from the site
    column, under the title "Total Successful Launches by Site".  Hence for
    every site the slice carrying its name has as size the number of rows
    with that site and outcome 1, and a site is drawn exactly when it has
    such a row. *)
Theorem get_pie_chart_all_counts_successes :
  forall (g : globals) (h : store) (df : DataFrame),
    nth_error h (spacex_df g) = Some df ->
    has_column "class" (columns df) = true ->
    has_column (site_col g) (columns df) = true ->
    exists fig,
      fst (get_pie_chart g "ALL" h) = Ok fig /\
      pie_title fig = "Total Successful Launches by Site" /\
      pie_names fig =
        map (field df (site_col g))
          (filter (fun r => eq_num 1 (field df "class" r)) (rows df)) /\
      forall site : string,
        slice_size fig (CStr site) =
          inject_Z (Z.of_nat (List.length
            (filter (fun r => eq_str site (field df (site_col g) r)
                              && eq_num 1 (field df "class" r)) (rows df))))
        /\ (In (CStr site) (pie_names fig) <->
            exists r, In r (rows df) /\
                      field df (site_col g) r = CStr site /\
                      eq_num 1 (field df "class" r) = true).
Proof.
  intros g h df Hdf Hclass Hsite.
  eexists. split; [apply (pie_all_run g h df Hdf Hclass Hsite)|].
  cbn [pie_title pie_names]. split; [reflexivity|]. split; [reflexivity|].
  intros site. split.
  - unfold slice_size. cbn [pie_values pie_names].
    now rewrite count_cell_map_filter.
  - rewrite in_map_iff. split.
    + intros [r [Hr Hin]]. apply filter_In in Hin. destruct Hin as [Hin Hc].
      now exists r.
    + intros [r [Hin [Hs Hc]]]. exists r. split; [exact Hs|].
      apply filter_In. now split.
Qed.

(** ** Counting values *)

Lemma total_insert_desc (x : cell * nat) (l : list (cell * nat))
  (p : cell -> bool) :
  total (insert_desc x l) p = total (x :: l) p.
Proof.
  induction l as [|y l IH]; [reflexivity|].
  cbn [insert_desc]. destruct (Nat.leb (snd y) (snd x)); [reflexivity|].
  cbn [total] in *. rewrite IH. lia.
Qed.

Lemma total_sort_desc (l : list (cell * nat)) (p : cell -> bool) :
  total (sort_desc l) p = total l p.
Proof.
  induction l as [|x l IH]; [reflexivity|].
  unfold sort_desc in *. cbn [fold_right].
  rewrite total_insert_desc. cbn [total]. now rewrite IH.
Qed.

Lemma In_insert_desc (x y : cell * nat) (l : list (cell * nat)) :
  In y (insert_desc x l) <-> y = x \/ In y l.
Proof.
  induction l as [|z l IH]; cbn [insert_desc].
  - simpl. intuition.
  - destruct (Nat.leb (snd z) (snd x)); simpl in *; intuition.
Qed.

Lemma In_sort_desc (y : cell * nat) (l : list (cell * nat)) :
  In y (sort_desc l) <-> In y l.
Proof.
  induction l as [|x l IH]; [reflexivity|].
  unfold sort_desc in *. cbn [fold_right].
  rewrite In_insert_desc, IH. simpl. intuition.
Qed.



Lemma total_counts_cons (u s : list cell) (x : cell) (p : cell -> bool) :
  total (map (fun v => (v, count_cell v (x :: s))) u) p =
  (total (map (fun v => (v, count_cell v s)) u) p + hits u p x)%nat.
Proof.
  unfold hits. induction u as [|v u IH]; [reflexivity|].
  cbn [map total fst snd filter]. rewrite IH.
  unfold count_cell at 1. cbn [filter].
  destruct (p v), (cell_eqb v x); cbn [andb List.length];
    fold (count_cell v s); lia.
Qed.

Lemma filter_twice {A : Type} (f g : A -> bool) (l : list A) :
  filter g (filter f l) = filter (fun v => f v && g v) l.
Proof.
  induction l as [|a l IH]; [reflexivity|].
  cbn [filter]. destruct (f a); cbn [filter andb]; now rewrite IH.
Qed.

Lemma filter_none {A : Type} (f : A -> bool) (l : list A) :
  (forall a, f a = false) -> filter f l = [].
Proof.
  intros H. induction l as [|a l IH]; [reflexivity|].
  cbn [filter]. now rewrite H.
Qed.

Lemma unique_no_repeat (s : list cell) (x : cell) :
  List.length (filter (fun v => cell_eqb v x) (unique s)) =
  if existsb (fun y => cell_eqb y x) s then 1%nat else 0%nat.
Proof.
  induction s as [|c t IH]; [reflexivity|].
  cbn [unique filter existsb].
  destruct (cell_eqb c x) eqn:Hc; cbn [orb List.length].
  - rewrite filter_twice, filter_none; [reflexivity|].
    intros v. destruct (cell_eqb v x) eqn:Hv; [|apply andb_false_r].
    rewrite andb_true_r. apply negb_false_iff.
    apply cell_eqb_trans with x; [exact Hc | now rewrite cell_eqb_sym].
  - rewrite filter_twice. rewrite <- IH. f_equal. apply filter_ext.
    intros v. destruct (cell_eqb v x) eqn:Hv; [|apply andb_false_r].
    rewrite andb_true_r. apply negb_true_iff.
    destruct (cell_eqb c v) eqn:Hcv; [|reflexivity].
    rewrite <- Hc. symmetry. now apply cell_eqb_trans with v.
Qed.

Lemma hits_unique (s : list cell) (p : cell -> bool) (x : cell) :
  respects p ->
  existsb (fun y => cell_eqb y x) s = true ->
  hits (unique s) p x = if p x then 1%nat else 0%nat.
Proof.
  intros Hp Hx. unfold hits.
  destruct (p x) eqn:Hpx.
  - transitivity (List.length (filter (fun v => cell_eqb v x) (unique s))).
    + f_equal. apply filter_ext. intros v.
      destruct (cell_eqb v x) eqn:Hv; [|apply andb_false_r].
      rewrite andb_true_r. rewrite (Hp v x Hv). exact Hpx.
    + now rewrite unique_no_repeat, Hx.
  - rewrite filter_none; [reflexivity|]. intros v.
    destruct (cell_eqb v x) eqn:Hv; [|apply andb_false_r].
    rewrite (Hp v x Hv), Hpx. reflexivity.
Qed.

Lemma total_counts_nil (u : list cell) (p : cell -> bool) :
  total (map (fun v => (v, count_cell v [])) u) p = O.
Proof.
  induction u as [|v u IH]; [reflexivity|].
  cbn [map total fst snd]. rewrite IH. now destruct (p v).
Qed.

Lemma total_unique (s s2 : list cell) (p : cell -> bool) :
  respects p ->
  (forall x, In x s2 -> existsb (fun y => cell_eqb y x) s = true) ->
  total (map (fun v => (v, count_cell v s2)) (unique s)) p =
  List.length (filter p s2).
Proof.
  intros Hp. induction s2 as [|x s2 IH]; intros Hin.
  - apply total_counts_nil.
  - rewrite total_counts_cons, IH by (intros y Hy; apply Hin; now right).
    rewrite hits_unique by (auto; apply Hin; now left).
    cbn [filter]. destruct (p x); simpl; lia.
Qed.

Lemma existsb_self (s : list cell) (x : cell) :
  In x s -> existsb (fun y => cell_eqb y x) s = true.
Proof.
  intros H. apply existsb_exists. exists x. split; [exact H|].
  apply cell_eqb_refl.
Qed.

Lemma In_unique (s : list cell) (v : cell) : In v (unique s) -> In v s.
Proof.
  revert v. induction s as [|c t IH]; intros v; [auto|].
  cbn [unique]. intros [->|H]; [now left|].
  right. apply IH. now apply filter_In in H.
Qed.

(** The counts of [value_counts] for the keys passing a test add up to the
    number of present cells passing it. *)
Lemma value_counts_total (s : list cell) (p : cell -> bool) :
  respects p ->
  total (value_counts s) p =
  List.length (filter p (filter (fun c => negb (is_nan c)) s)).
Proof.
  intros Hp. unfold value_counts.
  rewrite total_sort_desc. apply total_unique; [exact Hp|].
  intros x. apply existsb_self.
Qed.

Lemma value_counts_keys (s : list cell) (e : cell * nat) :
  In e (value_counts s) -> In (fst e) s.
Proof.
  unfold value_counts. rewrite In_sort_desc, in_map_iff.
  intros [v [<- Hv]]. apply In_unique in Hv.
  apply filter_In in Hv. apply Hv.
Qed.

Lemma length_filter_insert_desc (q : cell * nat -> bool) (x : cell * nat)
  (l : list (cell * nat)) :
  List.length (filter q (insert_desc x l)) =
  List.length (filter q (x :: l)).
Proof.
  induction l as [|y l IH]; [reflexivity|].
  cbn [insert_desc]. destruct (Nat.leb (snd y) (snd x)); [reflexivity|].
  cbn [filter] in *. destruct (q y), (q x); cbn [List.length] in *; lia.
Qed.

Lemma length_filter_sort_desc (q : cell * nat -> bool)
  (l : list (cell * nat)) :
  List.length (filter q (sort_desc l)) = List.length (filter q l).
Proof.
  induction l as [|x l IH]; [reflexivity|].
  unfold sort_desc in *. cbn [fold_right].
  rewrite length_filter_insert_desc. cbn [filter].
  destruct (q x); cbn [List.length]; now rewrite IH.
Qed.

Lemma length_filter_and {A : Type} (f g : A -> bool) (l : list A) :
  (List.length (filter (fun v => f v && g v) l)
   <= List.length (filter g l))%nat.
Proof.
  induction l as [|a l IH]; [simpl; lia|].
  cbn [filter]. destruct (f a), (g a); cbn [andb List.length]; lia.
Qed.

(** A test that only equal keys pass selects at most one entry of
    [unique]. *)
Lemma unique_at_most_one (s : list cell) (p : cell -> bool) :
  (forall a b, p a = true -> p b = true -> cell_eqb a b = true) ->
  (List.length (filter p (unique s)) <= 1)%nat.
Proof.
  intros Hp. destruct (filter p (unique s)) as [|x l] eqn:E; [simpl; lia|].
  assert (Hx : p x = true).
  { assert (H : In x (filter p (unique s))) by (rewrite E; now left).
    apply filter_In in H. apply H. }
  rewrite <- E.
  replace (filter p (unique s))
    with (filter (fun v => p v && cell_eqb v x) (unique s)).
  - eapply Nat.le_trans; [apply length_filter_and|].
    rewrite unique_no_repeat. destruct (existsb _ s); lia.
  - apply filter_ext. intros v. destruct (p v) eqn:Hv; [|reflexivity].
    cbn [andb]. now apply Hp.
Qed.

Lemma value_counts_at_most_one (s : list cell) (p : cell -> bool) :
  (forall a b, p a = true -> p b = true -> cell_eqb a b = true) ->
  (List.length (filter (fun e => p (fst e)) (value_counts s)) <= 1)%nat.
Proof.
  intros Hp. unfold value_counts. rewrite length_filter_sort_desc.
  set (present := filter (fun c => negb (is_nan c)) s).
  eapply Nat.le_trans; [|apply (unique_at_most_one present p Hp)].
  generalize (unique present) as u. intros u.
  apply Nat.eq_le_incl.
  induction u as [|v u IH]; [reflexivity|].
  cbn [map filter fst]. destruct (p v); cbn [List.length]; now rewrite IH.
Qed.

(** ** The pie chart of one site *)

Lemma eq_num_respects (n : Q) : respects (eq_num n).
Proof.
  intros a b H. destruct a, b; simpl in *; try discriminate; auto.
  apply eq_true_iff_eq. rewrite !Qeq_bool_iff.
  apply Qeq_bool_iff in H. now rewrite H.
Qed.

Lemma not_both_flags (q : Q) :
  Qeq_bool q 1 = true -> Qeq_bool q 0 = false.
Proof.
  intros H1. destruct (Qeq_bool q 0) eqn:H0; [|reflexivity].
  apply Qeq_bool_iff in H1, H0. rewrite H0 in H1. discriminate.
Qed.

Lemma success_label_spec (c : cell) :
  cell_eqb success_label (outcome_label c) = eq_num 1 c.
Proof.
  destruct c as [s|q|]; try reflexivity. cbn [outcome_label eq_num].
  destruct (Qeq_bool q 1); [reflexivity|].
  destruct (Qeq_bool q 0); reflexivity.
Qed.

Lemma failure_label_spec (c : cell) :
  cell_eqb failure_label (outcome_label c) = eq_num 0 c.
Proof.
  destruct c as [s|q|]; try reflexivity. cbn [outcome_label eq_num].
  destruct (Qeq_bool q 1) eqn:H1.
  - now rewrite (not_both_flags q H1).
  - destruct (Qeq_bool q 0); reflexivity.
Qed.

Lemma outcome_label_flag (c : cell) :
  is_flag c = true ->
  outcome_label c = success_label \/ outcome_label c = failure_label.
Proof.
  unfold is_flag. destruct c as [s|q|]; try discriminate.
  cbn [eq_num outcome_label]. destruct (Qeq_bool q 1); [now left|].
  destruct (Qeq_bool q 0); [now right | discriminate].
Qed.

Lemma sum_values_total (label : cell) (vc : list (cell * nat)) :
  sum_values label (map (fun e => outcome_label (fst e)) vc)
    (map (fun e => num_of_nat (snd e)) vc) ==
  inject_Z (Z.of_nat (total vc (fun v => cell_eqb label (outcome_label v)))).
Proof.
  induction vc as [|e vc IH]; [reflexivity|].
  cbn [map sum_values total]. rewrite IH, Nat2Z.inj_add, inject_Z_plus.
  destruct (cell_eqb label (outcome_label (fst e))); reflexivity.
Qed.

Lemma relabel_outcomes (vc : list (cell * nat)) :
  setitem (reset_index "Outcome" "Count" vc) "Outcome"
    (map outcome_label
       (map (cell_at 0) (rows (reset_index "Outcome" "Count" vc)))) =
  {| columns := ["Outcome"; "Count"];
     rows := map (fun e => [outcome_label (fst e); num_of_nat (snd e)]) vc |}.
Proof.
  unfold setitem, reset_index. cbn [columns rows].
  change (index_of "Outcome" ["Outcome"; "Count"]) with (Some 0%nat).
  cbv beta iota. f_equal.
  induction vc as [|e vc IH]; [reflexivity|].
  cbn [map zip_rows]. rewrite IH. reflexivity.
Qed.

Lemma getitem_outcome (vc : list (cell * nat)) :
  getitem (reset_index "Outcome" "Count" vc) "Outcome" =
  Ok (map (cell_at 0) (rows (reset_index "Outcome" "Count" vc))).
Proof. reflexivity. Qed.

Lemma px_column_counts (rs : list (list cell)) :
  px_column {| columns := ["Outcome"; "Count"]; rows := rs |} "Outcome" =
    Ok (map (cell_at 0) rs) /\
  px_column {| columns := ["Outcome"; "Count"]; rows := rs |} "Count" =
    Ok (map (cell_at 1) rs).
Proof. split; reflexivity. Qed.

Lemma pie_site_run (g : globals) (h : store) (df : DataFrame)
  (site : string) :
  String.eqb site "ALL" = false ->
  nth_error h (spacex_df g) = Some df ->
  has_column "class" (columns df) = true ->
  has_column (site_col g) (columns df) = true ->
  let vc := value_counts (map (field df "class") (rows_of_site g df site)) in
  fst (get_pie_chart g site h) =
  Ok {| pie_names := map (fun e => outcome_label (fst e)) vc;
        pie_values := Some (map (fun e => num_of_nat (snd e)) vc);
        pie_title := String.append "Launch Outcomes for " site |}.
Proof.
  intros Hsel Hdf Hclass Hsite vc.
  unfold get_pie_chart. rewrite Hsel. run_ops.
  rewrite (nth_of_nth_error _ _ _ Hdf), (getitem_field _ _ Hsite).
  cbv beta iota. norm_store.
  rewrite (getitem_field (boolean_index df _) _ Hclass).
  cbv beta iota. norm_store.
  cbn [rows boolean_index]. rewrite map_map, select_map.
  rewrite field_boolean_index. fold (rows_of_site g df site). fold vc.
  rewrite getitem_outcome. cbv beta iota. norm_store.
  rewrite relabel_outcomes.
  rewrite (proj1 (px_column_counts _)), (proj2 (px_column_counts _)).
  cbn [fst rows]. now rewrite !map_map.
Qed.

Lemma length_filter_map {A B : Type} (f : A -> B) (p : B -> bool)
  (l : list A) :
  List.length (filter p (map f l)) =
  List.length (filter (fun a => p (f a)) l).
Proof.
  induction l as [|a l IH]; [reflexivity|].
  cbn [map filter]. destruct (p (f a)); cbn [List.length]; now rewrite IH.
Qed.

Lemma filter_all {A : Type} (p : A -> bool) (l : list A) :
  (forall a, In a l -> p a = true) -> filter p l = l.
Proof.
  induction l as [|a l IH]; intros H; [reflexivity|].
  cbn [filter]. rewrite (H a) by now left.
  f_equal. apply IH. intros b Hb. apply H. now right.
Qed.

Lemma flag_not_nan (c : cell) : is_flag c = true -> negb (is_nan c) = true.
Proof. destruct c; auto. Qed.

Lemma flags_split (f : list cell -> cell) (rs : list (list cell)) :
  (forall r, In r rs -> is_flag (f r) = true) ->
  (List.length (filter (fun r => eq_num 1 (f r)) rs)
   + List.length (filter (fun r => eq_num 0 (f r)) rs))%nat =
  List.length rs.
Proof.
  induction rs as [|r rs IH]; intros H; [reflexivity|].
  cbn [filter]. specialize (IH (fun r' Hr => H r' (or_intror Hr))).
  assert (Hr := H r (or_introl eq_refl)). unfold is_flag in Hr.
  destruct (f r) as [s|q|]; try discriminate. cbn [eq_num] in *.
  destruct (Qeq_bool q 1) eqn:H1.
  - rewrite (not_both_flags q H1). cbn [List.length]. lia.
  - rewrite orb_false_r in Hr. rewrite Hr. cbn [List.length]. lia.
Qed.

Lemma same_flag_same_key (n : Q) (a b : cell) :
  eq_num n a = true -> eq_num n b = true -> cell_eqb a b = true.
Proof.
  destruct a, b; simpl; try discriminate.
  rewrite !Qeq_bool_iff. intros Ha Hb. now rewrite Ha, Hb.
Qed.

(** C2.  For a table whose outcome flags are all 0 or 1 and a selected site
    other than "ALL", the pie chart counts the outcomes of the rows of that
    site: its labels are "Success (1)" (for 1) and "Failure (0)" (for 0),
    each at most once; the slice of a label has as size the number of rows
    of the site with that outcome; the two sizes add up to the number of
    rows of the site; and the title is "Launch Outcomes for " followed by
    the site. *)
Theorem get_pie_chart_site_two_buckets :
  forall (g : globals) (h : store) (df : DataFrame) (site : string),
    site <> "ALL" ->
    nth_error h (spacex_df g) = Some df ->
    has_column "class" (columns df) = true ->
    has_column (site_col g) (columns df) = true ->
    binary_outcomes df ->
    exists fig,
      fst (get_pie_chart g site h) = Ok fig /\
      pie_title fig = String.append "Launch Outcomes for " site /\
      (forall l, In l (pie_names fig) ->
                 l = success_label \/ l = failure_label) /\
      (count_cell success_label (pie_names fig) <= 1)%nat /\
      (count_cell failure_label (pie_names fig) <= 1)%nat /\
      slice_size fig success_label ==
        inject_Z (Z.of_nat (List.length
          (filter (fun r => eq_num 1 (field df "class" r))
             (rows_of_site g df site)))) /\
      slice_size fig failure_label ==
        inject_Z (Z.of_nat (List.length
          (filter (fun r => eq_num 0 (field df "class" r))
             (rows_of_site g df site)))) /\
      slice_size fig success_label + slice_size fig failure_label ==
        inject_Z (Z.of_nat (List.length (rows_of_site g df site))).
Proof.
  intros g h df site Hsel Hdf Hclass Hsite Hflags.
  unfold binary_outcomes in Hflags. rewrite forallb_forall in Hflags.
  apply String.eqb_neq in Hsel.
  eexists. split; [apply (pie_site_run g h df site Hsel Hdf Hclass Hsite)|].
  set (rs := rows_of_site g df site).
  set (cls := map (field df "class") rs).
  assert (Hrs : forall r, In r rs -> is_flag (field df "class" r) = true).
  { intros r Hr. apply Hflags. unfold rs, rows_of_site in Hr.
    apply filter_In in Hr. apply Hr. }
  assert (Hcls : forall c, In c cls -> is_flag c = true).
  { intros c Hc. unfold cls in Hc. apply in_map_iff in Hc.
    destruct Hc as [r [<- Hr]]. now apply Hrs. }
  assert (Hpresent : filter (fun c => negb (is_nan c)) cls = cls).
  { apply filter_all. intros c Hc. apply flag_not_nan. now apply Hcls. }
  assert (Hsize : forall (label : cell) (n : Q),
    (forall c, cell_eqb label (outcome_label c) = eq_num n c) ->
    sum_values label (map (fun e => outcome_label (fst e)) (value_counts cls))
      (map (fun e => num_of_nat (snd e)) (value_counts cls)) ==
    inject_Z (Z.of_nat (List.length
      (filter (fun r => eq_num n (field df "class" r)) rs)))).
  { intros label n Hl. rewrite sum_values_total.
    rewrite (value_counts_total cls).
    - rewrite Hpresent. unfold cls. rewrite length_filter_map.
      rewrite (filter_ext _ (fun r => eq_num n (field df "class" r)));
        [reflexivity|]. intros r. apply Hl.
    - intros a b Hab. rewrite !Hl. now apply eq_num_respects. }
  assert (Honce : forall (label : cell) (n : Q),
    (forall c, cell_eqb label (outcome_label c) = eq_num n c) ->
    (count_cell label
       (map (fun e => outcome_label (fst e)) (value_counts cls)) <= 1)%nat).
  { intros label n Hl. unfold count_cell. rewrite length_filter_map.
    apply (value_counts_at_most_one cls
             (fun v => cell_eqb label (outcome_label v))).
    intros a b. rewrite !Hl. apply same_flag_same_key. }
  cbn [pie_title pie_names]. unfold slice_size. cbn [pie_values pie_names].
  split; [reflexivity|]. split; [|split; [|split; [|split; [|split]]]].
  - intros l Hl. apply in_map_iff in Hl. destruct Hl as [e [<- He]].
    apply outcome_label_flag. apply Hcls. now apply value_counts_keys.
  - apply (Honce success_label 1). apply success_label_spec.
  - apply (Honce failure_label 0). apply failure_label_spec.
  - apply (Hsize success_label 1). apply success_label_spec.
  - apply (Hsize failure_label 0). apply failure_label_spec.
  - rewrite (Hsize success_label 1 success_label_spec).
    rewrite (Hsize failure_label 0 failure_label_spec).
    rewrite <- inject_Z_plus, <- Nat2Z.inj_add.
    now rewrite (flags_split (field df "class") rs Hrs).
Qed.

(** ** The scatter filter *)

Lemma series_cmp_ge (low : pyfloat) (s : list cell) :
  (forall c, In c s -> is_text c = false) ->
  series_cmp (ge_scalar low) s = Ok (map (ge_test low) s).
Proof.
  induction s as [|c s IH]; intros H; [reflexivity|].
  cbn [series_cmp map]. rewrite IH by (intros d Hd; apply H; now right).
  assert (Hc := H c (or_introl eq_refl)).
  destruct c as [t|q|]; [discriminate| |reflexivity].
  destruct low; reflexivity.
Qed.

Lemma series_cmp_le (high : pyfloat) (s : list cell) :
  (forall c, In c s -> is_text c = false) ->
  series_cmp (le_scalar high) s = Ok (map (le_test high) s).
Proof.
  induction s as [|c s IH]; intros H; [reflexivity|].
  cbn [series_cmp map]. rewrite IH by (intros d Hd; apply H; now right).
  assert (Hc := H c (or_introl eq_refl)).
  destruct c as [t|q|]; [discriminate| |reflexivity].
  destruct high; reflexivity.
Qed.

Lemma mask_and_map {A : Type} (f g : A -> bool) (l : list A) :
  mask_and (map f l) (map g l) = map (fun a => f a && g a) l.
Proof.
  induction l as [|a l IH]; [reflexivity|].
  cbn [map mask_and]. now rewrite IH.
Qed.

Lemma numeric_cells (df : DataFrame) (name : string) :
  numeric_column df name ->
  forall c, In c (map (field df name) (rows df)) -> is_text c = false.
Proof.
  intros H c Hc. apply in_map_iff in Hc. destruct Hc as [r [<- Hr]].
  unfold numeric_column in H. rewrite forallb_forall in H.
  apply negb_true_iff. now apply H.
Qed.

Lemma update_scatter_run (g : globals) (h : store) (df : DataFrame)
  (site : string) (low high : pyfloat) :
  nth_error h (spacex_df g) = Some df ->
  has_column (payload_col g) (columns df) = true ->
  has_column (site_col g) (columns df) = true ->
  has_column "class" (columns df) = true ->
  has_column (booster_col g) (columns df) = true ->
  numeric_column df (payload_col g) ->
  let rs := kept g df site low high in
  fst (update_scatter g site (low, high) h) =
  Ok {| sc_data := {| columns := columns df; rows := rs |};
        sc_x := map (field df (payload_col g)) rs;
        sc_y := map (field df "class") rs;
        sc_color := map (field df (booster_col g)) rs;
        sc_hover := [map (field df (site_col g)) rs];
        sc_title := scatter_title (scatter_suffix site);
        sc_y_tickvals := [0%Z; 1%Z];
        sc_y_title := "Launch Outcome (class)";
        sc_x_title := "Payload Mass (kg)" |}.
Proof.
  intros Hdf Hpay Hsite Hclass Hboost Hnum rs.
  assert (Hcells := numeric_cells df _ Hnum).
  unfold update_scatter, scatter_suffix in *.
  unfold rs, kept, site_matches.
  destruct (String.eqb site "ALL") eqn:Hsel; cbn [negb orb]; run_ops;
    rewrite (nth_of_nth_error _ _ _ Hdf), (getitem_field _ _ Hpay);
    cbv beta iota;
    rewrite (series_cmp_ge low _ Hcells), (series_cmp_le high _ Hcells);
    cbv beta iota; rewrite mask_and_map; cbn [fst snd]; norm_store.
  - set (d := boolean_index df _).
    rewrite (px_column_field d _ Hpay), (px_column_field d _ Hclass),
      (px_column_field d _ Hboost), (px_column_field d _ Hsite).
    unfold d, update_xaxes, update_yaxes, boolean_index.
    cbn [fst snd rows columns sc_data sc_x sc_y sc_color sc_hover sc_title
      sc_y_tickvals sc_y_title sc_x_title].
    rewrite map_map, !select_map.
    rewrite (filter_ext
               (fun r => in_range low high (field df (payload_col g) r)
                         && true)
               (fun r => in_range low high (field df (payload_col g) r))).
    + reflexivity.
    + intros r. apply andb_true_r.
  - rewrite (getitem_field (boolean_index df _) _ Hsite).
    cbv beta iota. cbn [fst snd]. norm_store.
    set (d := boolean_index (boolean_index df _) _).
    rewrite (px_column_field d _ Hpay), (px_column_field d _ Hclass),
      (px_column_field d _ Hboost), (px_column_field d _ Hsite).
    unfold d, update_xaxes, update_yaxes, boolean_index.
    cbn [fst snd rows columns sc_data sc_x sc_y sc_color sc_hover sc_title
      sc_y_tickvals sc_y_title sc_x_title].
    rewrite !map_map, !select_map, !filter_twice. reflexivity.
Qed.

Lemma in_range_num (low high q : Q) :
  in_range (Some low) (Some high) (CNum q) = true <->
  round64 low <= round64 q /\ round64 q <= round64 high.
Proof.
  unfold in_range, ge_test, le_test.
  now rewrite andb_true_iff, !Qle_bool_iff.
Qed.

(** Between float64 values the test is the comparison of the values. *)
Lemma in_range_float (low high q : Q) :
  is_float64 low = true -> is_float64 high = true -> is_float64 q = true ->
  in_range (Some low) (Some high) (CNum q) = true <->
  low <= q /\ q <= high.
Proof.
  rewrite !is_float64_spec, in_range_num. intros -> -> ->. reflexivity.
Qed.

(** A number at or above the lower end passes the lower test, and one at or
    below the upper end the upper test, float64 or not. *)
Lemma in_range_of_le (low high q : Q) :
  low <= q -> q <= high -> in_range (Some low) (Some high) (CNum q) = true.
Proof.
  intros H1 H2. apply in_range_num. split; now apply round64_mono.
Qed.

Lemma float_cell (df : DataFrame) (name : string) (r : list cell) (q : Q) :
  float_column df name -> In r (rows df) -> field df name r = CNum q ->
  is_float64 q = true.
Proof.
  unfold float_column. rewrite forallb_forall. intros H Hr E.
  specialize (H r Hr). now rewrite E in H.
Qed.

Lemma eq_str_spec (s : string) (c : cell) :
  eq_str s c = true <-> c = CStr s.
Proof.
  destruct c as [t|q|]; simpl.
  - rewrite String.eqb_eq. split; [now intros -> | now inversion 1].
  - split; discriminate.
  - split; discriminate.
Qed.

Lemma site_matches_spec (g : globals) (df : DataFrame) (site : string)
  (r : list cell) :
  site_matches g df site r = true <->
  (site <> "ALL" -> field df (site_col g) r = CStr site).
Proof.
  unfold site_matches. rewrite orb_true_iff, eq_str_spec.
  destruct (String.eqb site "ALL") eqn:E.
  - apply String.eqb_eq in E. split; [contradiction | now left].
  - apply String.eqb_neq in E. split.
    + intros [H|H]; [discriminate | now intros _].
    + intros H. right. now apply H.
Qed.

(** C3, as stated, fails: the filter compares in float64.  A launch of an
    int64 column whose payload is 2^53 + 1 is converted to 2^53, and is
    returned for the range [0, 2^53], above whose upper end it lies. *)
Lemma promoted_payload_passes_upper_end :
  exists g h fig,
    loader heavy_file [] = (Ok g, h) /\
    is_float64 0 = true /\
    is_float64 9007199254740992 = true /\
    0 <= 9007199254740992 /\
    fst (update_scatter g "ALL" (Some 0, Some 9007199254740992) h) = Ok fig /\
    rows (sc_data fig) = rows heavy_file /\
    map (field heavy_file (payload_col g)) (rows (sc_data fig)) =
      [CNum 9007199254740993] /\
    ~ 9007199254740993 <= 9007199254740992.
Proof.
  exists {| spacex_df := O; site_col := "Launch Site";
            payload_col := "Payload Mass (kg)";
            booster_col := "Booster Version Category";
            max_payload := Some 9007199254740993;
            min_payload := Some 9007199254740993 |}, [heavy_file].
  eexists.
  split; [reflexivity|]. split; [reflexivity|]. split; [reflexivity|].
  split; [discriminate|]. split; [vm_compute; reflexivity|].
  split; [reflexivity|]. split; [reflexivity|].
  intros H. now apply H.
Qed.

(** C3, amended.  For a table whose payload numbers are float64 values,
    as those of a float64 column are and those of an int64 column up to
    2^53, for every payload range [low, high] of floats and every selected
    site, the scatter chart is drawn from exactly the rows of the table
    whose payload is a number between low and high, both included, and,
    unless the site is "ALL", whose site field is the selected site; they
    come in the order of the table, with the columns of the table. *)
Theorem update_scatter_filters_rows :
  forall (g : globals) (h : store) (df : DataFrame) (site : string)
         (low high : Q),
    nth_error h (spacex_df g) = Some df ->
    has_column (payload_col g) (columns df) = true ->
    has_column (site_col g) (columns df) = true ->
    has_column "class" (columns df) = true ->
    has_column (booster_col g) (columns df) = true ->
    numeric_column df (payload_col g) ->
    float_column df (payload_col g) ->
    is_float64 low = true ->
    is_float64 high = true ->
    exists fig,
      fst (update_scatter g site (Some low, Some high) h) = Ok fig /\
      columns (sc_data fig) = columns df /\
      rows (sc_data fig) =
        filter (fun r => in_range (Some low) (Some high)
                           (field df (payload_col g) r)
                         && site_matches g df site r) (rows df) /\
      forall r,
        In r (rows (sc_data fig)) <->
        In r (rows df) /\
        (exists q, field df (payload_col g) r = CNum q /\
                   low <= q /\ q <= high) /\
        (site <> "ALL" -> field df (site_col g) r = CStr site).
Proof.
  intros g h df site low high Hdf Hpay Hsite Hclass Hboost Hnum Hfl Hlo Hhi.
  eexists. split.
  - apply (update_scatter_run g h df site (Some low) (Some high)
             Hdf Hpay Hsite Hclass Hboost Hnum).
  - cbn [sc_data columns rows]. split; [reflexivity|].
    split; [reflexivity|]. intros r. unfold kept.
    rewrite filter_In, andb_true_iff, site_matches_spec. split.
    + intros [Hr [Hin Hs]]. split; [exact Hr|]. split; [|exact Hs].
      destruct (field df (payload_col g) r) as [t|q|] eqn:E;
        try discriminate.
      exists q. split; [reflexivity|].
      now apply (in_range_float low high q Hlo Hhi (float_cell _ _ _ _ Hfl Hr E)).
    + intros [Hr [[q [E Hq]] Hs]]. split; [exact Hr|]. split; [|exact Hs].
      rewrite E.
      now apply (in_range_float low high q Hlo Hhi (float_cell _ _ _ _ Hfl Hr E)).
Qed.

Lemma in_range_nan (low high : pyfloat) : in_range low high CNaN = false.
Proof. reflexivity. Qed.

(** C10.  Whatever the payload range, the full range computed at start-up
    included, and whatever the site, the scatter chart holds no row whose
    payload is missing: the range test is false for a missing value. *)
Theorem update_scatter_drops_missing_payload :
  forall (g : globals) (h : store) (df : DataFrame) (site : string)
         (low high : pyfloat),
    nth_error h (spacex_df g) = Some df ->
    has_column (payload_col g) (columns df) = true ->
    has_column (site_col g) (columns df) = true ->
    has_column "class" (columns df) = true ->
    has_column (booster_col g) (columns df) = true ->
    numeric_column df (payload_col g) ->
    in_range low high CNaN = false /\
    exists fig,
      fst (update_scatter g site (low, high) h) = Ok fig /\
      (forall r, In r (rows (sc_data fig)) ->
                 field df (payload_col g) r <> CNaN) /\
      (forall r, field df (payload_col g) r = CNaN ->
                 ~ In r (rows (sc_data fig))) /\
      ~ In CNaN (sc_x fig).
Proof.
  intros g h df site low high Hdf Hpay Hsite Hclass Hboost Hnum.
  split; [reflexivity|]. eexists. split.
  - apply (update_scatter_run g h df site low high
             Hdf Hpay Hsite Hclass Hboost Hnum).
  - cbn [sc_data sc_x rows].
    assert (Hkept : forall r, In r (kept g df site low high) ->
                              field df (payload_col g) r <> CNaN).
    { intros r Hr. unfold kept in Hr. apply filter_In in Hr.
      destruct Hr as [_ Hr]. apply andb_true_iff in Hr.
      destruct Hr as [Hr _]. intros E. rewrite E in Hr. discriminate. }
    split; [exact Hkept|]. split.
    + intros r E Hr. now apply (Hkept r Hr).
    + intros Hin. apply in_map_iff in Hin. destruct Hin as [r [E Hr]].
      now apply (Hkept r Hr).
Qed.

(** ** Empty results *)

Lemma filter_nothing {A : Type} (p : A -> bool) (l : list A) :
  (forall a, In a l -> p a = false) -> filter p l = [].
Proof.
  induction l as [|a l IH]; intros H; [reflexivity|].
  cbn [filter]. rewrite (H a) by now left.
  apply IH. intros b Hb. apply H. now right.
Qed.

Lemma unknown_site_no_rows (g : globals) (df : DataFrame) (site : string) :
  unknown_site g df site -> rows_of_site g df site = [].
Proof.
  intros H. unfold unknown_site in H. rewrite forallb_forall in H.
  apply filter_nothing. intros r Hr. apply negb_true_iff. now apply H.
Qed.

(** C6.  A selected site that no row carries, and a payload range that no
    row falls in, give empty charts and no error: the pie chart has no
    slice, the scatter chart has no row. *)
Theorem unknown_site_and_empty_range_give_empty_charts :
  forall (g : globals) (h : store) (df : DataFrame),
    nth_error h (spacex_df g) = Some df ->
    has_column (payload_col g) (columns df) = true ->
    has_column (site_col g) (columns df) = true ->
    has_column "class" (columns df) = true ->
    has_column (booster_col g) (columns df) = true ->
    numeric_column df (payload_col g) ->
    (forall site, site <> "ALL" -> unknown_site g df site ->
       (exists fig, fst (get_pie_chart g site h) = Ok fig /\
                    pie_names fig = [] /\ pie_values fig = Some []) /\
       (forall low high,
          exists fig, fst (update_scatter g site (low, high) h) = Ok fig /\
                      rows (sc_data fig) = [] /\ sc_x fig = [] /\
                      sc_y fig = [])) /\
    (forall low high, empty_range g df low high ->
       forall site,
         exists fig, fst (update_scatter g site (low, high) h) = Ok fig /\
                     rows (sc_data fig) = [] /\ sc_x fig = [] /\
                     sc_y fig = []).
Proof.
  intros g h df Hdf Hpay Hsite Hclass Hboost Hnum. split.
  - intros site Hsel Hunknown. split.
    + eexists. split.
      * apply String.eqb_neq in Hsel.
        apply (pie_site_run g h df site Hsel Hdf Hclass Hsite).
      * rewrite (unknown_site_no_rows g df site Hunknown).
        split; reflexivity.
    + intros low high. eexists. split.
      * apply (update_scatter_run g h df site low high
                 Hdf Hpay Hsite Hclass Hboost Hnum).
      * cbn [sc_data sc_x sc_y rows].
        assert (E : kept g df site low high = []).
        { apply filter_nothing. intros r Hr. apply andb_false_iff. right.
          unfold site_matches. apply String.eqb_neq in Hsel. rewrite Hsel.
          cbn [orb]. unfold unknown_site in Hunknown.
          rewrite forallb_forall in Hunknown.
          apply negb_true_iff. now apply Hunknown. }
        rewrite E. repeat split.
  - intros low high Hempty site. eexists. split.
    + apply (update_scatter_run g h df site low high
               Hdf Hpay Hsite Hclass Hboost Hnum).
    + cbn [sc_data sc_x sc_y rows].
      assert (E : kept g df site low high = []).
      { unfold empty_range in Hempty. rewrite forallb_forall in Hempty.
        apply filter_nothing. intros r Hr. apply andb_false_iff. left.
        apply negb_true_iff. now apply Hempty. }
      rewrite E. repeat split.
Qed.

(** ** The table is read only *)

(** The figure of a callback is a function of the table alone. *)
Lemma get_pie_chart_reads_table (g : globals) (site : string)
  (h1 h2 : store) (df : DataFrame) :
  nth_error h1 (spacex_df g) = Some df ->
  nth_error h2 (spacex_df g) = Some df ->
  fst (get_pie_chart g site h1) = fst (get_pie_chart g site h2).
Proof.
  intros H1 H2. unfold get_pie_chart.
  destruct (String.eqb site "ALL"); run_ops;
    rewrite (nth_of_nth_error _ _ _ H1), (nth_of_nth_error _ _ _ H2);
    split_runs; reflexivity.
Qed.

Lemma update_scatter_reads_table (g : globals) (site : string)
  (range : pyfloat * pyfloat) (h1 h2 : store) (df : DataFrame) :
  nth_error h1 (spacex_df g) = Some df ->
  nth_error h2 (spacex_df g) = Some df ->
  fst (update_scatter g site range h1) = fst (update_scatter g site range h2).
Proof.
  intros H1 H2. unfold update_scatter. destruct range as [low high].
  destruct (negb (String.eqb site "ALL")); run_ops;
    rewrite (nth_of_nth_error _ _ _ H1), (nth_of_nth_error _ _ _ H2);
    split_runs; reflexivity.
Qed.

Lemma answer_extends (g : globals) (q : request) (h : store) :
  extends h (snd (answer g q h)).
Proof.
  destruct q as [site|site range]; cbn [answer snd].
  - apply get_pie_chart_extends.
  - apply update_scatter_extends.
Qed.

Lemma serve_extends (g : globals) (qs : list request) (h : store) :
  extends h (snd (serve g qs h)).
Proof.
  revert h. induction qs as [|q qs IH]; intros h; cbn [serve].
  - apply extends_refl.
  - unfold bind. destruct (answer g q h) as [[u|e] h'] eqn:E.
    + eapply extends_trans; [|apply IH].
      change h' with (snd (@Ok unit u, h')). rewrite <- E.
      apply answer_extends.
    + change h' with (snd (@Err unit e, h')). rewrite <- E.
      apply answer_extends.
Qed.

(** C8.  A callback changes no object that existed before it ran: the
    store afterwards is the store before, followed by the frames the
    callback built for itself.  So the loaded table is the same after any
    call and after any sequence of requests, and a callback run after them
    returns what it returns on the table as loaded. *)
Theorem callbacks_leave_table_unchanged :
  forall (g : globals) (h : store) (df : DataFrame),
    nth_error h (spacex_df g) = Some df ->
    (forall site,
       extends h (snd (get_pie_chart g site h)) /\
       nth_error (snd (get_pie_chart g site h)) (spacex_df g) = Some df) /\
    (forall site range,
       extends h (snd (update_scatter g site range h)) /\
       nth_error (snd (update_scatter g site range h)) (spacex_df g)
         = Some df) /\
    (forall qs,
       let h' := snd (serve g qs h) in
       nth_error h' (spacex_df g) = Some df /\
       (forall site,
          fst (get_pie_chart g site h') = fst (get_pie_chart g site h)) /\
       (forall site range,
          fst (update_scatter g site range h')
            = fst (update_scatter g site range h))).
Proof.
  intros g h df Hdf. split; [|split].
  - intros site. split; [apply get_pie_chart_extends|].
    eapply extends_lookup; [apply get_pie_chart_extends | exact Hdf].
  - intros site range. split; [apply update_scatter_extends|].
    eapply extends_lookup; [apply update_scatter_extends | exact Hdf].
  - intros qs h'.
    assert (Hdf' : nth_error h' (spacex_df g) = Some df).
    { eapply extends_lookup; [apply serve_extends | exact Hdf]. }
    split; [exact Hdf'|]. split.
    + intros site. now apply get_pie_chart_reads_table with df.
    + intros site range. now apply update_scatter_reads_table with df.
Qed.

(** ** Loading *)

Lemma resolve_payload_first (cols : list string) :
  resolve_payload cols = find (fun a => has_column a cols) payload_aliases.
Proof.
  unfold resolve_payload, payload_aliases. cbn [find].
  destruct (has_column "Payload Mass (kg)" cols); [reflexivity|].
  destruct (has_column "PayloadMass" cols); [reflexivity|].
  destruct (has_column "PayloadMassKg" cols); reflexivity.
Qed.

Lemma resolve_payload_present (cols : list string) (p : string) :
  resolve_payload cols = Some p ->
  In p payload_aliases /\ has_column p cols = true.
Proof.
  rewrite resolve_payload_first. intros H. apply find_some in H. exact H.
Qed.

Lemma numbers_total (s : list cell) :
  (forall c, In c s -> is_text c = false) -> exists ns, numbers s = Ok ns.
Proof.
  induction s as [|c s IH]; intros H; [now exists []|].
  destruct IH as [ns Hns]; [intros d Hd; apply H; now right|].
  assert (Hc := H c (or_introl eq_refl)).
  destruct c as [t|q|]; [discriminate| |].
  - exists (q :: ns). cbn [numbers]. now rewrite Hns.
  - exists ns. exact Hns.
Qed.

Lemma numbers_spec (s : list cell) (ns : list Q) :
  numbers s = Ok ns ->
  (forall c, In c s -> is_text c = false) /\
  (forall q, In q ns <-> In (CNum q) s).
Proof.
  revert ns. induction s as [|c s IH]; intros ns H; cbn [numbers] in H.
  - inversion H. split; [intros c []|]. intros q. simpl. tauto.
  - destruct c as [t|q|]; [discriminate| |].
    + destruct (numbers s) as [ms|] eqn:E; [|discriminate].
      cbn [rbind] in H. inversion H; subst.
      destruct (IH ms eq_refl) as [H1 H2]. split.
      * intros c [<-|Hc]; [reflexivity | now apply H1].
      * intros q'. simpl. rewrite H2. split.
        -- intros [->|Hq]; [now left | now right].
        -- intros [Hq|Hq]; [left; now inversion Hq | now right].
    + destruct (IH ns H) as [H1 H2]. split.
      * intros c [<-|Hc]; [reflexivity | now apply H1].
      * intros q. rewrite H2. simpl. split; [now right|].
        intros [Hq|Hq]; [discriminate | exact Hq].
Qed.

Lemma qmin_le_l (a b : Q) : qmin a b <= a.
Proof.
  unfold qmin. destruct (Qle_bool a b) eqn:E; [apply Qle_refl|].
  destruct (Qlt_le_dec b a) as [H|H]; [now apply Qlt_le_weak|].
  apply Qle_bool_iff in H. congruence.
Qed.

Lemma qmin_le_r (a b : Q) : qmin a b <= b.
Proof.
  unfold qmin. destruct (Qle_bool a b) eqn:E; [|apply Qle_refl].
  now apply Qle_bool_iff.
Qed.

Lemma qmax_ge_l (a b : Q) : a <= qmax a b.
Proof.
  unfold qmax. destruct (Qle_bool a b) eqn:E; [|apply Qle_refl].
  now apply Qle_bool_iff.
Qed.

Lemma qmax_ge_r (a b : Q) : b <= qmax a b.
Proof.
  unfold qmax. destruct (Qle_bool a b) eqn:E; [apply Qle_refl|].
  destruct (Qlt_le_dec b a) as [H|H]; [now apply Qlt_le_weak|].
  apply Qle_bool_iff in H. congruence.
Qed.

Lemma fold_qmin_spec (t : list Q) (n : Q) :
  In (fold_left qmin t n) (n :: t) /\
  forall q, In q (n :: t) -> fold_left qmin t n <= q.
Proof.
  revert n. induction t as [|x t IH]; intros n; cbn [fold_left].
  - split; [now left|]. intros q [<-|[]]. apply Qle_refl.
  - destruct (IH (qmin n x)) as [Hin Hle]. split.
    + destruct Hin as [E|Hin]; [|right; now right].
      rewrite <- E. unfold qmin. destruct (Qle_bool n x); simpl; auto.
    + intros q [<-|[<-|Hq]].
      * eapply Qle_trans; [apply Hle; now left | apply qmin_le_l].
      * eapply Qle_trans; [apply Hle; now left | apply qmin_le_r].
      * apply Hle. now right.
Qed.

Lemma fold_qmax_spec (t : list Q) (n : Q) :
  In (fold_left qmax t n) (n :: t) /\
  forall q, In q (n :: t) -> q <= fold_left qmax t n.
Proof.
  revert n. induction t as [|x t IH]; intros n; cbn [fold_left].
  - split; [now left|]. intros q [<-|[]]. apply Qle_refl.
  - destruct (IH (qmax n x)) as [Hin Hle]. split.
    + destruct Hin as [E|Hin]; [|right; now right].
      rewrite <- E. unfold qmax. destruct (Qle_bool n x); simpl; auto.
    + intros q [<-|[<-|Hq]].
      * eapply Qle_trans; [apply qmax_ge_l | apply Hle; now left].
      * eapply Qle_trans; [apply qmax_ge_r | apply Hle; now left].
      * apply Hle. now right.
Qed.

(** [series.min()]: a number of the series below all its numbers, or NaN
    when the series has none. *)
Lemma series_min_spec (s : list cell) (m : pyfloat) :
  series_min s = Ok m ->
  match m with
  | Some lo => In (CNum lo) s /\ forall q, In (CNum q) s -> lo <= q
  | None => forall q, ~ In (CNum q) s
  end.
Proof.
  unfold series_min. destruct (numbers s) as [ns|] eqn:E; [|discriminate].
  destruct (numbers_spec s ns E) as [_ Hns]. cbn [rbind].
  destruct ns as [|n t]; intros H; inversion H; subst.
  - intros q Hq. now apply Hns in Hq.
  - destruct (fold_qmin_spec t n) as [Hin Hle]. split.
    + now apply Hns.
    + intros q Hq. apply Hle. now apply Hns.
Qed.

Lemma series_max_spec (s : list cell) (m : pyfloat) :
  series_max s = Ok m ->
  match m with
  | Some hi => In (CNum hi) s /\ forall q, In (CNum q) s -> q <= hi
  | None => forall q, ~ In (CNum q) s
  end.
Proof.
  unfold series_max. destruct (numbers s) as [ns|] eqn:E; [|discriminate].
  destruct (numbers_spec s ns E) as [_ Hns]. cbn [rbind].
  destruct ns as [|n t]; intros H; inversion H; subst.
  - intros q Hq. now apply Hns in Hq.
  - destruct (fold_qmax_spec t n) as [Hin Hle]. split.
    + now apply Hns.
    + intros q Hq. apply Hle. now apply Hns.
Qed.

Lemma loader_inv (file : DataFrame) (h0 h : store) (g : globals) :
  loader file h0 = (Ok g, h) ->
  let payload := map (field file (payload_col g)) (rows file) in
  h = h0 ++ [file] /\
  spacex_df g = List.length h0 /\
  nth_error h (spacex_df g) = Some file /\
  site_col g = resolve_site (columns file) /\
  resolve_payload (columns file) = Some (payload_col g) /\
  booster_col g = resolve_booster (columns file) /\
  series_max payload = Ok (max_payload g) /\
  series_min payload = Ok (min_payload g).
Proof.
  unfold loader. run_ops. norm_store.
  destruct (resolve_payload (columns file)) as [p|] eqn:Hp; [|discriminate].
  destruct (resolve_payload_present _ _ Hp) as [_ Hcol]. norm_store.
  rewrite (getitem_field file p Hcol). cbv beta iota.
  destruct (series_max _) as [mx|] eqn:Hmx; [|discriminate].
  destruct (series_min _) as [mn|] eqn:Hmn; [|discriminate].
  intros H. inversion H; subst. cbn [payload_col spacex_df site_col
    booster_col max_payload min_payload].
  repeat split; auto.
  rewrite nth_error_app2 by lia. now rewrite Nat.sub_diag.
Qed.

Lemma loader_run (file : DataFrame) (h0 : store) (p : string) :
  resolve_payload (columns file) = Some p ->
  numeric_column file p ->
  exists g, loader file h0 = (Ok g, h0 ++ [file]) /\ payload_col g = p.
Proof.
  intros Hp Hnum.
  destruct (resolve_payload_present _ _ Hp) as [_ Hcol].
  destruct (numbers_total _ (numeric_cells file p Hnum)) as [ns Hns].
  unfold loader. run_ops. norm_store. rewrite Hp. norm_store.
  rewrite (getitem_field file p Hcol). cbv beta iota.
  unfold series_max, series_min. rewrite Hns. cbn [rbind].
  destruct ns; eexists; split; reflexivity.
Qed.

Lemma loader_no_payload (file : DataFrame) (h0 : store) :
  resolve_payload (columns file) = None ->
  loader file h0 =
    (Err (ValueError no_payload_message (columns file)), h0 ++ [file]).
Proof.
  intros Hp. unfold loader. run_ops. norm_store. now rewrite Hp.
Qed.

(** C5.  The payload column is the first of "Payload Mass (kg)",
    "PayloadMass", "PayloadMassKg" that is a column of the table, and it is
    then a column of the table.  When none is, loading raises the
    configuration error that carries the columns of the table, and start-up
    ends there: no layout is built, nothing is served.  A table with
    "PayloadMassKg" and neither of the first two resolves to
    "PayloadMassKg", and loading succeeds with it. *)
Theorem payload_column_resolution :
  forall (file : DataFrame) (h0 : store),
    let cols := columns file in
    resolve_payload cols = find (fun a => has_column a cols) payload_aliases /\
    (forall p, resolve_payload cols = Some p ->
       has_column p cols = true /\
       (numeric_column file p ->
        exists g, fst (loader file h0) = Ok g /\ payload_col g = p)) /\
    (resolve_payload cols = None ->
       (forall a, In a payload_aliases -> has_column a cols = false) /\
       fst (loader file h0) = Err (ValueError no_payload_message cols) /\
       fst (startup file h0) = Err (ValueError no_payload_message cols)) /\
    (has_column "Payload Mass (kg)" cols = false ->
     has_column "PayloadMass" cols = false ->
     has_column "PayloadMassKg" cols = true ->
     resolve_payload cols = Some "PayloadMassKg").
Proof.
  intros file h0 cols. split; [apply resolve_payload_first|].
  split; [|split].
  - intros p Hp. split; [apply (resolve_payload_present _ _ Hp)|].
    intros Hnum. destruct (loader_run file h0 p Hp Hnum) as [g [Hg Hpc]].
    exists g. now rewrite Hg.
  - intros Hp. split; [|split].
    + intros a Ha. rewrite resolve_payload_first in Hp.
      now apply (find_none _ _ Hp).
    + now rewrite (loader_no_payload file h0 Hp).
    + unfold startup, bind. now rewrite (loader_no_payload file h0 Hp).
  - intros H1 H2 H3. unfold resolve_payload. fold cols.
    now rewrite H1, H2, H3.
Qed.

(** ** Missing columns *)

Lemma px_column_missing (df : DataFrame) (name : string) :
  has_column name (columns df) = false ->
  px_column df name = Err (ValueError name (columns df)).
Proof.
  unfold has_column, px_column.
  destruct (index_of name (columns df)); [discriminate | reflexivity].
Qed.

Lemma layout_missing_site (g : globals) (h : store) (df : DataFrame) :
  nth_error h (spacex_df g) = Some df ->
  has_column (site_col g) (columns df) = false ->
  layout g h = (Err (KeyError (site_col g)), h).
Proof.
  intros Hdf Hsite. unfold layout. run_ops.
  now rewrite (nth_of_nth_error _ _ _ Hdf), (getitem_missing _ _ Hsite).
Qed.

Lemma scatter_missing_booster (g : globals) (h : store) (df : DataFrame)
  (site : string) (low high : pyfloat) :
  nth_error h (spacex_df g) = Some df ->
  has_column (payload_col g) (columns df) = true ->
  has_column (site_col g) (columns df) = true ->
  has_column "class" (columns df) = true ->
  has_column (booster_col g) (columns df) = false ->
  numeric_column df (payload_col g) ->
  fst (update_scatter g site (low, high) h) =
  Err (ValueError (booster_col g) (columns df)).
Proof.
  intros Hdf Hpay Hsite Hclass Hboost Hnum.
  assert (Hcells := numeric_cells df _ Hnum).
  unfold update_scatter.
  destruct (String.eqb site "ALL") eqn:Hsel; cbn [negb]; run_ops;
    rewrite (nth_of_nth_error _ _ _ Hdf), (getitem_field _ _ Hpay);
    cbv beta iota;
    rewrite (series_cmp_ge low _ Hcells), (series_cmp_le high _ Hcells);
    cbv beta iota; norm_store.
  - set (d := boolean_index df _).
    rewrite (px_column_field d _ Hpay), (px_column_field d _ Hclass),
      (px_column_missing d _ Hboost). reflexivity.
  - rewrite (getitem_field (boolean_index df _) _ Hsite).
    cbv beta iota. norm_store.
    set (d := boolean_index (boolean_index df _) _).
    rewrite (px_column_field d _ Hpay), (px_column_field d _ Hclass),
      (px_column_missing d _ Hboost). reflexivity.
Qed.

(** ** The payload slider *)

Lemma dict_set_new (k : Z) (v : string) (d : list (Z * string)) :
  In (k, v) (dict_set k v d).
Proof.
  induction d as [|[k' v'] d IH]; cbn [dict_set]; [now left|].
  destruct (Z.eqb k' k) eqn:E.
  - apply Z.eqb_eq in E. subst. now left.
  - now right.
Qed.

Lemma dict_set_old (f : Z -> string) (k k' : Z) (d : list (Z * string)) :
  In (k, f k) d -> In (k, f k) (dict_set k' (f k') d).
Proof.
  induction d as [|[a b] d IH]; cbn [dict_set]; [intros []|].
  destruct (Z.eqb a k') eqn:E.
  - apply Z.eqb_eq in E. subst a. intros [H|H]; [|now right].
    inversion H; subst. now left.
  - intros [H|H]; [now left | right; now apply IH].
Qed.

Lemma dict_set_In (k : Z) (v : string) (d : list (Z * string))
  (e : Z * string) :
  In e (dict_set k v d) -> e = (k, v) \/ In e d.
Proof.
  induction d as [|[a b] d IH]; cbn [dict_set].
  - intros [<-|[]]. now left.
  - destruct (Z.eqb a k) eqn:E.
    + apply Z.eqb_eq in E. subst a. intros [<-|H]; [now left|].
      right. now right.
    + intros [<-|H]; [right; now left|].
      destruct (IH H) as [->|H']; [now left | right; now right].
Qed.

(** C7, as stated, fails: a table without a single payload value is loaded,
    with NaN for both bounds, and no slider comes of them: [int] of NaN
    raises while the marks are built, and start-up ends there. *)
Lemma table_without_payload_has_no_slider :
  exists g h,
    loader unweighed_file [] = (Ok g, h) /\
    min_payload g = None /\
    max_payload g = None /\
    payload_slider g =
      Err (ValueError "cannot convert float NaN to integer" []) /\
    startup unweighed_file [] =
      (Err (ValueError "cannot convert float NaN to integer" []), h).
Proof.
  exists {| spacex_df := O; site_col := "Launch Site";
            payload_col := "Payload Mass (kg)";
            booster_col := "Booster Version Category";
            max_payload := None; min_payload := None |}, [unweighed_file].
  repeat split.
Qed.

(** C7, amended.  After loading a table with a numeric payload column, the
    bounds are the minimum and the maximum of the column over all rows.
    When the column holds a number, and its numbers stay below 2^62 in
    magnitude, the slider has float(min) and float(max) as its ends and as
    its initial value, step 1000, and marks at int(min), at int of the
    midpoint (min + max) / 2 computed in float64, and at int(max), each
    written in decimal; the layout carries this slider. *)
Theorem payload_slider_from_bounds :
  forall (file : DataFrame) (h0 h : store) (g : globals),
    loader file h0 = (Ok g, h) ->
    numeric_column file (payload_col g) ->
    bounded_column file (payload_col g) ->
    let payload := map (field file (payload_col g)) (rows file) in
    series_min payload = Ok (min_payload g) /\
    series_max payload = Ok (max_payload g) /\
    forall lo hi : Q,
      min_payload g = Some lo ->
      max_payload g = Some hi ->
      let mid := round64 (round64 (lo + hi) / 2) in
      (In (CNum lo) payload /\ forall q, In (CNum q) payload -> lo <= q) /\
      (In (CNum hi) payload /\ forall q, In (CNum q) payload -> q <= hi) /\
      exists sl,
        payload_slider g = Ok sl /\
        (forall l h', layout g h = (Ok l, h') -> slider l = sl) /\
        sl_min sl = Some (round64 lo) /\
        sl_max sl = Some (round64 hi) /\
        sl_value sl = (Some (round64 lo), Some (round64 hi)) /\
        sl_step sl = 1000%Z /\
        sl_allowCross sl = false /\
        sl_marks sl =
          dict_set (truncate hi) (py_str (truncate hi))
            (dict_set (truncate mid) (py_str (truncate mid))
               [(truncate lo, py_str (truncate lo))]) /\
        In (truncate lo, py_str (truncate lo)) (sl_marks sl) /\
        In (truncate mid, py_str (truncate mid)) (sl_marks sl) /\
        In (truncate hi, py_str (truncate hi)) (sl_marks sl) /\
        forall k v, In (k, v) (sl_marks sl) ->
          v = py_str k /\
          (k = truncate lo \/ k = truncate mid \/ k = truncate hi).
Proof.
  intros file h0 h g Hload Hnum Hbound payload.
  destruct (loader_inv file h0 h g Hload)
    as [_ [_ [_ [_ [_ [_ [Hmax Hmin]]]]]]].
  fold payload in Hmax, Hmin.
  split; [exact Hmin|]. split; [exact Hmax|].
  intros lo hi Hlo Hhi mid.
  assert (Smin := series_min_spec payload _ Hmin).
  assert (Smax := series_max_spec payload _ Hmax).
  rewrite Hlo in Smin. rewrite Hhi in Smax.
  split; [exact Smin|]. split; [exact Smax|].
  assert (Hsl : payload_slider g =
    Ok {| sl_min := Some (round64 lo); sl_max := Some (round64 hi);
          sl_step := 1000;
          sl_value := (Some (round64 lo), Some (round64 hi));
          sl_marks :=
            dict_set (truncate hi) (py_str (truncate hi))
              (dict_set (truncate mid) (py_str (truncate mid))
                 [(truncate lo, py_str (truncate lo))]);
          sl_allowCross := false |}).
  { unfold payload_slider. rewrite Hlo, Hhi. reflexivity. }
  eexists. split; [exact Hsl|].
  cbn [sl_min sl_max sl_value sl_step sl_marks sl_allowCross].
  split.
  { intros l h'. unfold layout. run_ops. rewrite Hsl.
    split_runs; try discriminate.
    destruct (py_sorted _); [|discriminate].
    intros H. now inversion H. }
  do 6 (split; [reflexivity|]).
  split; [|split; [|split]].
  - apply (dict_set_old py_str). apply (dict_set_old py_str). now left.
  - apply (dict_set_old py_str). apply dict_set_new.
  - apply dict_set_new.
  - intros k v Hin.
    apply dict_set_In in Hin. destruct Hin as [E|Hin].
    { inversion E. auto. }
    apply dict_set_In in Hin. destruct Hin as [E|Hin].
    { inversion E. auto. }
    destruct Hin as [E|[]]. inversion E. auto.
Qed.

(** ** The full range *)

Lemma complete_payload_numeric (df : DataFrame) (name : string) :
  complete_payload df name -> numeric_column df name.
Proof.
  unfold complete_payload, numeric_column. rewrite !forallb_forall.
  intros H r Hr. specialize (H r Hr). now destruct (field df name r).
Qed.

Lemma payload_slider_without_numbers (g : globals) :
  min_payload g = None ->
  payload_slider g =
  Err (ValueError "cannot convert float NaN to integer" []).
Proof. intros H. unfold payload_slider. now rewrite H. Qed.

Example sample_loads :
  loader sample_file [] = (Ok sample_globals, sample_store).
Proof. reflexivity. Qed.

(** C4, as stated, fails: with the full range and "ALL" the launch without
    a payload value is not returned. *)
Lemma full_range_loses_missing_payload :
  exists g h fig,
    loader sample_file [] = (Ok g, h) /\
    fst (update_scatter g "ALL" (min_payload g, max_payload g) h) = Ok fig /\
    sc_data fig <> sample_file /\
    List.length (rows (sc_data fig)) = 4%nat /\
    List.length (rows sample_file) = 5%nat.
Proof.
  exists sample_globals, sample_store. eexists.
  split; [reflexivity|]. split; [reflexivity|].
  split; [|split; reflexivity].
  intros H. apply (f_equal (fun d => List.length (rows d))) in H.
  vm_compute in H. discriminate.
Qed.

(** C4, amended.  For a loaded table in which no payload value is missing,
    the scatter filter with the range [min, max] computed by the loader and
    site "ALL" returns the table as it is: the same columns and the same
    rows in the same order. *)
Theorem full_range_keeps_complete_table :
  forall (file : DataFrame) (h0 h : store) (g : globals),
    loader file h0 = (Ok g, h) ->
    has_column (site_col g) (columns file) = true ->
    has_column "class" (columns file) = true ->
    has_column (booster_col g) (columns file) = true ->
    complete_payload file (payload_col g) ->
    exists fig,
      fst (update_scatter g "ALL" (min_payload g, max_payload g) h) = Ok fig /\
      sc_data fig = file.
Proof.
  intros file h0 h g Hload Hsite Hclass Hboost Hfull.
  destruct (loader_inv file h0 h g Hload)
    as [_ [_ [Hdf [_ [Hp [_ [Hmax Hmin]]]]]]].
  destruct (resolve_payload_present _ _ Hp) as [_ Hpay].
  assert (Hnum := complete_payload_numeric file _ Hfull).
  eexists. split.
  - apply (update_scatter_run g h file "ALL" _ _
             Hdf Hpay Hsite Hclass Hboost Hnum).
  - cbn [sc_data]. destruct file as [cols rs]. cbn [columns rows] in *.
    f_equal. unfold kept. cbn [rows]. apply filter_all. intros r Hr.
    unfold complete_payload in Hfull. rewrite forallb_forall in Hfull.
    specialize (Hfull r Hr). cbn [rows] in Hfull.
    set (df := {| columns := cols; rows := rs |}) in *.
    destruct (field df (payload_col g) r) as [t|q|] eqn:E; try discriminate.
    assert (Hin : In (CNum q) (map (field df (payload_col g)) rs)).
    { rewrite <- E. now apply in_map. }
    assert (Smin := series_min_spec _ _ Hmin).
    assert (Smax := series_max_spec _ _ Hmax).
    unfold site_matches. cbn [String.eqb orb andb].
    rewrite andb_true_r.
    destruct (min_payload g) as [lo|]; [|now apply Smin in Hin].
    destruct (max_payload g) as [hi|]; [|now apply Smax in Hin].
    apply in_range_of_le.
    + now apply Smin.
    + now apply Smax.
Qed.

(** ** The properties on the sample tables *)

Lemma get_pie_chart_all_counts_successes_sample :
  nth_error sample_store (spacex_df sample_globals) = Some sample_file /\
  exists fig,
    fst (get_pie_chart sample_globals "ALL" sample_store) = Ok fig /\
    slice_size fig (CStr "KSC LC-39A") = 2 /\
    slice_size fig (CStr "CCAFS LC-40") = 1 /\
    slice_size fig (CStr "VAFB SLC-4E") = 0.
Proof.
  split; [reflexivity|].
  destruct (get_pie_chart_all_counts_successes sample_globals sample_store
              sample_file eq_refl eq_refl eq_refl)
    as [fig [Hfig [_ [_ Hsize]]]].
  exists fig. split; [exact Hfig|].
  destruct (Hsize "KSC LC-39A") as [H1 _].
  destruct (Hsize "CCAFS LC-40") as [H2 _].
  destruct (Hsize "VAFB SLC-4E") as [H3 _].
  rewrite H1, H2, H3. repeat split.
Defined.

Lemma get_pie_chart_site_two_buckets_sample :
  "KSC LC-39A" <> "ALL" /\
  binary_outcomes sample_file /\
  exists fig,
    fst (get_pie_chart sample_globals "KSC LC-39A" sample_store) = Ok fig /\
    pie_title fig = "Launch Outcomes for KSC LC-39A" /\
    slice_size fig success_label + slice_size fig failure_label ==
      inject_Z (Z.of_nat (List.length
        (rows_of_site sample_globals sample_file "KSC LC-39A"))).
Proof.
  assert (Hsel : "KSC LC-39A" <> "ALL") by discriminate.
  split; [exact Hsel|]. split; [reflexivity|].
  destruct (get_pie_chart_site_two_buckets sample_globals sample_store
              sample_file "KSC LC-39A" Hsel eq_refl eq_refl eq_refl eq_refl)
    as [fig [Hfig [Htitle [_ [_ [_ [_ [_ Hsum]]]]]]]].
  exists fig. split; [exact Hfig|]. split; [exact Htitle | exact Hsum].
Defined.

Lemma update_scatter_filters_rows_sample :
  numeric_column sample_file (payload_col sample_globals) /\
  float_column sample_file (payload_col sample_globals) /\
  is_float64 1000 = true /\
  is_float64 3000 = true /\
  exists fig,
    fst (update_scatter sample_globals "KSC LC-39A"
           (Some 1000, Some 3000) sample_store) = Ok fig /\
    rows (sc_data fig) =
      [ [CStr "KSC LC-39A"; CNum 1; CNum 2500; CStr "FT"];
        [CStr "KSC LC-39A"; CNum 1; CNum (5301 # 2); CStr "FT"] ].
Proof.
  assert (Hfl : float_column sample_file (payload_col sample_globals))
    by (vm_compute; reflexivity).
  assert (Hlo : is_float64 1000 = true) by (vm_compute; reflexivity).
  assert (Hhi : is_float64 3000 = true) by (vm_compute; reflexivity).
  split; [reflexivity|]. split; [exact Hfl|].
  split; [exact Hlo|]. split; [exact Hhi|].
  destruct (update_scatter_filters_rows sample_globals sample_store
              sample_file "KSC LC-39A" 1000 3000
              eq_refl eq_refl eq_refl eq_refl eq_refl eq_refl Hfl Hlo Hhi)
    as [fig [Hfig [_ [Hrows _]]]].
  exists fig. split; [exact Hfig|]. rewrite Hrows. vm_compute. reflexivity.
Defined.

Lemma full_range_keeps_complete_table_sample :
  loader complete_file [] = (Ok sample_globals, [complete_file]) /\
  complete_payload complete_file (payload_col sample_globals) /\
  exists fig,
    fst (update_scatter sample_globals "ALL"
           (min_payload sample_globals, max_payload sample_globals)
           [complete_file]) = Ok fig /\
    sc_data fig = complete_file.
Proof.
  split; [reflexivity|]. split; [reflexivity|].
  exact (full_range_keeps_complete_table complete_file [] [complete_file]
           sample_globals eq_refl eq_refl eq_refl eq_refl eq_refl).
Defined.

Lemma payload_column_resolution_sample :
  has_column "Payload Mass (kg)" (columns renamed_file) = false /\
  has_column "PayloadMass" (columns renamed_file) = false /\
  has_column "PayloadMassKg" (columns renamed_file) = true /\
  resolve_payload (columns renamed_file) = Some "PayloadMassKg" /\
  exists g, fst (loader renamed_file []) = Ok g /\
            payload_col g = "PayloadMassKg".
Proof.
  destruct (payload_column_resolution renamed_file [])
    as [_ [Hsome [_ Hkg]]].
  assert (Hp : resolve_payload (columns renamed_file) = Some "PayloadMassKg")
    by (apply Hkg; reflexivity).
  do 3 (split; [reflexivity|]). split; [exact Hp|].
  destruct (Hsome _ Hp) as [_ Hload]. apply Hload. reflexivity.
Defined.

Lemma unknown_site_and_empty_range_give_empty_charts_sample :
  unknown_site sample_globals sample_file "Boca Chica" /\
  empty_range sample_globals sample_file (Some 20000) (Some 30000) /\
  (exists fig,
     fst (get_pie_chart sample_globals "Boca Chica" sample_store) = Ok fig /\
     pie_names fig = []) /\
  (exists fig,
     fst (update_scatter sample_globals "ALL" (Some 20000, Some 30000)
            sample_store) = Ok fig /\
     rows (sc_data fig) = []).
Proof.
  destruct (unknown_site_and_empty_range_give_empty_charts sample_globals
              sample_store sample_file
              eq_refl eq_refl eq_refl eq_refl eq_refl eq_refl)
    as [Hsite Hrange].
  assert (Hsel : "Boca Chica" <> "ALL") by discriminate.
  assert (Hunknown : unknown_site sample_globals sample_file "Boca Chica")
    by reflexivity.
  assert (Hempty : empty_range sample_globals sample_file
                     (Some 20000) (Some 30000)) by reflexivity.
  split; [exact Hunknown|]. split; [exact Hempty|]. split.
  - destruct (Hsite "Boca Chica" Hsel Hunknown) as [[fig [Hfig [Hn _]]] _].
    exists fig. now split.
  - destruct (Hrange _ _ Hempty "ALL") as [fig [Hfig [Hr _]]].
    exists fig. now split.
Defined.

Lemma payload_slider_from_bounds_sample :
  loader sample_file [] = (Ok sample_globals, sample_store) /\
  numeric_column sample_file (payload_col sample_globals) /\
  bounded_column sample_file (payload_col sample_globals) /\
  exists sl,
    payload_slider sample_globals = Ok sl /\
    sl_min sl = Some (round64 0) /\ sl_max sl = Some (round64 9600) /\
    sl_step sl = 1000%Z /\
    sl_marks sl = [(0%Z, "0"); (4800%Z, "4800"); (9600%Z, "9600")].
Proof.
  split; [reflexivity|]. split; [reflexivity|]. split; [reflexivity|].
  destruct (payload_slider_from_bounds sample_file [] sample_store
              sample_globals eq_refl eq_refl eq_refl) as [_ [_ H]].
  destruct (H 0 9600 eq_refl eq_refl)
    as [_ [_ [sl [Hsl [_ [Hmin [Hmax [_ [Hstep [_ [Hmarks _]]]]]]]]]]].
  exists sl. split; [exact Hsl|]. split; [exact Hmin|].
  split; [exact Hmax|]. split; [exact Hstep|].
  rewrite Hmarks. reflexivity.
Defined.

Lemma callbacks_leave_table_unchanged_sample :
  nth_error sample_store (spacex_df sample_globals) = Some sample_file /\
  nth_error
    (snd (serve sample_globals
            [PieRequest "KSC LC-39A"; ScatterRequest "ALL" (Some 0, Some 5000);
             PieRequest "ALL"] sample_store))
    (spacex_df sample_globals) = Some sample_file.
Proof.
  split; [reflexivity|].
  destruct (callbacks_leave_table_unchanged sample_globals sample_store
              sample_file eq_refl) as [_ [_ H]].
  apply H.
Defined.

Lemma update_scatter_drops_missing_payload_sample :
  numeric_column sample_file (payload_col sample_globals) /\
  exists fig,
    fst (update_scatter sample_globals "ALL"
           (min_payload sample_globals, max_payload sample_globals)
           sample_store) = Ok fig /\
    ~ In CNaN (sc_x fig).
Proof.
  split; [reflexivity|].
  destruct (update_scatter_drops_missing_payload sample_globals sample_store
              sample_file "ALL" (min_payload sample_globals)
              (max_payload sample_globals)
              eq_refl eq_refl eq_refl eq_refl eq_refl eq_refl)
    as [_ [fig [Hfig [_ [_ Hx]]]]].
  exists fig. now split.
Defined.

(** * Further properties *)

(** ** The dropdown *)

Lemma unique_NoDup (s : list cell) : NoDup (unique s).
Proof.
  induction s as [|c t IH]; cbn [unique]; constructor.
  - intros H. apply filter_In in H. destruct H as [_ H].
    now rewrite cell_eqb_refl in H.
  - now apply NoDup_filter.
Qed.

Lemma unique_In (s : list cell) (v : cell) :
  In v s -> exists w, In w (unique s) /\ cell_eqb w v = true.
Proof.
  induction s as [|c t IH]; [intros []|]. cbn [unique]. intros [<-|H].
  - exists c. split; [now left | apply cell_eqb_refl].
  - destruct (IH H) as [w [Hw Hwv]].
    destruct (cell_eqb c w) eqn:E.
    + exists c. split; [now left | now apply cell_eqb_trans with w].
    + exists w. split; [|exact Hwv]. right. apply filter_In.
      split; [exact Hw | now rewrite E].
Qed.

Lemma text_eqb_eq (a b : cell) :
  is_text a = true -> cell_eqb a b = true -> a = b.
Proof.
  destruct a, b; simpl; try discriminate. intros _ H.
  apply String.eqb_eq in H. now subst.
Qed.

Lemma ltb_asym (a b : string) :
  String.ltb a b = true -> String.ltb b a = false.
Proof.
  unfold String.ltb. rewrite (String.compare_antisym b a).
  now destruct (String.compare a b).
Qed.

Lemma ltb_connex (a b : string) :
  a <> b -> String.ltb b a = false -> String.ltb a b = true.
Proof.
  unfold String.ltb. intros Hne. rewrite (String.compare_antisym b a).
  destruct (String.compare a b) eqn:E; simpl; try discriminate; auto.
  apply String.compare_eq_iff in E. contradiction.
Qed.

Lemma insert_sorted_text (x : cell) (l : list cell) :
  is_text x = true ->
  Forall (fun c => is_text c = true) l ->
  exists r, insert_sorted x l = Ok r /\ Permutation (x :: l) r /\
            Forall (fun c => is_text c = true) r /\
            (~ In x l -> Sorted cell_before l -> Sorted cell_before r).
Proof.
  intros Hx. induction l as [|y t IH]; intros Hl.
  - exists [x]. cbn [insert_sorted]. repeat split; auto.
  - inversion Hl as [|? ? Hy Ht]; subst.
    destruct (IH Ht) as [r [Hr [Hperm [Htext Hsorted]]]].
    destruct x as [a| |]; try discriminate.
    destruct y as [b| |]; try discriminate.
    cbn [insert_sorted cell_lt rbind].
    destruct (String.ltb b a) eqn:E.
    + rewrite Hr. cbn [rbind]. exists (CStr b :: r).
      split; [reflexivity|]. split; [|split].
      * rewrite perm_swap. now constructor.
      * now constructor.
      * intros Hnot Hs. inversion Hs as [|? ? Hs' Hhd]; subst.
        constructor.
        -- apply Hsorted; [|exact Hs']. intros H. apply Hnot. now right.
        -- destruct t as [|z t'].
           ++ cbn [insert_sorted] in Hr. inversion Hr; subst.
              constructor. unfold cell_before. cbn [cell_lt]. now rewrite E.
           ++ cbn [insert_sorted] in Hr.
              destruct (cell_lt z (CStr a)) as [[|]|] eqn:Ez;
                cbn [rbind] in Hr; try discriminate.
              ** destruct (insert_sorted (CStr a) t'); cbn [rbind] in Hr;
                   try discriminate.
                 inversion Hr; subst. constructor.
                 now inversion Hhd.
              ** inversion Hr; subst. constructor.
                 unfold cell_before. cbn [cell_lt]. now rewrite E.
    + exists (CStr a :: CStr b :: t).
      split; [reflexivity|]. split; [reflexivity|]. split.
      * constructor; [reflexivity | exact Hl].
      * intros Hnot Hs. constructor; [exact Hs|]. constructor.
        unfold cell_before. cbn [cell_lt]. f_equal.
        apply ltb_connex; [|exact E]. intros ->. apply Hnot. now left.
Qed.

Lemma py_sorted_text (l : list cell) :
  Forall (fun c => is_text c = true) l ->
  exists r, py_sorted l = Ok r /\ Permutation l r /\
            Forall (fun c => is_text c = true) r /\
            (NoDup l -> Sorted cell_before r).
Proof.
  induction l as [|x t IH]; intros Hl.
  - exists []. repeat split; auto.
  - inversion Hl as [|? ? Hx Ht]; subst.
    destruct (IH Ht) as [s [Hs [Hperm [Htext Hsorted]]]].
    destruct (insert_sorted_text x s Hx Htext) as [r [Hr [Hp [Hrt Hrs]]]].
    exists r. cbn [py_sorted]. rewrite Hs. cbn [rbind].
    split; [exact Hr|]. split; [|split; [exact Hrt|]].
    + rewrite <- Hp. now constructor.
    + intros Hnd. inversion Hnd as [|? ? Hnotin Hnd']; subst.
      apply Hrs; [|now apply Hsorted].
      intros H. apply Hnotin. now apply (Permutation_in _ (Permutation_sym Hperm)).
Qed.

Lemma text_column_cells (df : DataFrame) (name : string) :
  text_column df name ->
  Forall (fun c => is_text c = true) (map (field df name) (rows df)).
Proof.
  unfold text_column. rewrite forallb_forall. intros H.
  apply Forall_forall. intros c Hc. apply in_map_iff in Hc.
  destruct Hc as [r [<- Hr]]. now apply H.
Qed.

Lemma unique_text (s : list cell) :
  Forall (fun c => is_text c = true) s ->
  Forall (fun c => is_text c = true) (unique s).
Proof.
  rewrite !Forall_forall. intros H c Hc. apply H. now apply In_unique.
Qed.

Lemma layout_run (g : globals) (h : store) (df : DataFrame)
  (sorted : list cell) (sl : RangeSlider) :
  nth_error h (spacex_df g) = Some df ->
  has_column (site_col g) (columns df) = true ->
  py_sorted (unique (map (field df (site_col g)) (rows df))) = Ok sorted ->
  payload_slider g = Ok sl ->
  layout g h =
  (Ok {| dropdown_options := all_sites_option :: map site_option sorted;
         dropdown_value := "ALL";
         slider := sl |}, h).
Proof.
  intros Hdf Hsite Hsorted Hsl. unfold layout. run_ops.
  rewrite (nth_of_nth_error _ _ _ Hdf), (getitem_field _ _ Hsite).
  cbv beta iota. rewrite Hsorted, Hsl. reflexivity.
Qed.


Lemma sorted_sites_spec (g : globals) (df : DataFrame) :
  text_column df (site_col g) ->
  exists sorted,
    py_sorted (unique (map (field df (site_col g)) (rows df))) = Ok sorted /\
    Sorted cell_before sorted /\
    NoDup sorted /\
    forall c, In c sorted <->
              exists r, In r (rows df) /\ field df (site_col g) r = c.
Proof.
  intros Htext.
  set (sites := map (field df (site_col g)) (rows df)).
  assert (Hcells := text_column_cells df _ Htext). fold sites in Hcells.
  destruct (py_sorted_text (unique sites) (unique_text _ Hcells))
    as [sorted [Hsorted [Hperm [_ Hord]]]].
  exists sorted. split; [exact Hsorted|].
  split; [apply Hord, unique_NoDup|]. split.
  - apply (Permutation_NoDup Hperm), unique_NoDup.
  - intros c. split.
    + intros Hc. apply (Permutation_in _ (Permutation_sym Hperm)) in Hc.
      apply In_unique in Hc. unfold sites in Hc.
      apply in_map_iff in Hc. destruct Hc as [r [E Hr]]. now exists r.
    + intros [r [Hr E]]. apply (Permutation_in _ Hperm).
      assert (Hin : In c sites) by (rewrite <- E; now apply in_map).
      destruct (unique_In sites c Hin) as [w [Hw Hwc]].
      assert (Hwt : is_text w = true).
      { apply (proj1 (Forall_forall _ _) (unique_text _ Hcells)); auto. }
      now rewrite <- (text_eqb_eq w c Hwt Hwc).
Qed.


Lemma py_sorted_other (l : list cell) :
  Forall (fun c => is_text c = false) l ->
  exists r, py_sorted l = Ok r /\ Permutation l r /\
            Forall (fun c => is_text c = false) r.
Proof.
  assert (Hins : forall x s, is_text x = false ->
            Forall (fun c => is_text c = false) s ->
            exists r, insert_sorted x s = Ok r /\ Permutation (x :: s) r /\
                      Forall (fun c => is_text c = false) r).
  { intros x s Hx. induction s as [|y t IH]; intros Hs.
    - exists [x]. repeat split; auto.
    - inversion Hs as [|? ? Hy Ht]; subst.
      destruct (IH Ht) as [r [Hr [Hp Hf]]].
      cbn [insert_sorted].
      assert (Hlt : exists b, cell_lt y x = Ok b).
      { destruct y, x; try discriminate; cbn [cell_lt]; eauto. }
      destruct Hlt as [b Hb]. rewrite Hb. cbn [rbind]. destruct b.
      + rewrite Hr. cbn [rbind]. exists (y :: r). split; [reflexivity|].
        split; [rewrite perm_swap; now constructor | now constructor].
      + exists (x :: y :: t). repeat split; auto. }
  induction l as [|x t IH]; intros Hl.
  - exists []. repeat split; auto.
  - inversion Hl as [|? ? Hx Ht]; subst.
    destruct (IH Ht) as [s [Hs [Hperm Hf]]].
    destruct (Hins x s Hx Hf) as [r [Hr [Hp Hrf]]].
    exists r. cbn [py_sorted]. rewrite Hs. cbn [rbind].
    split; [exact Hr|]. split; [|exact Hrf].
    rewrite <- Hp. now constructor.
Qed.

Lemma py_sorted_mixed (l : list cell) :
  existsb is_text l = true ->
  existsb (fun c => negb (is_text c)) l = true ->
  py_sorted l = Err TypeError.
Proof.
  induction l as [|x t IH]; [discriminate|].
  cbn [existsb py_sorted]. intros H1 H2.
  destruct (existsb is_text t) eqn:Ht;
    destruct (existsb (fun c => negb (is_text c)) t) eqn:Ho.
  - now rewrite IH.
  - (* [t] is all text and [x] is not *)
    rewrite orb_false_r in H2. apply negb_true_iff in H2.
    assert (Hall : Forall (fun c => is_text c = true) t).
    { apply Forall_forall. intros c Hc.
      destruct (is_text c) eqn:E; [reflexivity|].
      assert (existsb (fun c => negb (is_text c)) t = true).
      { apply existsb_exists. exists c. now rewrite E. }
      congruence. }
    destruct (py_sorted_text t Hall) as [s [Hs [Hperm [Hst _]]]].
    rewrite Hs. cbn [rbind].
    destruct s as [|y s'].
    + apply Permutation_sym, Permutation_nil in Hperm. subst. discriminate.
    + inversion Hst; subst. cbn [insert_sorted].
      destruct y, x; try discriminate; reflexivity.
  - (* [t] holds no text and [x] is text *)
    rewrite orb_false_r in H1.
    assert (Hall : Forall (fun c => is_text c = false) t).
    { apply Forall_forall. intros c Hc.
      destruct (is_text c) eqn:E; [|reflexivity].
      assert (existsb is_text t = true).
      { apply existsb_exists. now exists c. }
      congruence. }
    destruct (py_sorted_other t Hall) as [s [Hs [Hperm Hst]]].
    rewrite Hs. cbn [rbind].
    destruct s as [|y s'].
    + apply Permutation_sym, Permutation_nil in Hperm. subst. discriminate.
    + inversion Hst; subst. cbn [insert_sorted].
      destruct y, x; try discriminate; reflexivity.
  - rewrite orb_false_r in H1, H2. rewrite H1 in H2. discriminate.
Qed.

Lemma cell_eqb_is_text (a b : cell) :
  cell_eqb a b = true -> is_text a = is_text b.
Proof. destruct a, b; simpl; auto; discriminate. Qed.

Lemma unique_existsb (p : cell -> bool) (s : list cell) :
  (forall a b, cell_eqb a b = true -> p a = p b) ->
  existsb p s = true -> existsb p (unique s) = true.
Proof.
  intros Hp H. apply existsb_exists in H. destruct H as [c [Hc Hpc]].
  destruct (unique_In s c Hc) as [w [Hw Hwc]].
  apply existsb_exists. exists w. split; [exact Hw|].
  now rewrite (Hp w c Hwc).
Qed.

Lemma existsb_map {A B : Type} (f : A -> B) (p : B -> bool) (l : list A) :
  existsb p (map f l) = existsb (fun a => p (f a)) l.
Proof. induction l as [|a l IH]; simpl; [reflexivity | now rewrite IH]. Qed.

(** X2.  A site column that holds text in one row and a missing value or a
    number in another ends start-up: sorting the sites for the dropdown
    raises [TypeError], after loading has succeeded, and nothing is
    served. *)
Theorem mixed_site_column_ends_startup :
  forall (file : DataFrame) (h0 h : store) (g : globals),
    loader file h0 = (Ok g, h) ->
    has_column (site_col g) (columns file) = true ->
    mixed_column file (site_col g) ->
    startup file h0 = (Err TypeError, h).
Proof.
  intros file h0 h g Hload Hsite [Htext Hother].
  destruct (loader_inv file h0 h g Hload) as [_ [_ [Hdf _]]].
  unfold startup, bind. rewrite Hload.
  unfold layout. run_ops.
  rewrite (nth_of_nth_error _ _ _ Hdf), (getitem_field _ _ Hsite).
  cbv beta iota. rewrite py_sorted_mixed; [reflexivity| |].
  - apply unique_existsb; [apply cell_eqb_is_text|].
    now rewrite existsb_map.
  - apply unique_existsb.
    + intros a b Hab. now rewrite (cell_eqb_is_text a b Hab).
    + now rewrite existsb_map.
Qed.

Lemma loader_bounds (file : DataFrame) (h0 h : store) (g : globals) :
  loader file h0 = (Ok g, h) ->
  match min_payload g, max_payload g with
  | Some lo, Some hi =>
      lo <= hi /\
      forall r q, In r (rows file) ->
                  field file (payload_col g) r = CNum q -> lo <= q /\ q <= hi
  | None, None => no_numbers file (payload_col g)
  | _, _ => False
  end.
Proof.
  intros Hload.
  destruct (loader_inv file h0 h g Hload)
    as [_ [_ [_ [_ [_ [_ [Hmax Hmin]]]]]]].
  apply series_min_spec in Hmin. apply series_max_spec in Hmax.
  destruct (min_payload g) as [lo|], (max_payload g) as [hi|].
  - destruct Hmin as [Hlo Hmin], Hmax as [Hhi Hmax]. split.
    + now apply Hmin.
    + intros r q Hr E. split; [apply Hmin | apply Hmax];
        rewrite <- E; now apply in_map.
  - destruct Hmin as [Hlo _]. now apply Hmax in Hlo.
  - destruct Hmax as [Hhi _]. now apply Hmin in Hhi.
  - unfold no_numbers. apply forallb_forall. intros r Hr.
    destruct (field file (payload_col g) r) as [t|q|] eqn:E; try reflexivity.
    exfalso. apply (Hmin q). rewrite <- E. now apply in_map.
Qed.

Lemma no_numbers_min (df : DataFrame) (name : string) (m : pyfloat) :
  no_numbers df name ->
  series_min (map (field df name) (rows df)) = Ok m -> m = None.
Proof.
  unfold no_numbers. rewrite forallb_forall. intros Hno Hmin.
  apply series_min_spec in Hmin. destruct m as [lo|]; [|reflexivity].
  destruct Hmin as [Hin _]. apply in_map_iff in Hin.
  destruct Hin as [r [E Hr]]. specialize (Hno r Hr).
  rewrite E in Hno. discriminate.
Qed.

(** X3.  A table whose payload column is numeric and holds no number, only
    missing values or no row at all, is loaded, with NaN for both bounds,
    and then start-up ends while the slider marks are built: [int] of NaN
    raises [ValueError]. *)
Theorem table_without_payload_ends_startup :
  forall (file : DataFrame) (h0 h : store) (g : globals),
    loader file h0 = (Ok g, h) ->
    numeric_column file (payload_col g) ->
    has_column (site_col g) (columns file) = true ->
    text_column file (site_col g) ->
    no_numbers file (payload_col g) ->
    min_payload g = None /\
    max_payload g = None /\
    startup file h0 =
      (Err (ValueError "cannot convert float NaN to integer" []), h).
Proof.
  intros file h0 h g Hload Hnum Hsite Htext Hno.
  assert (Hb := loader_bounds file h0 h g Hload).
  destruct (loader_inv file h0 h g Hload)
    as [_ [_ [Hdf [_ [_ [_ [_ Hmin]]]]]]].
  assert (Hnone := no_numbers_min file _ _ Hno Hmin).
  split; [exact Hnone|]. split.
  { rewrite Hnone in Hb. now destruct (max_payload g). }
  destruct (py_sorted_text _ (unique_text _ (text_column_cells file _ Htext)))
    as [sorted [Hsorted _]].
  unfold startup, bind. rewrite Hload.
  unfold layout. run_ops.
  rewrite (nth_of_nth_error _ _ _ Hdf), (getitem_field _ _ Hsite).
  cbv beta iota. rewrite Hsorted.
  now rewrite (payload_slider_without_numbers g Hnone).
Qed.

(** ** The bounds and the marks *)

(** X4.  After the load of a table with a numeric payload column the two
    bounds are either both NaN, which happens exactly when the column holds
    no number, or both numbers with min <= max, and then every payload
    number of the table lies between them. *)
Theorem loaded_bounds_enclose_every_payload :
  forall (file : DataFrame) (h0 h : store) (g : globals),
    loader file h0 = (Ok g, h) ->
    numeric_column file (payload_col g) ->
    (min_payload g = None <-> max_payload g = None) /\
    (min_payload g = None <-> no_numbers file (payload_col g)) /\
    forall lo hi, min_payload g = Some lo -> max_payload g = Some hi ->
      lo <= hi /\
      forall r q, In r (rows file) ->
                  field file (payload_col g) r = CNum q -> lo <= q /\ q <= hi.
Proof.
  intros file h0 h g Hload Hnum.
  assert (Hb := loader_bounds file h0 h g Hload).
  destruct (loader_inv file h0 h g Hload)
    as [_ [_ [_ [_ [_ [_ [_ Hmin]]]]]]].
  destruct (min_payload g) as [lo|] eqn:Elo,
           (max_payload g) as [hi|] eqn:Ehi; try contradiction.
  - split; [split; discriminate|]. split.
    + split; [discriminate|]. intros Hno.
      now apply (no_numbers_min file _ _ Hno) in Hmin.
    + intros lo' hi' E1 E2. inversion E1; inversion E2; subst. exact Hb.
  - split; [tauto|]. split; [tauto|]. discriminate.
Qed.

Lemma truncate_floor (q : Q) : (0 <= Qnum q)%Z -> truncate q = Qfloor q.
Proof.
  destruct q as [n d]. cbn [Qnum]. intros H. unfold truncate.
  cbn [Qnum Qden Qfloor]. apply Z.quot_div_nonneg; lia.
Qed.

Lemma truncate_ceiling (q : Q) : (Qnum q <= 0)%Z -> truncate q = Qceiling q.
Proof.
  destruct q as [n d]. cbn [Qnum]. intros H. unfold truncate, Qceiling.
  cbn [Qnum Qden Qopp Qfloor].
  rewrite <- (Z.opp_involutive n) at 1. rewrite Z.quot_opp_l by lia.
  f_equal. apply Z.quot_div_nonneg; lia.
Qed.

Lemma truncate_le (a b : Q) : a <= b -> (truncate a <= truncate b)%Z.
Proof.
  intros Hab.
  destruct (Z_le_gt_dec 0 (Qnum a)) as [Ha|Ha].
  - assert (Hb : (0 <= Qnum b)%Z).
    { unfold Qle in Hab. destruct a as [n1 d1], b as [n2 d2].
      cbn [Qnum Qden] in *. nia. }
    rewrite (truncate_floor a Ha), (truncate_floor b Hb).
    now apply Qfloor_resp_le.
  - destruct (Z_le_gt_dec (Qnum b) 0) as [Hb|Hb].
    + rewrite (truncate_ceiling a), (truncate_ceiling b) by lia.
      now apply Qceiling_resp_le.
    + rewrite (truncate_ceiling a), (truncate_floor b) by lia.
      apply Z.le_trans with 0%Z.
      * change 0%Z with (Qceiling 0). apply Qceiling_resp_le.
        unfold Qle. destruct a as [n1 d1]. cbn [Qnum Qden] in *. lia.
      * change 0%Z with (Qfloor 0). apply Qfloor_resp_le.
        unfold Qle. destruct b as [n2 d2]. cbn [Qnum Qden] in *. lia.
Qed.

Lemma three_marks (k1 k2 k3 : Z) (v1 v2 v3 : string) :
  (k1 <= k2)%Z -> (k2 <= k3)%Z ->
  let marks := dict_set k3 v3 (dict_set k2 v2 [(k1, v1)]) in
  Sorted Z.lt (map fst marks) /\
  (1 <= List.length marks <= 3)%nat /\
  (k1 = k3 -> marks = [(k1, v3)]).
Proof.
  intros H12 H23. cbn [dict_set].
  destruct (Z.eqb k1 k2) eqn:E12; cbn [dict_set].
  - apply Z.eqb_eq in E12. subst k2.
    destruct (Z.eqb k1 k3) eqn:E13; cbn [map fst List.length].
    + repeat split; auto; lia.
    + apply Z.eqb_neq in E13. split; [|split; [lia | contradiction]].
      repeat constructor. lia.
  - apply Z.eqb_neq in E12.
    destruct (Z.eqb k1 k3) eqn:E13.
    + apply Z.eqb_eq in E13. lia.
    + cbn [dict_set]. apply Z.eqb_neq in E13.
      destruct (Z.eqb k2 k3) eqn:E23; cbn [map fst List.length].
      * split; [|split; [lia | contradiction]]. repeat constructor. lia.
      * apply Z.eqb_neq in E23.
        split; [|split; [lia | contradiction]]. repeat constructor; lia.
Qed.

Lemma loaded_bounds_float (file : DataFrame) (h0 h : store) (g : globals)
  (lo hi : Q) :
  loader file h0 = (Ok g, h) ->
  float_column file (payload_col g) ->
  min_payload g = Some lo -> max_payload g = Some hi ->
  round64 lo == lo /\ round64 hi == hi /\ lo <= hi.
Proof.
  intros Hload Hfl Hlo Hhi.
  assert (Hb := loader_bounds file h0 h g Hload).
  rewrite Hlo, Hhi in Hb. destruct Hb as [Hle _].
  destruct (loader_inv file h0 h g Hload)
    as [_ [_ [_ [_ [_ [_ [Hmax Hmin]]]]]]].
  apply series_min_spec in Hmin. apply series_max_spec in Hmax.
  rewrite Hlo in Hmin. rewrite Hhi in Hmax.
  destruct Hmin as [Hmin _], Hmax as [Hmax _].
  apply in_map_iff in Hmin, Hmax.
  destruct Hmin as [r1 [E1 Hr1]], Hmax as [r2 [E2 Hr2]].
  split; [|split; [|exact Hle]]; apply is_float64_spec.
  - exact (float_cell _ _ _ _ Hfl Hr1 E1).
  - exact (float_cell _ _ _ _ Hfl Hr2 E2).
Qed.

(** X5.  For a loaded table whose payload numbers are float64 values below
    2^62 in magnitude, the midpoint (min + max) / 2 that float64 gives
    lies between the bounds, and the marks of the slider come in strictly
    ascending order of position, int(min) <= int(midpoint) <= int(max),
    with one mark per position: three marks, or fewer when positions
    coincide, and a single mark when the minimum and the maximum truncate
    to the same integer. *)
Theorem slider_marks_ascend :
  forall (file : DataFrame) (h0 h : store) (g : globals) (lo hi : Q),
    loader file h0 = (Ok g, h) ->
    numeric_column file (payload_col g) ->
    float_column file (payload_col g) ->
    bounded_column file (payload_col g) ->
    min_payload g = Some lo ->
    max_payload g = Some hi ->
    let mid := round64 (round64 (lo + hi) / 2) in
    exists sl,
      payload_slider g = Ok sl /\
      lo <= mid /\ mid <= hi /\
      (truncate lo <= truncate mid)%Z /\
      (truncate mid <= truncate hi)%Z /\
      Sorted Z.lt (map fst (sl_marks sl)) /\
      (1 <= List.length (sl_marks sl) <= 3)%nat /\
      (truncate lo = truncate hi ->
       sl_marks sl = [(truncate lo, py_str (truncate lo))]).
Proof.
  intros file h0 h g lo hi Hload Hnum Hfl Hbound Hlo Hhi mid.
  destruct (loaded_bounds_float file h0 h g lo hi Hload Hfl Hlo Hhi)
    as [Flo [Fhi Hle]].
  destruct (float_midpoint_between lo hi Flo Fhi Hle) as [M1 M2].
  fold mid in M1, M2.
  assert (H1 := truncate_le _ _ M1). assert (H2 := truncate_le _ _ M2).
  exists {| sl_min := Some (round64 lo); sl_max := Some (round64 hi);
            sl_step := 1000;
            sl_value := (Some (round64 lo), Some (round64 hi));
            sl_marks :=
              dict_set (truncate hi) (py_str (truncate hi))
                (dict_set (truncate mid) (py_str (truncate mid))
                   [(truncate lo, py_str (truncate lo))]);
            sl_allowCross := false |}.
  split.
  - unfold payload_slider. rewrite Hlo, Hhi. reflexivity.
  - cbn [sl_marks]. split; [exact M1|]. split; [exact M2|].
    split; [exact H1|]. split; [exact H2|].
    destruct (three_marks (truncate lo) (truncate mid)
                (truncate hi) (py_str (truncate lo))
                (py_str (truncate mid)) (py_str (truncate hi))
                H1 H2) as [Hs [Hlen Hone]].
    split; [exact Hs|]. split; [exact Hlen|].
    intros E. rewrite (Hone E). now rewrite E.
Qed.

(** ** More on the scatter chart *)

(** X6.  The scatter chart is drawn from the kept rows alone: payload on x,
    outcome flag on y, booster category as colour and site as hover detail,
    one entry per kept row and in the order of the rows; its title ends in
    "All Sites" or in the selected site, the y axis has the ticks 0 and 1
    and the two axis titles are fixed. *)
Theorem update_scatter_encodes_kept_rows :
  forall (g : globals) (h : store) (df : DataFrame) (site : string)
         (low high : pyfloat),
    nth_error h (spacex_df g) = Some df ->
    has_column (payload_col g) (columns df) = true ->
    has_column (site_col g) (columns df) = true ->
    has_column "class" (columns df) = true ->
    has_column (booster_col g) (columns df) = true ->
    numeric_column df (payload_col g) ->
    exists fig,
      fst (update_scatter g site (low, high) h) = Ok fig /\
      sc_x fig = map (field df (payload_col g)) (rows (sc_data fig)) /\
      sc_y fig = map (field df "class") (rows (sc_data fig)) /\
      sc_color fig = map (field df (booster_col g)) (rows (sc_data fig)) /\
      sc_hover fig = [map (field df (site_col g)) (rows (sc_data fig))] /\
      sc_title fig =
        scatter_title (if String.eqb site "ALL" then "All Sites" else site) /\
      sc_y_tickvals fig = [0%Z; 1%Z] /\
      sc_y_title fig = "Launch Outcome (class)" /\
      sc_x_title fig = "Payload Mass (kg)".
Proof.
  intros g h df site low high Hdf Hpay Hsite Hclass Hboost Hnum.
  eexists. split.
  - apply (update_scatter_run g h df site low high
             Hdf Hpay Hsite Hclass Hboost Hnum).
  - cbn [sc_data sc_x sc_y sc_color sc_hover sc_title sc_y_tickvals
         sc_y_title sc_x_title rows]. repeat split.
Qed.

Lemma kept_site_of_all (g : globals) (df : DataFrame) (site : string)
  (low high : pyfloat) :
  String.eqb site "ALL" = false ->
  kept g df site low high =
  filter (fun r => eq_str site (field df (site_col g) r))
    (kept g df "ALL" low high).
Proof.
  intros Hsel. unfold kept. rewrite filter_twice. apply filter_ext.
  intros r. unfold site_matches. rewrite Hsel. cbn [String.eqb orb].
  now rewrite andb_true_r.
Qed.

(** X7.  Selecting a site restricts what "ALL" shows: for the same payload
    range the rows of the chart of a site are the rows of the chart of all
    sites that carry this site, in the same order. *)
Theorem scatter_of_site_restricts_scatter_of_all :
  forall (g : globals) (h : store) (df : DataFrame) (site : string)
         (low high : pyfloat),
    site <> "ALL" ->
    nth_error h (spacex_df g) = Some df ->
    has_column (payload_col g) (columns df) = true ->
    has_column (site_col g) (columns df) = true ->
    has_column "class" (columns df) = true ->
    has_column (booster_col g) (columns df) = true ->
    numeric_column df (payload_col g) ->
    exists fig_all fig_site,
      fst (update_scatter g "ALL" (low, high) h) = Ok fig_all /\
      fst (update_scatter g site (low, high) h) = Ok fig_site /\
      rows (sc_data fig_site) =
        filter (fun r => eq_str site (field df (site_col g) r))
          (rows (sc_data fig_all)).
Proof.
  intros g h df site low high Hsel Hdf Hpay Hsite Hclass Hboost Hnum.
  apply String.eqb_neq in Hsel.
  eexists. eexists. split; [|split].
  - apply (update_scatter_run g h df "ALL" low high
             Hdf Hpay Hsite Hclass Hboost Hnum).
  - apply (update_scatter_run g h df site low high
             Hdf Hpay Hsite Hclass Hboost Hnum).
  - cbn [sc_data rows]. now apply kept_site_of_all.
Qed.

Lemma in_range_narrow (low high low' high' : Q) (c : cell) :
  low' <= low -> high <= high' ->
  in_range (Some low) (Some high) c = true ->
  in_range (Some low') (Some high') c = true.
Proof.
  intros Hl Hh. destruct c as [t|q|]; try discriminate.
  rewrite !in_range_num. intros [H1 H2]. split.
  - apply Qle_trans with (round64 low); [now apply round64_mono | exact H1].
  - apply Qle_trans with (round64 high); [exact H2 | now apply round64_mono].
Qed.

(** X8.  Narrowing the payload range only removes rows: the chart for a
    range inside another shows the rows of the wider chart that pass the
    test of the narrower range, in the same order. *)
Theorem narrower_range_restricts_scatter :
  forall (g : globals) (h : store) (df : DataFrame) (site : string)
         (low high low' high' : Q),
    low' <= low -> high <= high' ->
    nth_error h (spacex_df g) = Some df ->
    has_column (payload_col g) (columns df) = true ->
    has_column (site_col g) (columns df) = true ->
    has_column "class" (columns df) = true ->
    has_column (booster_col g) (columns df) = true ->
    numeric_column df (payload_col g) ->
    exists wide narrow,
      fst (update_scatter g site (Some low', Some high') h) = Ok wide /\
      fst (update_scatter g site (Some low, Some high) h) = Ok narrow /\
      rows (sc_data narrow) =
        filter (fun r => in_range (Some low) (Some high)
                           (field df (payload_col g) r))
          (rows (sc_data wide)) /\
      forall r, In r (rows (sc_data narrow)) -> In r (rows (sc_data wide)).
Proof.
  intros g h df site low high low' high' Hl Hh
         Hdf Hpay Hsite Hclass Hboost Hnum.
  assert (E : kept g df site (Some low) (Some high) =
              filter (fun r => in_range (Some low) (Some high)
                                 (field df (payload_col g) r))
                (kept g df site (Some low') (Some high'))).
  { unfold kept. rewrite filter_twice. apply filter_ext. intros r.
    destruct (in_range (Some low) (Some high) (field df (payload_col g) r))
      eqn:Ein.
    - rewrite (in_range_narrow low high low' high' _ Hl Hh Ein).
      cbn [andb]. now rewrite andb_true_r.
    - cbn [andb]. now rewrite andb_false_r. }
  eexists. eexists. split; [|split; [|split]].
  - apply (update_scatter_run g h df site (Some low') (Some high')
             Hdf Hpay Hsite Hclass Hboost Hnum).
  - apply (update_scatter_run g h df site (Some low) (Some high)
             Hdf Hpay Hsite Hclass Hboost Hnum).
  - cbn [sc_data rows]. exact E.
  - cbn [sc_data rows]. intros r Hr. rewrite E in Hr.
    now apply filter_In in Hr.
Qed.

(** X9.  A range whose ends are crossed (high < low, as the float64 values
    that are compared) or whose end is NaN keeps no row: the scatter chart
    is empty, and no error is raised. *)
Theorem crossed_or_nan_range_gives_empty_scatter :
  forall (g : globals) (h : store) (df : DataFrame) (site : string)
         (low high : pyfloat),
    nth_error h (spacex_df g) = Some df ->
    has_column (payload_col g) (columns df) = true ->
    has_column (site_col g) (columns df) = true ->
    has_column "class" (columns df) = true ->
    has_column (booster_col g) (columns df) = true ->
    numeric_column df (payload_col g) ->
    (low = None \/ high = None \/
     exists l hi, low = Some l /\ high = Some hi /\
                  round64 hi < round64 l) ->
    exists fig,
      fst (update_scatter g site (low, high) h) = Ok fig /\
      rows (sc_data fig) = [] /\ sc_x fig = [] /\ sc_y fig = [].
Proof.
  intros g h df site low high Hdf Hpay Hsite Hclass Hboost Hnum Hrange.
  assert (E : kept g df site low high = []).
  { apply filter_nothing. intros r _. apply andb_false_iff. left.
    unfold in_range, ge_test, le_test.
    destruct (field df (payload_col g) r) as [t|q|]; try reflexivity.
    destruct Hrange as [->|[->|[l [hi [-> [-> Hlt]]]]]].
    - reflexivity.
    - apply andb_false_r.
    - destruct (Qle_bool (round64 l) (round64 q)) eqn:E1; [|reflexivity].
      destruct (Qle_bool (round64 q) (round64 hi)) eqn:E2; [|reflexivity].
      apply Qle_bool_iff in E1, E2. exfalso.
      apply (Qlt_irrefl (round64 l)).
      apply Qle_lt_trans with (round64 hi); [|exact Hlt].
      now apply Qle_trans with (round64 q). }
  eexists. split.
  - apply (update_scatter_run g h df site low high
             Hdf Hpay Hsite Hclass Hboost Hnum).
  - cbn [sc_data sc_x sc_y rows]. rewrite E. repeat split.
Qed.

(** ** More on the pie charts *)

Lemma sum_cells_counts (vc : list (cell * nat)) :
  sum_cells (map (fun e => num_of_nat (snd e)) vc) ==
  inject_Z (Z.of_nat (total vc (fun _ => true))).
Proof.
  induction vc as [|e vc IH]; [reflexivity|].
  cbn [map sum_cells total]. rewrite IH, Nat2Z.inj_add, inject_Z_plus.
  reflexivity.
Qed.

Lemma eq_num_present (n : Q) (s : list cell) :
  filter (eq_num n) (filter (fun c => negb (is_nan c)) s) =
  filter (eq_num n) s.
Proof.
  rewrite filter_twice. apply filter_ext. intros c. now destruct c.
Qed.

Lemma outcome_label_cases (c : cell) :
  outcome_label c = success_label \/ outcome_label c = failure_label \/
  outcome_label c = CNaN.
Proof.
  destruct c as [t|q|]; cbn [outcome_label]; auto.
  destruct (Qeq_bool q 1); auto. destruct (Qeq_bool q 0); auto.
Qed.

(** X10.  Whatever the outcome flags are, the pie chart of a site counts
    each row of the site whose flag is present exactly once: the counts add
    up to the number of these rows, the slice "Success (1)" has the number
    of rows with flag 1, the slice "Failure (0)" those with flag 0, and a
    flag other than 0 and 1 gets a missing label.  Rows with a missing flag
    are counted nowhere. *)
Theorem pie_of_site_counts_present_flags :
  forall (g : globals) (h : store) (df : DataFrame) (site : string),
    site <> "ALL" ->
    nth_error h (spacex_df g) = Some df ->
    has_column "class" (columns df) = true ->
    has_column (site_col g) (columns df) = true ->
    exists fig,
      fst (get_pie_chart g site h) = Ok fig /\
      sum_cells (pie_counts fig) ==
        inject_Z (Z.of_nat (List.length
          (filter (fun r => negb (is_nan (field df "class" r)))
             (rows_of_site g df site)))) /\
      slice_size fig success_label ==
        inject_Z (Z.of_nat (List.length
          (filter (fun r => eq_num 1 (field df "class" r))
             (rows_of_site g df site)))) /\
      slice_size fig failure_label ==
        inject_Z (Z.of_nat (List.length
          (filter (fun r => eq_num 0 (field df "class" r))
             (rows_of_site g df site)))) /\
      forall l, In l (pie_names fig) ->
                l = success_label \/ l = failure_label \/ l = CNaN.
Proof.
  intros g h df site Hsel Hdf Hclass Hsite.
  apply String.eqb_neq in Hsel.
  eexists. split; [apply (pie_site_run g h df site Hsel Hdf Hclass Hsite)|].
  set (rs := rows_of_site g df site).
  set (cls := map (field df "class") rs).
  unfold slice_size, pie_counts. cbn [pie_values pie_names].
  assert (Hslice : forall (label : cell) (n : Q),
    (forall c, cell_eqb label (outcome_label c) = eq_num n c) ->
    sum_values label (map (fun e => outcome_label (fst e)) (value_counts cls))
      (map (fun e => num_of_nat (snd e)) (value_counts cls)) ==
    inject_Z (Z.of_nat (List.length
      (filter (fun r => eq_num n (field df "class" r)) rs)))).
  { intros label n Hl. rewrite sum_values_total.
    rewrite (value_counts_total cls).
    - rewrite (filter_ext _ (eq_num n)) by (intros c; apply Hl).
      rewrite eq_num_present. unfold cls. now rewrite length_filter_map.
    - intros a b Hab. rewrite !Hl. now apply eq_num_respects. }
  split; [|split; [|split]].
  - rewrite sum_cells_counts, (value_counts_total cls) by (intros a b _; auto).
    rewrite (filter_all (fun _ => true)) by auto.
    unfold cls. now rewrite length_filter_map.
  - apply (Hslice success_label 1). apply success_label_spec.
  - apply (Hslice failure_label 0). apply failure_label_spec.
  - intros l Hl. apply in_map_iff in Hl. destruct Hl as [e [<- _]].
    apply outcome_label_cases.
Qed.

Lemma insert_desc_Sorted (x : cell * nat) (l : list (cell * nat)) :
  Sorted (fun a b => (snd b <= snd a)%nat) l ->
  Sorted (fun a b => (snd b <= snd a)%nat) (insert_desc x l).
Proof.
  induction l as [|y t IH]; intros Hs; cbn [insert_desc].
  - repeat constructor.
  - destruct (Nat.leb (snd y) (snd x)) eqn:E.
    + apply Nat.leb_le in E. constructor; [exact Hs|]. now constructor.
    + apply Nat.leb_gt in E. inversion Hs as [|? ? Hs' Hhd]; subst.
      constructor; [now apply IH|].
      destruct t as [|z t']; cbn [insert_desc].
      * constructor. lia.
      * destruct (Nat.leb (snd z) (snd x)); constructor;
          [lia | now inversion Hhd].
Qed.

Lemma sort_desc_Sorted (l : list (cell * nat)) :
  Sorted (fun a b => (snd b <= snd a)%nat) (sort_desc l).
Proof.
  induction l as [|x l IH]; [constructor|].
  unfold sort_desc in *. cbn [fold_right]. now apply insert_desc_Sorted.
Qed.

Lemma count_cell_positive (c : cell) (s : list cell) :
  In c s -> (1 <= count_cell c s)%nat.
Proof.
  unfold count_cell. induction s as [|x t IH]; [intros []|].
  cbn [filter]. intros [->|H].
  - rewrite cell_eqb_refl. simpl. lia.
  - specialize (IH H). destruct (cell_eqb c x); simpl; lia.
Qed.

Lemma value_counts_positive (s : list cell) (e : cell * nat) :
  In e (value_counts s) -> (1 <= snd e)%nat.
Proof.
  unfold value_counts. rewrite In_sort_desc, in_map_iff.
  intros [v [<- Hv]]. cbn [snd]. apply count_cell_positive.
  now apply In_unique.
Qed.

Lemma Sorted_map_snd (l : list (cell * nat)) :
  Sorted (fun a b => (snd b <= snd a)%nat) l ->
  Sorted (fun a b => (b <= a)%nat) (map snd l).
Proof.
  induction 1 as [|e l Hs IH Hhd]; cbn [map]; constructor; auto.
  destruct Hhd; cbn [map]; constructor; auto.
Qed.

(** X11.  The pie chart of a site lists its buckets from the largest count
    to the smallest, one count per label, and every count is at least 1: an
    outcome that no row of the site has gets no slice at all, so a site
    whose launches all succeeded has the single slice "Success (1)". *)
Theorem pie_of_site_has_no_empty_bucket :
  forall (g : globals) (h : store) (df : DataFrame) (site : string),
    site <> "ALL" ->
    nth_error h (spacex_df g) = Some df ->
    has_column "class" (columns df) = true ->
    has_column (site_col g) (columns df) = true ->
    exists fig counts,
      fst (get_pie_chart g site h) = Ok fig /\
      pie_values fig = Some (map num_of_nat counts) /\
      List.length counts = List.length (pie_names fig) /\
      Sorted (fun a b => (b <= a)%nat) counts /\
      Forall (fun n => (1 <= n)%nat) counts.
Proof.
  intros g h df site Hsel Hdf Hclass Hsite.
  apply String.eqb_neq in Hsel.
  set (vc := value_counts
               (map (field df "class") (rows_of_site g df site))).
  eexists. exists (map snd vc).
  split; [apply (pie_site_run g h df site Hsel Hdf Hclass Hsite)|].
  cbn [pie_values pie_names]. fold vc. split; [|split; [|split]].
  - now rewrite map_map.
  - now rewrite !length_map.
  - apply Sorted_map_snd. apply sort_desc_Sorted.
  - apply Forall_forall. intros n Hn. apply in_map_iff in Hn.
    destruct Hn as [e [<- He]]. unfold vc in He.
    now apply value_counts_positive in He.
Qed.

(** X12.  The two pie charts agree: the slice "Success (1)" in the chart of
    a site has the size of the slice of that site in the chart of all
    sites. *)
Theorem pie_of_site_agrees_with_pie_of_all :
  forall (g : globals) (h : store) (df : DataFrame) (site : string),
    site <> "ALL" ->
    nth_error h (spacex_df g) = Some df ->
    has_column "class" (columns df) = true ->
    has_column (site_col g) (columns df) = true ->
    exists fig_all fig_site,
      fst (get_pie_chart g "ALL" h) = Ok fig_all /\
      fst (get_pie_chart g site h) = Ok fig_site /\
      slice_size fig_site success_label == slice_size fig_all (CStr site).
Proof.
  intros g h df site Hsel Hdf Hclass Hsite.
  apply String.eqb_neq in Hsel.
  eexists. eexists. split; [|split].
  - apply (pie_all_run g h df Hdf Hclass Hsite).
  - apply (pie_site_run g h df site Hsel Hdf Hclass Hsite).
  - unfold slice_size. cbn [pie_values pie_names].
    rewrite sum_values_total, count_cell_map_filter.
    rewrite (value_counts_total _ _
               (fun a b Hab => eq_trans (success_label_spec a)
                  (eq_trans (eq_num_respects 1 a b Hab)
                     (eq_sym (success_label_spec b))))).
    rewrite (filter_ext _ (eq_num 1)) by (intros c; apply success_label_spec).
    rewrite eq_num_present, length_filter_map.
    unfold rows_of_site. now rewrite filter_twice.
Qed.

(** X13.  The "class" column is not checked at start-up either.  In a
    table that has the other columns and lacks it, every callback fails:
    the pie chart raises [KeyError] for "class", for "ALL" and for a site
    alike, and the scatter chart is refused by the plotting call with a
    [ValueError] for "class". *)
Theorem missing_class_column_fails_every_callback :
  forall (g : globals) (h : store) (df : DataFrame),
    nth_error h (spacex_df g) = Some df ->
    has_column "class" (columns df) = false ->
    has_column (payload_col g) (columns df) = true ->
    has_column (site_col g) (columns df) = true ->
    has_column (booster_col g) (columns df) = true ->
    numeric_column df (payload_col g) ->
    (forall site, fst (get_pie_chart g site h) = Err (KeyError "class")) /\
    (forall site low high,
       fst (update_scatter g site (low, high) h) =
       Err (ValueError "class" (columns df))).
Proof.
  intros g h df Hdf Hclass Hpay Hsite _ Hnum. split.
  - intros site. unfold get_pie_chart.
    destruct (String.eqb site "ALL"); run_ops;
      rewrite (nth_of_nth_error _ _ _ Hdf).
    + now rewrite (getitem_missing _ _ Hclass).
    + rewrite (getitem_field _ _ Hsite). cbv beta iota. norm_store.
      now rewrite (getitem_missing (boolean_index df _) _ Hclass).
  - intros site low high.
    assert (Hcells := numeric_cells df _ Hnum).
    unfold update_scatter.
    destruct (String.eqb site "ALL") eqn:Hsel; cbn [negb]; run_ops;
      rewrite (nth_of_nth_error _ _ _ Hdf), (getitem_field _ _ Hpay);
      cbv beta iota;
      rewrite (series_cmp_ge low _ Hcells), (series_cmp_le high _ Hcells);
      cbv beta iota; norm_store.
    + set (d := boolean_index df _).
      now rewrite (px_column_field d _ Hpay), (px_column_missing d _ Hclass).
    + rewrite (getitem_field (boolean_index df _) _ Hsite).
      cbv beta iota. norm_store.
      set (d := boolean_index (boolean_index df _) _).
      now rewrite (px_column_field d _ Hpay), (px_column_missing d _ Hclass).
Qed.

(** ** Start-up and the first view *)

Lemma some_number_bounds (file : DataFrame) (h0 h : store) (g : globals) :
  loader file h0 = (Ok g, h) ->
  some_number file (payload_col g) ->
  exists lo hi, min_payload g = Some lo /\ max_payload g = Some hi.
Proof.
  intros Hload Hsome. assert (Hb := loader_bounds file h0 h g Hload).
  destruct (min_payload g) as [lo|], (max_payload g) as [hi|];
    try contradiction; [now exists lo, hi|].
  unfold some_number in Hsome. unfold no_numbers in Hb.
  apply existsb_exists in Hsome. destruct Hsome as [r [Hr Hn]].
  rewrite forallb_forall in Hb. specialize (Hb r Hr).
  rewrite Hn in Hb. discriminate.
Qed.

Lemma payload_slider_opens_on_bounds (g : globals) (lo hi : Q) :
  min_payload g = Some lo -> max_payload g = Some hi ->
  exists sl,
    payload_slider g = Ok sl /\
    sl_min sl = py_float (min_payload g) /\
    sl_max sl = py_float (max_payload g) /\
    sl_value sl = (py_float (min_payload g), py_float (max_payload g)) /\
    sl_step sl = 1000%Z /\
    sl_allowCross sl = false.
Proof.
  intros Hlo Hhi. unfold payload_slider. rewrite Hlo, Hhi.
  eexists. split; [reflexivity|]. repeat split.
Qed.

(** Start-up on a table with a text site column and a payload number. *)
Lemma startup_run (file : DataFrame) (h0 : store) (p : string) :
  resolve_payload (columns file) = Some p ->
  numeric_column file p ->
  some_number file p ->
  has_column (resolve_site (columns file)) (columns file) = true ->
  text_column file (resolve_site (columns file)) ->
  exists g l,
    loader file h0 = (Ok g, h0 ++ [file]) /\
    startup file h0 = (Ok (g, l), h0 ++ [file]) /\
    payload_col g = p /\
    dropdown_value l = "ALL" /\
    sl_min (slider l) = py_float (min_payload g) /\
    sl_max (slider l) = py_float (max_payload g) /\
    sl_value (slider l) =
      (py_float (min_payload g), py_float (max_payload g)) /\
    sl_step (slider l) = 1000%Z /\
    sl_allowCross (slider l) = false.
Proof.
  intros Hp Hnum Hsome Hsite Htext.
  destruct (loader_run file h0 p Hp Hnum) as [g [Hload Hpc]].
  destruct (loader_inv file h0 _ g Hload) as [_ [_ [Hdf [Hs _]]]].
  rewrite <- Hpc in Hsome. rewrite <- Hs in Hsite, Htext.
  destruct (some_number_bounds file h0 _ g Hload Hsome)
    as [lo [hi [Hlo Hhi]]].
  destruct (sorted_sites_spec g file Htext) as [sorted [Hsorted _]].
  destruct (payload_slider_opens_on_bounds g lo hi Hlo Hhi)
    as [sl [Hsl Hfields]].
  exists g. eexists. split; [exact Hload|]. split.
  - unfold startup, bind. rewrite Hload.
    rewrite (layout_run g _ file sorted sl Hdf Hsite Hsorted Hsl).
    reflexivity.
  - cbn [slider dropdown_value]. repeat split; auto; apply Hfields.
Qed.

(** C9, as stated, fails: a table with neither site name passes loading,
    but its missing column is not first met by a query.  It is met at
    start-up, when the dropdown is built from the site column: start-up ends
    with [KeyError] and no query is ever served. *)
Lemma missing_site_column_ends_startup :
  has_column "Launch Site" (columns renamed_file) = false /\
  has_column "LaunchSite" (columns renamed_file) = false /\
  exists g h,
    loader renamed_file [] = (Ok g, h) /\
    site_col g = "LaunchSite" /\
    startup renamed_file [] = (Err (KeyError "LaunchSite"), h).
Proof.
  split; [reflexivity|]. split; [reflexivity|].
  exists {| spacex_df := O; site_col := "LaunchSite";
            payload_col := "PayloadMassKg";
            booster_col := "BoosterVersionCategory";
            max_payload := Some 2500; min_payload := Some 2500 |},
         [renamed_file].
  repeat split.
Qed.

(** C9, amended.  Resolving the site and booster names cannot fail: each is
    the preferred name when the table has it and the fallback otherwise,
    whether or not the table has the fallback, and loading succeeds
    whenever the payload column resolves.  A table with neither site name
    is loaded with "LaunchSite", and start-up then ends with [KeyError]
    when the dropdown is built, before any query.  A table with neither
    booster name, a text site column, an outcome column and bounded payload
    numbers starts up, and the missing column is met by the queries of the
    scatter chart, each of which raises [ValueError]. *)
Theorem site_and_booster_are_not_validated :
  forall (file : DataFrame) (h0 : store) (p : string),
    let cols := columns file in
    resolve_payload cols = Some p ->
    numeric_column file p ->
    exists g h,
      loader file h0 = (Ok g, h) /\
      site_col g = resolve_site cols /\
      booster_col g = resolve_booster cols /\
      (has_column "Launch Site" cols = true -> site_col g = "Launch Site") /\
      (has_column "Launch Site" cols = false -> site_col g = "LaunchSite") /\
      (has_column "Booster Version Category" cols = true ->
       booster_col g = "Booster Version Category") /\
      (has_column "Booster Version Category" cols = false ->
       booster_col g = "BoosterVersionCategory") /\
      (has_column "Launch Site" cols = false ->
       has_column "LaunchSite" cols = false ->
       has_column (site_col g) cols = false /\
       startup file h0 = (Err (KeyError "LaunchSite"), h)) /\
      (has_column "Booster Version Category" cols = false ->
       has_column "BoosterVersionCategory" cols = false ->
       has_column (site_col g) cols = true ->
       has_column "class" cols = true ->
       has_column (booster_col g) cols = false /\
       (text_column file (site_col g) ->
        some_number file p ->
        bounded_column file p ->
        exists l, startup file h0 = (Ok (g, l), h)) /\
       forall site low high,
         fst (update_scatter g site (low, high) h) =
         Err (ValueError "BoosterVersionCategory" cols)).
Proof.
  intros file h0 p cols Hp Hnum.
  destruct (loader_run file h0 p Hp Hnum) as [g [Hg Hpc]].
  destruct (loader_inv file h0 _ g Hg)
    as [_ [_ [Hdf [Hs [_ [Hb _]]]]]].
  destruct (resolve_payload_present _ _ Hp) as [_ Hcol].
  exists g, (h0 ++ [file]). fold cols in Hs, Hb.
  split; [exact Hg|]. split; [exact Hs|]. split; [exact Hb|].
  rewrite Hs, Hb. unfold resolve_site, resolve_booster.
  split; [now intros ->|]. split; [now intros ->|].
  split; [now intros ->|]. split; [now intros ->|]. split.
  - intros H1 H2. rewrite H1. split; [exact H2|].
    assert (Hmiss : has_column (site_col g) (columns file) = false).
    { rewrite Hs. unfold resolve_site. fold cols. now rewrite H1. }
    assert (Hname : site_col g = "LaunchSite").
    { rewrite Hs. unfold resolve_site. fold cols. now rewrite H1. }
    unfold startup, bind. rewrite Hg.
    rewrite (layout_missing_site g _ file Hdf Hmiss). now rewrite Hname.
  - intros H1 H2 H3 H4. rewrite H1. split; [exact H2|].
    assert (Hname : booster_col g = "BoosterVersionCategory").
    { rewrite Hb. unfold resolve_booster. fold cols. now rewrite H1. }
    split.
    + intros Htext Hsome Hbound.
      destruct (startup_run file h0 p Hp Hnum Hsome H3 Htext)
        as [g' [l [Hg' [Hstart _]]]].
      rewrite Hg in Hg'. inversion Hg'; subst g'. now exists l.
    + intros site low high. rewrite <- Hname.
      apply scatter_missing_booster; auto.
      * now rewrite Hpc.
      * rewrite Hs. exact H3.
      * rewrite Hname. exact H2.
      * now rewrite Hpc.
Qed.

Lemma site_and_booster_are_not_validated_sample :
  resolve_payload (columns renamed_file) = Some "PayloadMassKg" /\
  numeric_column renamed_file "PayloadMassKg" /\
  exists g h,
    loader renamed_file [] = (Ok g, h) /\
    site_col g = "LaunchSite" /\
    has_column "LaunchSite" (columns renamed_file) = false /\
    startup renamed_file [] = (Err (KeyError "LaunchSite"), h).
Proof.
  split; [reflexivity|]. split; [reflexivity|].
  destruct (site_and_booster_are_not_validated renamed_file []
              "PayloadMassKg" eq_refl eq_refl)
    as [g [h [Hload [_ [_ [_ [Hname [_ [_ [Hsite _]]]]]]]]]].
  exists g, h. split; [exact Hload|]. split; [exact (Hname eq_refl)|].
  split; [reflexivity|].
  destruct (Hsite eq_refl eq_refl) as [_ Hstart]. exact Hstart.
Defined.

(** X14.  Start-up succeeds for a table whose payload column resolves and
    holds numbers only (or missing values), at least one of them and all
    below 2^62 in magnitude, and whose site column is there and holds
    text: the only object it creates is the table itself, and the slider
    opens on the full range, from float(min) to float(max), with step 1000
    and "ALL" selected. *)
Theorem startup_succeeds_on_launch_table :
  forall (file : DataFrame) (h0 : store) (p : string),
    resolve_payload (columns file) = Some p ->
    numeric_column file p ->
    some_number file p ->
    bounded_column file p ->
    has_column (resolve_site (columns file)) (columns file) = true ->
    text_column file (resolve_site (columns file)) ->
    exists g l,
      startup file h0 = (Ok (g, l), h0 ++ [file]) /\
      nth_error (h0 ++ [file]) (spacex_df g) = Some file /\
      payload_col g = p /\
      dropdown_value l = "ALL" /\
      sl_min (slider l) = py_float (min_payload g) /\
      sl_max (slider l) = py_float (max_payload g) /\
      sl_value (slider l) =
        (py_float (min_payload g), py_float (max_payload g)) /\
      sl_step (slider l) = 1000%Z /\
      sl_allowCross (slider l) = false.
Proof.
  intros file h0 p Hp Hnum Hsome Hbound Hsite Htext.
  destruct (startup_run file h0 p Hp Hnum Hsome Hsite Htext)
    as [g [l [Hload [Hstart Hrest]]]].
  destruct (loader_inv file h0 _ g Hload) as [_ [_ [Hdf _]]].
  exists g, l. split; [exact Hstart|]. split; [exact Hdf | exact Hrest].
Qed.

Lemma in_range_py_float (low high : pyfloat) (c : cell) :
  in_range (py_float low) (py_float high) c = in_range low high c.
Proof.
  unfold in_range, ge_test, le_test.
  destruct c as [t|q|], low as [l|], high as [hi|]; cbn [py_float];
    try reflexivity; now rewrite ?round64_idem.
Qed.

Lemma layout_slider (g : globals) (h h' : store) (l : Layout) :
  layout g h = (Ok l, h') -> payload_slider g = Ok (slider l).
Proof.
  unfold layout. run_ops. split_runs; try discriminate.
  destruct (py_sorted _); [|discriminate].
  destruct (payload_slider g) as [sl|e]; [|discriminate].
  intros H. now inversion H.
Qed.

Lemma payload_slider_value (g : globals) (sl : RangeSlider) :
  payload_slider g = Ok sl ->
  sl_value sl = (py_float (min_payload g), py_float (max_payload g)).
Proof.
  unfold payload_slider.
  destruct (py_int (min_payload g)); [|discriminate].
  destruct (py_int (fdiv _ _)); [|discriminate].
  destruct (py_int (max_payload g)); [|discriminate].
  cbn [rbind]. intros H. now inversion H.
Qed.

(** X15.  With the full range, [min, max] of the loaded table, and with the
    range the slider of the layout opens on, which is the full range as
    floats, the scatter chart keeps exactly the rows that have a payload
    number (of the selected site, when one is selected): the range itself
    removes nothing but the rows without a payload value. *)
Theorem opening_range_keeps_rows_with_payload :
  forall (file : DataFrame) (h0 h : store) (g : globals) (site : string),
    loader file h0 = (Ok g, h) ->
    has_column (site_col g) (columns file) = true ->
    has_column "class" (columns file) = true ->
    has_column (booster_col g) (columns file) = true ->
    numeric_column file (payload_col g) ->
    exists fig,
      fst (update_scatter g site (min_payload g, max_payload g) h) = Ok fig /\
      rows (sc_data fig) =
        filter (fun r => is_num (field file (payload_col g) r)
                         && site_matches g file site r) (rows file) /\
      forall l h',
        layout g h = (Ok l, h') ->
        fst (update_scatter g site (sl_value (slider l)) h) = Ok fig.
Proof.
  intros file h0 h g site Hload Hsite Hclass Hboost Hnum.
  assert (Hb := loader_bounds file h0 h g Hload).
  destruct (loader_inv file h0 h g Hload)
    as [_ [_ [Hdf [_ [Hp _]]]]].
  destruct (resolve_payload_present _ _ Hp) as [_ Hpay].
  eexists. split; [|split].
  - apply (update_scatter_run g h file site _ _
             Hdf Hpay Hsite Hclass Hboost Hnum).
  - cbn [sc_data rows]. unfold kept. apply filter_ext_in. intros r Hr.
    f_equal.
    destruct (field file (payload_col g) r) as [t|q|] eqn:E; try reflexivity.
    destruct (min_payload g) as [lo|], (max_payload g) as [hi|];
      try contradiction.
    + destruct Hb as [_ Hb]. destruct (Hb r q Hr E) as [H1 H2].
      now apply in_range_of_le.
    + unfold no_numbers in Hb. rewrite forallb_forall in Hb.
      specialize (Hb r Hr). rewrite E in Hb. discriminate.
  - intros l h' Hl.
    rewrite (payload_slider_value g _ (layout_slider g h h' l Hl)).
    rewrite (update_scatter_run g h file site _ _
               Hdf Hpay Hsite Hclass Hboost Hnum).
    unfold kept.
    rewrite (filter_ext _ _
               (fun r => f_equal (fun b => b && site_matches g file site r)
                           (in_range_py_float (min_payload g) (max_payload g)
                              (field file (payload_col g) r)))).
    reflexivity.
Qed.



(** ** The further properties on the sample tables *)


Lemma mixed_site_column_ends_startup_sample :
  mixed_column missing_site_file "Launch Site" /\
  fst (startup missing_site_file []) = Err TypeError.
Proof.
  assert (Hmixed : mixed_column missing_site_file "Launch Site")
    by (split; reflexivity).
  split; [exact Hmixed|].
  rewrite (mixed_site_column_ends_startup missing_site_file []
             [missing_site_file]
             {| spacex_df := O; site_col := "Launch Site";
                payload_col := "Payload Mass (kg)";
                booster_col := "Booster Version Category";
                max_payload := Some 2500; min_payload := Some 500 |}
             eq_refl eq_refl Hmixed).
  reflexivity.
Defined.

Lemma table_without_payload_ends_startup_sample :
  numeric_column unweighed_file "Payload Mass (kg)" /\
  text_column unweighed_file "Launch Site" /\
  no_numbers unweighed_file "Payload Mass (kg)" /\
  fst (startup unweighed_file []) =
    Err (ValueError "cannot convert float NaN to integer" []).
Proof.
  split; [reflexivity|]. split; [reflexivity|]. split; [reflexivity|].
  destruct (table_without_payload_ends_startup unweighed_file []
              [unweighed_file]
              {| spacex_df := O; site_col := "Launch Site";
                 payload_col := "Payload Mass (kg)";
                 booster_col := "Booster Version Category";
                 max_payload := None; min_payload := None |}
              eq_refl eq_refl eq_refl eq_refl eq_refl) as [_ [_ H]].
  now rewrite H.
Defined.

Lemma loaded_bounds_enclose_every_payload_sample :
  loader sample_file [] = (Ok sample_globals, sample_store) /\
  numeric_column sample_file (payload_col sample_globals) /\
  (forall r q, In r (rows sample_file) ->
               field sample_file "Payload Mass (kg)" r = CNum q ->
               0 <= q /\ q <= 9600).
Proof.
  split; [reflexivity|]. split; [reflexivity|].
  destruct (loaded_bounds_enclose_every_payload sample_file []
              sample_store sample_globals eq_refl eq_refl) as [_ [_ H]].
  destruct (H 0 9600 eq_refl eq_refl) as [_ Hall]. exact Hall.
Defined.

Lemma slider_marks_ascend_sample :
  loader sample_file [] = (Ok sample_globals, sample_store) /\
  numeric_column sample_file (payload_col sample_globals) /\
  float_column sample_file (payload_col sample_globals) /\
  bounded_column sample_file (payload_col sample_globals) /\
  exists sl,
    payload_slider sample_globals = Ok sl /\
    Sorted Z.lt (map fst (sl_marks sl)).
Proof.
  assert (Hfl : float_column sample_file (payload_col sample_globals))
    by (vm_compute; reflexivity).
  split; [reflexivity|]. split; [reflexivity|]. split; [exact Hfl|].
  split; [reflexivity|].
  destruct (slider_marks_ascend sample_file [] sample_store sample_globals
              0 9600 eq_refl eq_refl Hfl eq_refl eq_refl eq_refl)
    as [sl [Hsl [_ [_ [_ [_ [Hs _]]]]]]].
  exists sl. now split.
Defined.

Lemma update_scatter_encodes_kept_rows_sample :
  numeric_column sample_file (payload_col sample_globals) /\
  exists fig,
    fst (update_scatter sample_globals "KSC LC-39A" (Some 0, Some 9600)
           sample_store) = Ok fig /\
    sc_x fig = map (field sample_file "Payload Mass (kg)")
                 (rows (sc_data fig)) /\
    sc_y_tickvals fig = [0%Z; 1%Z].
Proof.
  split; [reflexivity|].
  destruct (update_scatter_encodes_kept_rows sample_globals sample_store
              sample_file "KSC LC-39A" (Some 0) (Some 9600)
              eq_refl eq_refl eq_refl eq_refl eq_refl eq_refl)
    as [fig [Hfig [Hx [_ [_ [_ [_ [Ht _]]]]]]]].
  exists fig. now repeat split.
Defined.

Lemma scatter_of_site_restricts_scatter_of_all_sample :
  "KSC LC-39A" <> "ALL" /\
  exists fig_all fig_site,
    fst (update_scatter sample_globals "ALL" (Some 0, Some 9600)
           sample_store) = Ok fig_all /\
    fst (update_scatter sample_globals "KSC LC-39A" (Some 0, Some 9600)
           sample_store) = Ok fig_site /\
    rows (sc_data fig_site) =
      filter (fun r => eq_str "KSC LC-39A" (field sample_file "Launch Site" r))
        (rows (sc_data fig_all)).
Proof.
  assert (Hsel : "KSC LC-39A" <> "ALL") by discriminate.
  split; [exact Hsel|].
  exact (scatter_of_site_restricts_scatter_of_all sample_globals
           sample_store sample_file "KSC LC-39A" (Some 0) (Some 9600) Hsel
           eq_refl eq_refl eq_refl eq_refl eq_refl eq_refl).
Defined.

Lemma narrower_range_restricts_scatter_sample :
  0 <= 1000 /\ 3000 <= 9600 /\
  exists wide narrow,
    fst (update_scatter sample_globals "ALL" (Some 0, Some 9600)
           sample_store) = Ok wide /\
    fst (update_scatter sample_globals "ALL" (Some 1000, Some 3000)
           sample_store) = Ok narrow /\
    forall r, In r (rows (sc_data narrow)) -> In r (rows (sc_data wide)).
Proof.
  assert (H1 : 0 <= 1000) by (unfold Qle; simpl; lia).
  assert (H2 : 3000 <= 9600) by (unfold Qle; simpl; lia).
  split; [exact H1|]. split; [exact H2|].
  destruct (narrower_range_restricts_scatter sample_globals sample_store
              sample_file "ALL" 1000 3000 0 9600 H1 H2
              eq_refl eq_refl eq_refl eq_refl eq_refl eq_refl)
    as [wide [narrow [Hw [Hn [_ Hsub]]]]].
  exists wide, narrow. now repeat split.
Defined.

Lemma crossed_or_nan_range_gives_empty_scatter_sample :
  round64 3000 < round64 5000 /\
  exists fig,
    fst (update_scatter sample_globals "ALL" (Some 5000, Some 3000)
           sample_store) = Ok fig /\
    rows (sc_data fig) = [].
Proof.
  assert (Hlt : round64 3000 < round64 5000) by (vm_compute; reflexivity).
  split; [exact Hlt|].
  destruct (crossed_or_nan_range_gives_empty_scatter sample_globals
              sample_store sample_file "ALL" (Some 5000) (Some 3000)
              eq_refl eq_refl eq_refl eq_refl eq_refl eq_refl
              (or_intror (or_intror
                 (ex_intro _ 5000 (ex_intro _ 3000
                    (conj eq_refl (conj eq_refl Hlt)))))))
    as [fig [Hfig [Hrows _]]].
  exists fig. now split.
Defined.

Lemma pie_of_site_counts_present_flags_sample :
  "CCAFS LC-40" <> "ALL" /\
  exists fig,
    fst (get_pie_chart sample_globals "CCAFS LC-40" sample_store) = Ok fig /\
    sum_cells (pie_counts fig) == 2.
Proof.
  assert (Hsel : "CCAFS LC-40" <> "ALL") by discriminate.
  split; [exact Hsel|].
  destruct (pie_of_site_counts_present_flags sample_globals sample_store
              sample_file "CCAFS LC-40" Hsel eq_refl eq_refl eq_refl)
    as [fig [Hfig [Hsum _]]].
  exists fig. split; [exact Hfig|]. rewrite Hsum. reflexivity.
Defined.

Lemma pie_of_site_has_no_empty_bucket_sample :
  "KSC LC-39A" <> "ALL" /\
  exists fig counts,
    fst (get_pie_chart sample_globals "KSC LC-39A" sample_store) = Ok fig /\
    pie_values fig = Some (map num_of_nat counts) /\
    Forall (fun n => (1 <= n)%nat) counts.
Proof.
  assert (Hsel : "KSC LC-39A" <> "ALL") by discriminate.
  split; [exact Hsel|].
  destruct (pie_of_site_has_no_empty_bucket sample_globals sample_store
              sample_file "KSC LC-39A" Hsel eq_refl eq_refl eq_refl)
    as [fig [counts [Hfig [Hv [_ [_ Hpos]]]]]].
  exists fig, counts. now repeat split.
Defined.

Lemma pie_of_site_agrees_with_pie_of_all_sample :
  "KSC LC-39A" <> "ALL" /\
  exists fig_all fig_site,
    fst (get_pie_chart sample_globals "ALL" sample_store) = Ok fig_all /\
    fst (get_pie_chart sample_globals "KSC LC-39A" sample_store)
      = Ok fig_site /\
    slice_size fig_site success_label ==
      slice_size fig_all (CStr "KSC LC-39A").
Proof.
  assert (Hsel : "KSC LC-39A" <> "ALL") by discriminate.
  split; [exact Hsel|].
  exact (pie_of_site_agrees_with_pie_of_all sample_globals sample_store
           sample_file "KSC LC-39A" Hsel eq_refl eq_refl eq_refl).
Defined.

Lemma missing_class_column_fails_every_callback_sample :
  has_column "class" (columns no_class_file) = false /\
  fst (get_pie_chart sample_globals "ALL" [no_class_file])
    = Err (KeyError "class") /\
  fst (update_scatter sample_globals "ALL" (Some 0, Some 9600)
         [no_class_file])
    = Err (ValueError "class" (columns no_class_file)).
Proof.
  destruct (missing_class_column_fails_every_callback sample_globals
              [no_class_file] no_class_file
              eq_refl eq_refl eq_refl eq_refl eq_refl eq_refl)
    as [Hpie Hscatter].
  split; [reflexivity|]. split; [apply Hpie | apply Hscatter].
Defined.

Lemma startup_succeeds_on_launch_table_sample :
  some_number sample_file "Payload Mass (kg)" /\
  bounded_column sample_file "Payload Mass (kg)" /\
  exists g l,
    startup sample_file [] = (Ok (g, l), [sample_file]) /\
    sl_value (slider l) =
      (py_float (min_payload g), py_float (max_payload g)).
Proof.
  split; [reflexivity|]. split; [reflexivity|].
  destruct (startup_succeeds_on_launch_table sample_file []
              "Payload Mass (kg)" eq_refl eq_refl eq_refl eq_refl eq_refl
              eq_refl)
    as [g [l [Hstart [_ [_ [_ [_ [_ [Hvalue _]]]]]]]]].
  exists g, l. now split.
Defined.

Lemma opening_range_keeps_rows_with_payload_sample :
  loader sample_file [] = (Ok sample_globals, sample_store) /\
  exists fig,
    fst (update_scatter sample_globals "ALL"
           (min_payload sample_globals, max_payload sample_globals)
           sample_store) = Ok fig /\
    List.length (rows (sc_data fig)) = 4%nat.
Proof.
  split; [reflexivity|].
  destruct (opening_range_keeps_rows_with_payload sample_file []
              sample_store sample_globals "ALL"
              eq_refl eq_refl eq_refl eq_refl eq_refl)
    as [fig [Hfig [Hrows _]]].
  exists fig. split; [exact Hfig|]. rewrite Hrows. reflexivity.
Defined.

